(** * Media Sync web client (script.js): a shallow embedding and its properties

    The development follows the class [MediaSyncApp] of [script.js]:
    the string helpers the code relies on, the regular expressions of the
    path validator, the media classifier and filter, the command channel
    [callRustCommand], and the host and playback handlers.

    Modelling conventions.
    - A JavaScript string is a [string]: a sequence of code units, here the
      code units 0..255.  Case mapping, white space and line terminators are
      the ECMAScript ones restricted to that range.
    - JavaScript numbers that the code handles are integers (a port, an HTTP
      status, a length).  A number is a double: [VNum z] stands for the double
      nearest to [z], [parseInt] rounds to it, and the decimal notation is the
      one of [Number.prototype.toString]; [VNaN] is the result of a failed
      [parseInt] and [VInfinity] the one of an overflow.
    - An object used as a record of named fields is a [gmap string value]; it
      is an object that [JSON.parse] made, so that none of its fields is a
      function.
    - The handlers run in a monad that threads the application state and may
      raise an exception; [try ... catch] is a combinator of that monad.
    - The page is part of the state: the log, the notifications, the status
      indicators and the player container are fields of [App].  The time stamp
      of a log line and the HTML text of the rendered lists are left out.
    - What only the browser decides is read from the environment [Browser]:
      whether a media element written with [autoplay] starts, what markup
      injected through a file name contains, and the wording of the exception
      of [atob]. *)

From Stdlib Require Import ZArith NArith Ascii String List Bool Lia DecimalString.
From stdpp Require Import gmap strings list fin_maps.

#[local] Set Warnings "-register-all".
#[local] Open Scope string_scope.
#[local] Open Scope list_scope.

(** ** JavaScript strings *)

Module JS.

Definition code (c : ascii) : N := N_of_ascii c.

Definition in_range (lo hi : N) (c : ascii) : bool :=
  (lo <=? code c)%N && (code c <=? hi)%N.

(** [String.prototype.toLowerCase], one code unit: A-Z, and the upper-case
    letters of the range 192..222 (215 is the multiplication sign). *)
Definition toLowerCase_char (c : ascii) : ascii :=
  if in_range 65 90 c || (in_range 192 222 c && negb (code c =? 215)%N)
  then ascii_of_N (code c + 32)
  else c.

Fixpoint toLowerCase (s : string) : string :=
  match s with
  | EmptyString => EmptyString
  | String c s' => String (toLowerCase_char c) (toLowerCase s')
  end.

(** White space and line terminators: tab, LF, VT, FF, CR, space, NBSP. *)
Definition is_space (c : ascii) : bool :=
  in_range 9 13 c || (code c =? 32)%N || (code c =? 160)%N.

Fixpoint trimStart (s : string) : string :=
  match s with
  | EmptyString => EmptyString
  | String c s' => if is_space c then trimStart s' else s
  end.

(** [trimEnd] keeps a character when it is not white space or when
    something remains after it. *)
Fixpoint trimEnd (s : string) : string :=
  match s with
  | EmptyString => EmptyString
  | String c s' =>
      match trimEnd s' with
      | EmptyString => if is_space c then EmptyString else String c EmptyString
      | t => String c t
      end
  end.

Definition trim (s : string) : string := trimEnd (trimStart s).

(** [s.split(sep)] for a one-character separator: never an empty array. *)
Fixpoint split (sep : ascii) (s : string) : list string :=
  match s with
  | EmptyString => [EmptyString]
  | String c s' =>
      if Ascii.eqb c sep then EmptyString :: split sep s'
      else match split sep s' with
           | h :: t => String c h :: t
           | [] => [String c EmptyString]
           end
  end.

(** [Array.prototype.pop]: the last element, [None] for [undefined]. *)
Definition pop (l : list string) : option string := last l.

(** [Array.prototype.includes] on an array of strings. *)
Definition includes (l : list string) (x : string) : bool :=
  existsb (String.eqb x) l.

(** [s.includes(c)] for a one-character needle. *)
Fixpoint includes_char (c : ascii) (s : string) : bool :=
  match s with
  | EmptyString => false
  | String d s' => Ascii.eqb d c || includes_char c s'
  end.

(** Decimal notation of an integer, as [String(n)] gives it for an integer
    below 2^53 in magnitude: the lengths that the handlers print. *)
Definition string_of_Z (z : Z) : string :=
  NilEmpty.string_of_int (Z.to_int z).

Definition string_of_nat (n : nat) : string := string_of_Z (Z.of_nat n).

(** The double quote, for the messages that contain one. *)
Definition dquote : string := String (ascii_of_N 34) EmptyString.

End JS.

(** ** Media classifier *)

(** What the handlers read of a [File] of the file picker. *)
Record File := mkFile {
  name : string;
  size : Z;
  webkitRelativePath : string
}.

(** [filename.split('.').pop().toLowerCase()].  [split] never returns an
    empty array, so [pop] is never [undefined] here. *)
Definition extension (filename : string) : string :=
  match JS.pop (JS.split "." filename) with
  | Some e => JS.toLowerCase e
  | None => EmptyString
  end.

Definition mediaExtensions : list string :=
  [ "mp4"; "avi"; "mkv"; "mov"; "webm"; "wmv"; "flv"; "m4v";
    "mp3"; "wav"; "flac"; "ogg"; "aac"; "m4a"; "wma";
    "jpg"; "jpeg"; "png"; "gif"; "bmp"; "webp"; "svg"; "tiff" ].

Definition filterMediaFiles (files : list File) : list File :=
  List.filter (fun file => JS.includes mediaExtensions (extension (name file))) files.

Definition getMediaTypeFromFilename (filename : string) : string :=
  let extension := extension filename in
  if JS.includes ["mp4"; "avi"; "mkv"; "mov"; "webm"] extension then "video"
  else if JS.includes ["mp3"; "wav"; "flac"; "ogg"; "aac"] extension then "audio"
  else if JS.includes ["jpg"; "jpeg"; "png"; "gif"; "bmp"; "webp"] extension then "image"
  else "unknown".

(** ** Regular expressions

    The fragment of ECMAScript regular expressions that the script uses,
    with the backtracking matcher read as a function from a start index to
    the end indices of the matches, in the order in which backtracking finds
    them. *)

Module Regex.

Inductive item :=
  | IChar (c : ascii)
  | IRange (lo hi : ascii).

Inductive regex :=
  | Eps
  | Char (c : ascii)
  | Dot
  | Digit
  | Space
  | Class (negated : bool) (items : list item)
  | Bol
  | Eol
  | Seq (r1 r2 : regex)
  | Alt (r1 r2 : regex)
  | Star (r : regex).

(** [r+], [r{1,2}], a literal word and a sequence of parts. *)
Definition Plus (r : regex) : regex := Seq r (Star r).

Definition OneOrTwo (r : regex) : regex := Seq r (Alt r Eps).

Fixpoint lit (s : string) : regex :=
  match s with
  | EmptyString => Eps
  | String c s' => Seq (Char c) (lit s')
  end.

Definition cat (parts : list regex) : regex := fold_right Seq Eps parts.

(** A regular expression literal: its pattern and its [i] flag. *)
Record RegExp := mkRegExp { pattern : regex; ignoreCase : bool }.

(** [Canonicalize] under the [i] flag: the upper-case code unit. *)
Definition canon (c : ascii) : ascii :=
  if JS.in_range 97 122 c || (JS.in_range 224 254 c && negb (JS.code c =? 247)%N)
  then ascii_of_N (JS.code c - 32)
  else c.

Definition char_matches (ci : bool) (c x : ascii) : bool :=
  if ci then Ascii.eqb (canon c) (canon x) else Ascii.eqb c x.

Definition item_has (it : item) (x : ascii) : bool :=
  match it with
  | IChar c => Ascii.eqb c x
  | IRange lo hi => JS.in_range (JS.code lo) (JS.code hi) x
  end.

Definition all_chars : list ascii := map ascii_of_nat (seq 0 256).

Definition class_has (ci : bool) (items : list item) (x : ascii) : bool :=
  if ci
  then existsb (fun a => existsb (fun it => item_has it a) items
                         && Ascii.eqb (canon a) (canon x)) all_chars
  else existsb (fun it => item_has it x) items.

(** [.] excludes the line terminators. *)
Definition is_line_terminator (x : ascii) : bool :=
  (JS.code x =? 10)%N || (JS.code x =? 13)%N.

Definition one (s : list ascii) (i : nat) (p : ascii -> bool) : list nat :=
  match s !! i with
  | Some x => if p x then [S i] else []
  | None => []
  end.

(** Greedy iteration; an iteration that consumes nothing is dropped. *)
Fixpoint star_from (step : nat -> list nat) (fuel i : nat) : list nat :=
  match fuel with
  | 0 => [i]
  | S f => flat_map (star_from step f) (List.filter (fun j => (i <? j)%nat) (step i)) ++ [i]
  end.

Fixpoint ends (ci : bool) (r : regex) (s : list ascii) (i : nat) : list nat :=
  match r with
  | Eps => [i]
  | Char c => one s i (char_matches ci c)
  | Dot => one s i (fun x => negb (is_line_terminator x))
  | Digit => one s i (JS.in_range 48 57)
  | Space => one s i JS.is_space
  | Class negated items => one s i (fun x => xorb negated (class_has ci items x))
  | Bol => if (i =? 0)%nat then [i] else []
  | Eol => if (i =? length s)%nat then [i] else []
  | Seq r1 r2 => flat_map (ends ci r2 s) (ends ci r1 s i)
  | Alt r1 r2 => ends ci r1 s i ++ ends ci r2 s i
  | Star r1 => star_from (ends ci r1 s) (S (length s)) i
  end.

Definition matches_at (re : RegExp) (s : list ascii) (i : nat) : bool :=
  match ends (ignoreCase re) (pattern re) s i with
  | [] => false
  | _ :: _ => true
  end.

(** [re.test(str)]: some start index has a match. *)
Definition test (re : RegExp) (str : string) : bool :=
  let s := list_ascii_of_string str in
  existsb (matches_at re s) (seq 0 (S (length s))).

(** [str.replace(re, '')] for a regular expression with the [g] flag:
    every match is deleted, the search resuming where the match ended
    (one further after an empty match). *)
Fixpoint delete_from (re : RegExp) (s : list ascii) (fuel i : nat) : list ascii :=
  match fuel with
  | 0 => []
  | S f =>
      match ends (ignoreCase re) (pattern re) s i with
      | e :: _ =>
          if (i <? e)%nat then delete_from re s f e
          else option_list (s !! i) ++ delete_from re s f (S i)
      | [] => option_list (s !! i) ++ delete_from re s f (S i)
      end
  end.

Definition delete_all (re : RegExp) (str : string) : string :=
  let s := list_ascii_of_string str in
  string_of_list_ascii (delete_from re s (S (length s)) 0).

End Regex.

(** ** Path validator *)

Import Regex.

Definition separators : list item := [IChar "\"; IChar "/"].

Definition letter : regex := Class false [IRange "a" "z"; IRange "A" "Z"].

Definition invalidPatterns : list RegExp :=
  [ (* /\d+\s+media\s+file/i *)
    mkRegExp (cat [Plus Digit; Plus Space; lit "media"; Plus Space; lit "file"]) true;
    (* /file.*selected/i *)
    mkRegExp (cat [lit "file"; Star Dot; lit "selected"]) true;
    (* /selected/i *)
    mkRegExp (lit "selected") true;
    (* /^[^\\\/]*$/ *)
    mkRegExp (cat [Bol; Star (Class true separators); Eol]) false ].

Definition pathLikePatterns : list RegExp :=
  [ (* /^[a-zA-Z]:\\/ *)
    mkRegExp (cat [Bol; letter; Char ":"; Char "\"]) false;
    (* /^[a-zA-Z]:[\/\\]/ *)
    mkRegExp (cat [Bol; letter; Char ":"; Class false separators]) false;
    (* /^\/[^\/]/ *)
    mkRegExp (cat [Bol; Char "/"; Class true [IChar "/"]]) false;
    (* /^\.{1,2}[\/\\]/ *)
    mkRegExp (cat [Bol; OneOrTwo (Char "."); Class false separators]) false;
    (* /^[^\/\\]+[\/\\]/ *)
    mkRegExp (cat [Bol; Plus (Class true separators); Class false separators]) false;
    (* /test_media$/ *)
    mkRegExp (cat [lit "test_media"; Eol]) false;
    (* /^.*[\/\\].*[\/\\]/ *)
    mkRegExp (cat [Bol; Star Dot; Class false separators; Star Dot;
                   Class false separators]) false;
    (* /^[a-zA-Z]:\\.*\\.*$/ *)
    mkRegExp (cat [Bol; letter; Char ":"; Char "\"; Star Dot; Char "\"; Star Dot; Eol]) false;
    (* /^C:\\Users\\.*\\.*$/ *)
    mkRegExp (cat [Bol; lit "C:\Users\"; Star Dot; Char "\"; Star Dot; Eol]) false;
    (* /OneDrive/i, /Pictures/i, /Documents/i, /Downloads/i *)
    mkRegExp (lit "OneDrive") true;
    mkRegExp (lit "Pictures") true;
    mkRegExp (lit "Documents") true;
    mkRegExp (lit "Downloads") true ].

(** [isValidDirectoryPath(path)] for a string argument.  The loop over
    [invalidPatterns] returns [false] at the first pattern that matches a
    path shorter than 10. *)
Definition isValidDirectoryPath (path : string) : bool :=
  if String.eqb path EmptyString then false
  else
    let path := JS.trim path in
    if existsb (fun pattern => test pattern path && (String.length path <? 10)%nat)
               invalidPatterns
    then false
    else
      let hasPathSeparators := JS.includes_char "\" path || JS.includes_char "/" path in
      let isLongEnough := (3 <? String.length path)%nat in
      existsb (fun pattern => test pattern path) pathLikePatterns
      || (hasPathSeparators && isLongEnough).

(** ** JavaScript values and exceptions *)

Inductive value :=
  | VUndefined
  | VNull
  | VBool (b : bool)
  | VNum (z : Z)
  | VNaN
  | VInfinity (negative : bool)
  | VStr (s : string)
  | VArr (elems : list value)
  | VObj (fields : gmap string value).

(** [ToBoolean]. *)
Definition truthy (v : value) : bool :=
  match v with
  | VUndefined | VNull | VNaN => false
  | VBool b => b
  | VNum z => negb (z =? 0)%Z
  | VStr s => negb (String.eqb s EmptyString)
  | VInfinity _ | VArr _ | VObj _ => true
  end.

(** [x || y]. *)
Definition or_else (x y : value) : value := if truthy x then x else y.

Definition join (sep : string) (l : list string) : string :=
  match l with
  | [] => EmptyString
  | x :: l' => fold_left (fun acc y => acc +:+ sep +:+ y) l' x
  end.

(** *** Numbers

    The double nearest to an integer, ties to the even significand; [None]
    when the integer is beyond the largest double. *)
Definition to_double (z : Z) : option Z :=
  let a := Z.abs z in
  if (a <? 2 ^ 53)%Z then Some z
  else
    let e := (Z.log2 a - 52)%Z in
    let q := (a / 2 ^ e)%Z in
    let r := (a mod 2 ^ e)%Z in
    let half := (2 ^ (e - 1))%Z in
    let q' := if (half <? r)%Z || ((r =? half)%Z && Z.odd q) then (q + 1)%Z else q in
    let m := (q' * 2 ^ e)%Z in
    if (2 ^ 1024 <=? m)%Z then None else Some (Z.sgn z * m)%Z.

(** The number that an integer literal or a digit string denotes. *)
Definition number (z : Z) : value :=
  match to_double z with
  | Some d => VNum d
  | None => VInfinity (z <? 0)%Z
  end.

(** [Number::toString] of a positive double [a] that is an integer: the
    digits [s] and the exponent [n] with as few digits as denote [a], the
    nearest to [a] among them, the even one of two.  A candidate is
    [(distance, s, n)]. *)
Definition candidates (a : Z) (n k : nat) : list (Z * Z * nat) :=
  let p := (10 ^ Z.of_nat (n - k))%Z in
  let lo := (a / p)%Z in
  let hi := (lo + 1)%Z in
  let norm (s : Z) : Z * nat :=
    if (s =? 10 ^ Z.of_nat k)%Z then (1%Z, S n) else (s, n) in
  let ok (s : Z) : bool :=
    match to_double (s * p) with
    | Some d => (d =? a)%Z
    | None => false
    end in
  (if ok lo then [((a - lo * p)%Z, lo, n)] else [])
  ++ (if ok hi then [((hi * p - a)%Z, fst (norm hi), snd (norm hi))] else []).

Definition nearest (l : list (Z * Z * nat)) : option (Z * nat) :=
  match l with
  | [] => None
  | [(_, s, n)] => Some (s, n)
  | (d1, s1, n1) :: (d2, s2, n2) :: _ =>
      if (d1 <? d2)%Z then Some (s1, n1)
      else if (d2 <? d1)%Z then Some (s2, n2)
      else if Z.even s1 then Some (s1, n1) else Some (s2, n2)
  end.

Fixpoint shortest (a : Z) (n : nat) (ks : list nat) : Z * nat :=
  match ks with
  | [] => (a, n)
  | k :: ks' =>
      match nearest (candidates a n k) with
      | Some r => r
      | None => shortest a n ks'
      end
  end.

Definition zeros (n : nat) : string := string_of_list_ascii (repeat "0"%char n).

Definition double_text (a : Z) : string :=
  if (a <? 2 ^ 53)%Z then JS.string_of_Z a
  else
    let n := String.length (JS.string_of_Z a) in
    let '(s, n) := shortest a n (seq 1 n) in
    let ds := JS.string_of_Z s in
    let k := String.length ds in
    if (n <=? 21)%nat then ds +:+ zeros (n - k)
    else
      match ds with
      | String d EmptyString => ds +:+ "e+" +:+ JS.string_of_nat (n - 1)
      | String d rest =>
          String d ("." +:+ rest) +:+ "e+" +:+ JS.string_of_nat (n - 1)
      | EmptyString => EmptyString
      end.

(** [String(n)] for the number that [z] stands for. *)
Definition number_text (z : Z) : string :=
  match to_double z with
  | Some d => if (d <? 0)%Z then "-" +:+ double_text (- d) else double_text d
  | None => if (z <? 0)%Z then "-Infinity" else "Infinity"
  end.

(** An exception object; the handlers read its [message] only. *)
Record Exn := mkExn { exn_name : string; message : string }.

Definition Error (msg : string) : Exn := mkExn "Error" msg.
Definition TypeError (msg : string) : Exn := mkExn "TypeError" msg.

Inductive Res (A : Type) :=
  | Normal (a : A)
  | Throw (e : Exn).
Arguments Normal {A} a.
Arguments Throw {A} e.

(** [ToString]: what a template literal and [new Error(x)] apply.  An
    array is joined, the holes [undefined] and [null] left empty.  An object
    has the [toString] of [Object.prototype] unless a field of its own hides
    it: that field is no function, [valueOf] gives the object back, and the
    conversion throws.  The wording of a [TypeError] is the engine's. *)
Definition cannot_convert : Exn := TypeError "Cannot convert object to primitive value".

Fixpoint ToString (v : value) : Res string :=
  match v with
  | VUndefined => Normal "undefined"
  | VNull => Normal "null"
  | VBool true => Normal "true"
  | VBool false => Normal "false"
  | VNum z => Normal (number_text z)
  | VNaN => Normal "NaN"
  | VInfinity negative => Normal (if negative then "-Infinity" else "Infinity")
  | VStr s => Normal s
  | VArr elems =>
      let fix texts (l : list value) : Res (list string) :=
        match l with
        | [] => Normal []
        | e :: l' =>
            match (match e with
                   | VUndefined | VNull => Normal EmptyString
                   | _ => ToString e
                   end) with
            | Throw x => Throw x
            | Normal t =>
                match texts l' with
                | Throw x => Throw x
                | Normal ts => Normal (t :: ts)
                end
            end
        end in
      match texts elems with
      | Normal ts => Normal (join "," ts)
      | Throw x => Throw x
      end
  | VObj fields =>
      match fields !! "toString" with
      | Some _ => Throw cannot_convert
      | None => Normal "[object Object]"
      end
  end.

(** [ToPrimitive]: an array or an object becomes the string above, whether
    a string or a number is asked for; [ToNumber] throws when this does. *)
Definition ToPrimitive (v : value) : Res value :=
  match v with
  | VArr _ | VObj _ =>
      match ToString v with
      | Normal s => Normal (VStr s)
      | Throw e => Throw e
      end
  | _ => Normal v
  end.

(** [x === 'literal']. *)
Definition is_string (v : value) (lit : string) : bool :=
  match v with
  | VStr s => String.eqb s lit
  | _ => false
  end.

(** [v.k] for a property name [k] that is not an array index: reading a
    property of [undefined] or [null] throws, a missing property is
    [undefined]. *)
Definition cannot_read (v : value) (k : string) : Exn :=
  TypeError ("Cannot read properties of "
             +:+ (match v with VNull => "null" | _ => "undefined" end)
             +:+ " (reading '" +:+ k +:+ "')").

Definition get (v : value) (k : string) : Res value :=
  match v with
  | VUndefined | VNull => Throw (cannot_read v k)
  | VObj fields => Normal (default VUndefined (fields !! k))
  | VArr elems =>
      Normal (if String.eqb k "length" then VNum (Z.of_nat (length elems)) else VUndefined)
  | VStr s =>
      Normal (if String.eqb k "length" then VNum (Z.of_nat (String.length s)) else VUndefined)
  | VBool _ | VNum _ | VNaN | VInfinity _ => Normal VUndefined
  end.

(** The own enumerable properties that [{...v}] copies. *)
Definition indexed (l : list value) : gmap string value :=
  list_to_map (imap (fun i x => (JS.string_of_nat i, x)) l).

Definition spread (v : value) : gmap string value :=
  match v with
  | VObj fields => fields
  | VArr elems => indexed elems
  | VStr s => indexed (map (fun c => VStr (String c EmptyString)) (list_ascii_of_string s))
  | _ => ∅
  end.

(** [getMimeType(mediaType, filename)]: [filename.split] throws unless
    [filename] is a string. *)
Definition getMimeType (mediaType filename : value) : Res string :=
  match filename with
  | VStr filename =>
      let extension := extension filename in
      Normal
        (if is_string mediaType "video" then
           if String.eqb extension "mp4" then "video/mp4"
           else if String.eqb extension "avi" then "video/x-msvideo"
           else if String.eqb extension "mkv" then "video/x-matroska"
           else if String.eqb extension "mov" then "video/quicktime"
           else if String.eqb extension "webm" then "video/webm"
           else "video/mp4"
         else if is_string mediaType "audio" then
           if String.eqb extension "mp3" then "audio/mpeg"
           else if String.eqb extension "wav" then "audio/wav"
           else if String.eqb extension "flac" then "audio/flac"
           else if String.eqb extension "ogg" then "audio/ogg"
           else if String.eqb extension "aac" then "audio/aac"
           else "audio/mpeg"
         else if is_string mediaType "image" then
           if String.eqb extension "jpg" then "image/jpeg"
           else if String.eqb extension "jpeg" then "image/jpeg"
           else if String.eqb extension "png" then "image/png"
           else if String.eqb extension "gif" then "image/gif"
           else if String.eqb extension "bmp" then "image/bmp"
           else if String.eqb extension "webp" then "image/webp"
           else "image/jpeg"
         else "application/octet-stream")
  | VUndefined | VNull => Throw (cannot_read filename "split")
  | _ => Throw (TypeError "filename.split is not a function")
  end.

(** ** The application state

    The fields of [MediaSyncApp] that the handlers below use, the parts of
    the page they read and write, and the environment: the commands sent to
    the backend, the console and the object URLs created so far. *)

(** A list container of the page: its empty-state line, or one item for
    each element of the list it shows. *)
Inductive ListView :=
  | EmptyState
  | Items (l : list value).

Inductive MediaTag := TagVideo | TagAudio.

(** A [<video>] or [<audio>] element: its source, and the playback state
    that [play()], [pause()] and [currentTime] act upon. *)
Record MediaElement := mkMedia {
  tag : MediaTag;
  src : nat;
  mime : string;
  paused : bool;
  currentTime : Z
}.

(** The content of the player container.  [Image url alt] is the single
    [<img>] that the image template gives when the text written between the
    quotes of [alt] has no double quote.  [Markup url filename found] is what
    the template gives otherwise: the attribute ends at the first double quote
    of the file name, the browser reads the rest as further attributes and
    elements, and [found] is the first video or audio element of the
    result. *)
Inductive PlayerContent :=
  | Placeholder
  | NoElement
  | Media (m : MediaElement)
  | Image (url : nat) (alt : string)
  | Markup (url : nat) (filename : string) (found : option MediaElement).

(** What the browser decides: whether it starts the media element that is
    written with the [autoplay] attribute for an object URL (the code never
    calls [play()] on loading), the first video or audio element of the image
    template when the file name closes the [alt] attribute, and the message of
    the [InvalidCharacterError] of [atob] for an input. *)
Record Browser := mkBrowser {
  autoplayHonoured : nat -> bool;
  injectedMedia : nat -> string -> option MediaElement;
  atobFailure : string -> string
}.

Record Blob := mkBlob { blob_bytes : list N; blob_type : string }.

(** What [fetch] and [response.json()] can give. *)
Inductive Body :=
  | InvalidJson (msg : string)
  | Json (v : value).

Inductive FetchOutcome :=
  | NetworkFailure (msg : string)
  | Response (status : Z) (body : Body).

(** The backend, as seen from the page: the outcome of a command. *)
Definition Fetch : Type := string -> value -> FetchOutcome.

Record App := mkApp {
  serverRunning : bool;
  loadedFiles : value;
  connectedClients : value;
  serverPortInput : string;
  mediaDirectoryInput : string;
  serverStatus : bool;
  loadedFilesContainer : ListView;
  connectedClientsContainer : ListView;
  mediaPlayerContainer : PlayerContent;
  playerControls : bool;
  statusLog : list (string * string);
  notifications : list (string * string);
  console : list string;
  requests : list (string * value);
  blobs : list Blob;
  browser : Browser
}.

Definition set_serverRunning (v : bool) (app : App) : App :=
  {| serverRunning := v;
     loadedFiles := loadedFiles app;
     connectedClients := connectedClients app;
     serverPortInput := serverPortInput app;
     mediaDirectoryInput := mediaDirectoryInput app;
     serverStatus := serverStatus app;
     loadedFilesContainer := loadedFilesContainer app;
     connectedClientsContainer := connectedClientsContainer app;
     mediaPlayerContainer := mediaPlayerContainer app;
     playerControls := playerControls app;
     statusLog := statusLog app;
     notifications := notifications app;
     console := console app;
     requests := requests app;
     blobs := blobs app;
     browser := browser app |}.

Definition set_loadedFiles (v : value) (app : App) : App :=
  {| serverRunning := serverRunning app;
     loadedFiles := v;
     connectedClients := connectedClients app;
     serverPortInput := serverPortInput app;
     mediaDirectoryInput := mediaDirectoryInput app;
     serverStatus := serverStatus app;
     loadedFilesContainer := loadedFilesContainer app;
     connectedClientsContainer := connectedClientsContainer app;
     mediaPlayerContainer := mediaPlayerContainer app;
     playerControls := playerControls app;
     statusLog := statusLog app;
     notifications := notifications app;
     console := console app;
     requests := requests app;
     blobs := blobs app;
     browser := browser app |}.

Definition set_connectedClients (v : value) (app : App) : App :=
  {| serverRunning := serverRunning app;
     loadedFiles := loadedFiles app;
     connectedClients := v;
     serverPortInput := serverPortInput app;
     mediaDirectoryInput := mediaDirectoryInput app;
     serverStatus := serverStatus app;
     loadedFilesContainer := loadedFilesContainer app;
     connectedClientsContainer := connectedClientsContainer app;
     mediaPlayerContainer := mediaPlayerContainer app;
     playerControls := playerControls app;
     statusLog := statusLog app;
     notifications := notifications app;
     console := console app;
     requests := requests app;
     blobs := blobs app;
     browser := browser app |}.

Definition set_serverStatus (v : bool) (app : App) : App :=
  {| serverRunning := serverRunning app;
     loadedFiles := loadedFiles app;
     connectedClients := connectedClients app;
     serverPortInput := serverPortInput app;
     mediaDirectoryInput := mediaDirectoryInput app;
     serverStatus := v;
     loadedFilesContainer := loadedFilesContainer app;
     connectedClientsContainer := connectedClientsContainer app;
     mediaPlayerContainer := mediaPlayerContainer app;
     playerControls := playerControls app;
     statusLog := statusLog app;
     notifications := notifications app;
     console := console app;
     requests := requests app;
     blobs := blobs app;
     browser := browser app |}.

Definition set_loadedFilesContainer (v : ListView) (app : App) : App :=
  {| serverRunning := serverRunning app;
     loadedFiles := loadedFiles app;
     connectedClients := connectedClients app;
     serverPortInput := serverPortInput app;
     mediaDirectoryInput := mediaDirectoryInput app;
     serverStatus := serverStatus app;
     loadedFilesContainer := v;
     connectedClientsContainer := connectedClientsContainer app;
     mediaPlayerContainer := mediaPlayerContainer app;
     playerControls := playerControls app;
     statusLog := statusLog app;
     notifications := notifications app;
     console := console app;
     requests := requests app;
     blobs := blobs app;
     browser := browser app |}.

Definition set_connectedClientsContainer (v : ListView) (app : App) : App :=
  {| serverRunning := serverRunning app;
     loadedFiles := loadedFiles app;
     connectedClients := connectedClients app;
     serverPortInput := serverPortInput app;
     mediaDirectoryInput := mediaDirectoryInput app;
     serverStatus := serverStatus app;
     loadedFilesContainer := loadedFilesContainer app;
     connectedClientsContainer := v;
     mediaPlayerContainer := mediaPlayerContainer app;
     playerControls := playerControls app;
     statusLog := statusLog app;
     notifications := notifications app;
     console := console app;
     requests := requests app;
     blobs := blobs app;
     browser := browser app |}.

Definition set_mediaPlayerContainer (v : PlayerContent) (app : App) : App :=
  {| serverRunning := serverRunning app;
     loadedFiles := loadedFiles app;
     connectedClients := connectedClients app;
     serverPortInput := serverPortInput app;
     mediaDirectoryInput := mediaDirectoryInput app;
     serverStatus := serverStatus app;
     loadedFilesContainer := loadedFilesContainer app;
     connectedClientsContainer := connectedClientsContainer app;
     mediaPlayerContainer := v;
     playerControls := playerControls app;
     statusLog := statusLog app;
     notifications := notifications app;
     console := console app;
     requests := requests app;
     blobs := blobs app;
     browser := browser app |}.

Definition set_playerControls (v : bool) (app : App) : App :=
  {| serverRunning := serverRunning app;
     loadedFiles := loadedFiles app;
     connectedClients := connectedClients app;
     serverPortInput := serverPortInput app;
     mediaDirectoryInput := mediaDirectoryInput app;
     serverStatus := serverStatus app;
     loadedFilesContainer := loadedFilesContainer app;
     connectedClientsContainer := connectedClientsContainer app;
     mediaPlayerContainer := mediaPlayerContainer app;
     playerControls := v;
     statusLog := statusLog app;
     notifications := notifications app;
     console := console app;
     requests := requests app;
     blobs := blobs app;
     browser := browser app |}.

Definition set_statusLog (v : list (string * string)) (app : App) : App :=
  {| serverRunning := serverRunning app;
     loadedFiles := loadedFiles app;
     connectedClients := connectedClients app;
     serverPortInput := serverPortInput app;
     mediaDirectoryInput := mediaDirectoryInput app;
     serverStatus := serverStatus app;
     loadedFilesContainer := loadedFilesContainer app;
     connectedClientsContainer := connectedClientsContainer app;
     mediaPlayerContainer := mediaPlayerContainer app;
     playerControls := playerControls app;
     statusLog := v;
     notifications := notifications app;
     console := console app;
     requests := requests app;
     blobs := blobs app;
     browser := browser app |}.

Definition set_notifications (v : list (string * string)) (app : App) : App :=
  {| serverRunning := serverRunning app;
     loadedFiles := loadedFiles app;
     connectedClients := connectedClients app;
     serverPortInput := serverPortInput app;
     mediaDirectoryInput := mediaDirectoryInput app;
     serverStatus := serverStatus app;
     loadedFilesContainer := loadedFilesContainer app;
     connectedClientsContainer := connectedClientsContainer app;
     mediaPlayerContainer := mediaPlayerContainer app;
     playerControls := playerControls app;
     statusLog := statusLog app;
     notifications := v;
     console := console app;
     requests := requests app;
     blobs := blobs app;
     browser := browser app |}.

Definition set_console (v : list string) (app : App) : App :=
  {| serverRunning := serverRunning app;
     loadedFiles := loadedFiles app;
     connectedClients := connectedClients app;
     serverPortInput := serverPortInput app;
     mediaDirectoryInput := mediaDirectoryInput app;
     serverStatus := serverStatus app;
     loadedFilesContainer := loadedFilesContainer app;
     connectedClientsContainer := connectedClientsContainer app;
     mediaPlayerContainer := mediaPlayerContainer app;
     playerControls := playerControls app;
     statusLog := statusLog app;
     notifications := notifications app;
     console := v;
     requests := requests app;
     blobs := blobs app;
     browser := browser app |}.

Definition set_requests (v : list (string * value)) (app : App) : App :=
  {| serverRunning := serverRunning app;
     loadedFiles := loadedFiles app;
     connectedClients := connectedClients app;
     serverPortInput := serverPortInput app;
     mediaDirectoryInput := mediaDirectoryInput app;
     serverStatus := serverStatus app;
     loadedFilesContainer := loadedFilesContainer app;
     connectedClientsContainer := connectedClientsContainer app;
     mediaPlayerContainer := mediaPlayerContainer app;
     playerControls := playerControls app;
     statusLog := statusLog app;
     notifications := notifications app;
     console := console app;
     requests := v;
     blobs := blobs app;
     browser := browser app |}.

Definition set_blobs (v : list Blob) (app : App) : App :=
  {| serverRunning := serverRunning app;
     loadedFiles := loadedFiles app;
     connectedClients := connectedClients app;
     serverPortInput := serverPortInput app;
     mediaDirectoryInput := mediaDirectoryInput app;
     serverStatus := serverStatus app;
     loadedFilesContainer := loadedFilesContainer app;
     connectedClientsContainer := connectedClientsContainer app;
     mediaPlayerContainer := mediaPlayerContainer app;
     playerControls := playerControls app;
     statusLog := statusLog app;
     notifications := notifications app;
     console := console app;
     requests := requests app;
     blobs := v;
     browser := browser app |}.

Definition set_browser (v : Browser) (app : App) : App :=
  {| serverRunning := serverRunning app;
     loadedFiles := loadedFiles app;
     connectedClients := connectedClients app;
     serverPortInput := serverPortInput app;
     mediaDirectoryInput := mediaDirectoryInput app;
     serverStatus := serverStatus app;
     loadedFilesContainer := loadedFilesContainer app;
     connectedClientsContainer := connectedClientsContainer app;
     mediaPlayerContainer := mediaPlayerContainer app;
     playerControls := playerControls app;
     statusLog := statusLog app;
     notifications := notifications app;
     console := console app;
     requests := requests app;
     blobs := blobs app;
     browser := v |}.

(** ** The monad of the handlers: state and exceptions

    A computation takes the state and gives a result or an exception,
    together with the state it leaves; the state changes made before an
    exception is thrown stay, as in JavaScript. *)

Definition M (A : Type) : Type := App -> Res A * App.

#[export] Instance M_ret : MRet M := fun A a app => (Normal a, app).

#[export] Instance M_bind : MBind M := fun A B f m app =>
  match m app with
  | (Normal a, app') => f a app'
  | (Throw e, app') => (Throw e, app')
  end.

Definition throw {A : Type} (e : Exn) : M A := fun app => (Throw e, app).

(** [try { body } catch (error) { handler }]. *)
Definition try_catch {A : Type} (body : M A) (handler : Exn -> M A) : M A :=
  fun app =>
    match body app with
    | (Normal a, app') => (Normal a, app')
    | (Throw e, app') => handler e app'
    end.

Definition lift {A : Type} (r : Res A) : M A := fun app => (r, app).

Definition read {A : Type} (f : App -> A) : M A := fun app => (Normal (f app), app).

Definition modify (f : App -> App) : M unit := fun app => (Normal tt, f app).

(** ** UI utility methods *)

(** [logMessage(message, type)]: one more entry at the end of the log. *)
Definition logMessage (msg type : string) : M unit :=
  modify (fun app => set_statusLog (statusLog app ++ [(msg, type)]) app).

(** [showNotification(message, type)]: one more notification shown. *)
Definition showNotification (msg type : string) : M unit :=
  modify (fun app => set_notifications (notifications app ++ [(msg, type)]) app).

(** [updateServerStatus(running)]: the dot, the status text and the two
    buttons all follow [running]. *)
Definition updateServerStatus (running : bool) : M unit :=
  modify (set_serverStatus running).

(** The body of [list.map(item => `...${item.p}...${f(item.q)}...`)] for
    one item: each property is read, which throws on [undefined] and [null],
    and converted, to a string by the template or to a number by
    [formatFileSize], which throws when [ToPrimitive] does. *)
Fixpoint render_item (props : list string) (item : value) : Res unit :=
  match props with
  | [] => Normal tt
  | p :: props' =>
      match get item p with
      | Throw e => Throw e
      | Normal v =>
          match ToPrimitive v with
          | Throw e => Throw e
          | Normal _ => render_item props' item
          end
      end
  end.

Fixpoint render_items (props : list string) (l : list value) : Res unit :=
  match l with
  | [] => Normal tt
  | x :: l' =>
      match render_item props x with
      | Throw e => Throw e
      | Normal _ => render_items props l'
      end
  end.

(** The shared shape of [updateLoadedFiles] and [updateConnectedClients]:
    [list.length === 0] selects the empty state, otherwise [list.map]
    renders the items, and throws when [list] is not an array. *)
Definition render_list (what : string) (props : list string) (list : value) : Res ListView :=
  match get list "length" with
  | Throw e => Throw e
  | Normal (VNum 0) => Normal EmptyState
  | Normal _ =>
      match list with
      | VArr elems =>
          match render_items props elems with
          | Normal _ => Normal (Items elems)
          | Throw e => Throw e
          end
      | _ => Throw (TypeError (what +:+ ".map is not a function"))
      end
  end.

(** An item shows [file.name], [formatFileSize(file.size)] and [file.name]. *)
Definition updateLoadedFiles : M unit :=
  list ← read loadedFiles;
  view ← lift (render_list "this.loadedFiles" ["name"; "size"; "name"] list);
  modify (set_loadedFilesContainer view).

(** An item shows [client.id], [client.connectedTime] and [client.id]. *)
Definition updateConnectedClients : M unit :=
  list ← read connectedClients;
  view ← lift (render_list "this.connectedClients" ["id"; "connectedTime"; "id"] list);
  modify (set_connectedClientsContainer view).

Definition updatePlayerControls (enabled : bool) : M unit :=
  modify (set_playerControls enabled).

(** ** Communication with the backend *)

Definition response_ok (status : Z) : bool := (200 <=? status)%Z && (status <=? 299)%Z.

(** [await fetch('/api', ...)]: the command goes out; a failure of the
    transport rejects, otherwise the response has a status and a body. *)
Definition do_fetch (fetch : Fetch) (command : string) (params : value) : M (Z * Body) :=
  modify (fun app => set_requests (requests app ++ [(command, params)]) app);;
  match fetch command params with
  | NetworkFailure msg => throw (TypeError msg)
  | Response status body => mret (status, body)
  end.

(** [await response.json()]. *)
Definition response_json (body : Body) : M value :=
  match body with
  | InvalidJson msg => throw (mkExn "SyntaxError" msg)
  | Json v => mret v
  end.

Definition console_error (msg : string) : M unit :=
  modify (fun app => set_console (console app ++ [msg]) app).

(** [{ success: result.success, ...result.data }]: the fields of [data]
    are copied after [success], and so replace it when they name it. *)
Definition normalized (result : value) : M value :=
  success ← lift (get result "success");
  data ← lift (get result "data");
  mret (VObj (spread data ∪ {["success" := success]})).

(** [throw new Error(x)]: the message is [ToString(x)], and it is the
    exception of the conversion that is thrown when that fails. *)
Definition new_Error {A : Type} (x : value) : M A :=
  msg ← lift (ToString x);
  throw (Error msg).

Definition callRustCommand (fetch : Fetch) (command : string) (params : value) : M value :=
  try_catch
    (response ← do_fetch fetch command params;
     let '(status, body) := response in
     if negb (response_ok status)
     then throw (Error ("HTTP error! status: " +:+ number_text status))
     else
       result ← response_json body;
       success ← lift (get result "success");
       if truthy success then normalized result
       else
         error ← lift (get result "error");
         if truthy error then new_Error error
         else normalized result)
    (fun error =>
       console_error ("Error calling Rust command: " +:+ message error);;
       mret (VObj {["success" := VBool false; "error" := VStr (message error)]})).

(** ** Host controller *)

(** [/^["']|["']$/g]. *)
Definition quote_class : regex := Class false [IChar (ascii_of_N 34); IChar "'"].

Definition surroundingQuotes : RegExp :=
  mkRegExp (Alt (Seq Bol quote_class) (Seq quote_class Eol)) false.

(** [this.mediaDirectoryInput.value.trim()], then the quotes removed. *)
Definition cleanDirectory (raw : string) : string :=
  delete_all surroundingQuotes (JS.trim raw).

(** [parseInt(s)]: leading white space, a sign, then decimal digits, or
    hexadecimal digits after [0x]; [NaN] when there is no digit.  The result
    is the number nearest to the integer that the digits denote; engines
    round that integer exactly, also past the twenty significant digits after
    which ECMAScript would let them approximate. *)
Definition digit_value (radix : Z) (c : ascii) : option Z :=
  let n := Z.of_N (JS.code c) in
  let d := (if JS.in_range 48 57 c then n - 48
            else if JS.in_range 97 122 c then n - 87
            else if JS.in_range 65 90 c then n - 55
            else radix)%Z in
  if (d <? radix)%Z then Some d else None.

Fixpoint digits (radix : Z) (acc : option Z) (s : string) : option Z :=
  match s with
  | EmptyString => acc
  | String c s' =>
      match digit_value radix c with
      | Some d => digits radix (Some (radix * default 0%Z acc + d)%Z) s'
      | None => acc
      end
  end.

Definition parseInt (s : string) : value :=
  let s := JS.trimStart s in
  let '(negative, s) :=
    match s with
    | String "-" s' => (true, s')
    | String "+" s' => (false, s')
    | _ => (false, s)
    end in
  let '(radix, s) :=
    match s with
    | String "0" (String "x" s') | String "0" (String "X" s') => (16%Z, s')
    | _ => (10%Z, s)
    end in
  match digits radix None s with
  | Some n => number (if negative : bool then (- n)%Z else n)
  | None => VNaN
  end.

(** [JSON.stringify] of a string: quotes, with the escapes of JSON. *)
Definition hex_digit (n : N) : ascii :=
  ascii_of_N (if (n <? 10)%N then (48 + n)%N else (87 + n)%N).

Definition json_escape (c : ascii) : string :=
  let n := JS.code c in
  if (n =? 34)%N then "\" +:+ JS.dquote
  else if (n =? 92)%N then "\\"
  else if (n =? 8)%N then "\b"
  else if (n =? 9)%N then "\t"
  else if (n =? 10)%N then "\n"
  else if (n =? 12)%N then "\f"
  else if (n =? 13)%N then "\r"
  else if (n <? 32)%N
       then "\u00" +:+ String (hex_digit (n / 16)%N) (String (hex_digit (n mod 16)%N) EmptyString)
  else String c EmptyString.

Fixpoint json_escape_all (s : string) : string :=
  match s with
  | EmptyString => EmptyString
  | String c s' => json_escape c +:+ json_escape_all s'
  end.

Definition json_string (s : string) : string :=
  JS.dquote +:+ json_escape_all s +:+ JS.dquote.

(** [JSON.stringify({ port: ..., directory: ... })]; [NaN] and the
    infinities are written [null]. *)
Definition stringify_payload (port : value) (directory : string) : string :=
  "{" +:+ json_string "port" +:+ ":"
  +:+ (match port with VNum z => number_text z | _ => "null" end)
  +:+ "," +:+ json_string "directory" +:+ ":" +:+ json_string directory +:+ "}".

Definition startServer (fetch : Fetch) : M unit :=
  port ← read serverPortInput;
  raw ← read mediaDirectoryInput;
  let directory := cleanDirectory raw in
  logMessage ("Raw directory input: " +:+ JS.dquote +:+ raw +:+ JS.dquote) "info";;
  logMessage ("Cleaned directory: " +:+ JS.dquote +:+ directory +:+ JS.dquote) "info";;
  logMessage ("Directory length: " +:+ JS.string_of_nat (String.length directory)) "info";;
  if String.eqb port EmptyString then
    showNotification "Please enter a port number" "error";;
    logMessage "Missing port number" "error"
  else if String.eqb directory EmptyString then
    showNotification "Please enter a directory path or select files" "error";;
    logMessage "Missing directory path" "error"
  else if negb (isValidDirectoryPath directory) then
    showNotification
      "Please enter a valid directory path (e.g., f:\software\test_media)" "error";;
    logMessage ("Invalid directory path: " +:+ directory) "error";;
    logMessage ("Use " +:+ JS.dquote +:+ "Use Test Media" +:+ JS.dquote
                +:+ " button or enter a full path manually") "info"
  else
    try_catch
      (logMessage ("Starting server on port " +:+ port +:+ " with directory: "
                   +:+ directory) "info";;
       let port_number := parseInt port in
       let payload := VObj {["port" := port_number; "directory" := VStr directory]} in
       logMessage ("Sending payload: " +:+ stringify_payload port_number directory) "info";;
       response ← callRustCommand fetch "start-server" payload;
       success ← lift (get response "success");
       if truthy success then
         modify (set_serverRunning true);;
         updateServerStatus true;;
         files ← lift (get response "files");
         modify (set_loadedFiles (or_else files (VArr [])));;
         updateLoadedFiles;;
         showNotification "Server started successfully" "success";;
         logMessage "Server started successfully" "success"
       else
         error ← lift (get response "error");
         new_Error (or_else error (VStr "Failed to start server")))
      (fun error =>
         logMessage ("Failed to start server: " +:+ message error) "error";;
         showNotification ("Failed to start server: " +:+ message error) "error").

Definition stopServer (fetch : Fetch) : M unit :=
  try_catch
    (logMessage "Stopping server..." "info";;
     response ← callRustCommand fetch "stop-server" (VObj ∅);
     success ← lift (get response "success");
     if truthy success then
       modify (set_serverRunning false);;
       updateServerStatus false;;
       modify (set_loadedFiles (VArr []));;
       modify (set_connectedClients (VArr []));;
       updateLoadedFiles;;
       updateConnectedClients;;
       showNotification "Server stopped" "info";;
       logMessage "Server stopped" "info"
     else
       error ← lift (get response "error");
       new_Error (or_else error (VStr "Failed to stop server")))
    (fun error =>
       logMessage ("Failed to stop server: " +:+ message error) "error";;
       showNotification ("Failed to stop server: " +:+ message error) "error").

(** ** Media player *)

(** [atob]: ASCII white space is ignored, one or two padding signs end an
    input whose length is a multiple of four, and the rest must be letters
    of the base64 alphabet; [None] is the [InvalidCharacterError]. *)
Definition b64_value (c : ascii) : option N :=
  let n := JS.code c in
  if JS.in_range 65 90 c then Some (n - 65)%N
  else if JS.in_range 97 122 c then Some (n - 71)%N
  else if JS.in_range 48 57 c then Some (n + 4)%N
  else if (n =? 43)%N then Some 62%N
  else if (n =? 47)%N then Some 63%N
  else None.

Definition b64_space (c : ascii) : bool :=
  let n := JS.code c in
  (n =? 9)%N || (n =? 10)%N || (n =? 12)%N || (n =? 13)%N || (n =? 32)%N.

Definition strip_padding (s : list ascii) : list ascii :=
  if (length s mod 4 =? 0)%nat then
    match rev s with
    | "="%char :: "="%char :: r => rev r
    | "="%char :: r => rev r
    | _ => s
    end
  else s.

Fixpoint b64_values (s : list ascii) : option (list N) :=
  match s with
  | [] => Some []
  | c :: s' =>
      match b64_value c, b64_values s' with
      | Some v, Some vs => Some (v :: vs)
      | _, _ => None
      end
  end.

Fixpoint b64_bytes (l : list N) : list N :=
  match l with
  | a :: b :: c :: d :: rest =>
      (a * 4 + b / 16)%N :: ((b mod 16) * 16 + c / 4)%N :: ((c mod 4) * 64 + d)%N
      :: b64_bytes rest
  | [a; b; c] => [(a * 4 + b / 16)%N; ((b mod 16) * 16 + c / 4)%N]
  | [a; b] => [(a * 4 + b / 16)%N]
  | _ => []
  end.

Definition atob (data : string) : option (list N) :=
  let s := List.filter (fun c => negb (b64_space c)) (list_ascii_of_string data) in
  let s := strip_padding s in
  if (length s mod 4 =? 1)%nat then None
  else option_map b64_bytes (b64_values s).

(** [URL.createObjectURL(blob)]: the URL is the rank of the blob among the
    object URLs created so far; none is ever revoked. *)
Definition createObjectURL (blob : Blob) : M nat :=
  url ← read (fun app => length (blobs app));
  modify (fun app => set_blobs (blobs app ++ [blob]) app);;
  mret url.

(** The element that the markup of [loadMediaInPlayer] creates: both media
    templates carry [controls] and [autoplay], and nothing calls [play()], so
    the element plays when the browser starts it. *)
Definition autoplay_element (started : bool) (t : MediaTag) (url : nat) (type : string)
  : MediaElement :=
  {| tag := t; src := url; mime := type; paused := negb started; currentTime := 0 |}.

(** What [innerHTML] makes of the image template, in which the file name
    is written between the double quotes of [alt]. *)
Definition image_markup (b : Browser) (url : nat) (filename : string) : PlayerContent :=
  if JS.includes_char (ascii_of_N 34) filename
  then Markup url filename (injectedMedia b url filename)
  else Image url filename.

(** [const { k, ... } = v]: the pattern throws on [undefined] and [null],
    before any property is read. *)
Definition destructured (v : value) (k what : string) : Res unit :=
  match v with
  | VUndefined | VNull =>
      Throw (TypeError ("Cannot destructure property '" +:+ k +:+ "' of '" +:+ what
                        +:+ "' as it is "
                        +:+ (match v with VNull => "null" | _ => "undefined" end) +:+ "."))
  | _ => Normal tt
  end.

(** [atob(data)] converts its argument to a string first. *)
Definition loadMediaInPlayer (mediaData : value) : M unit :=
  lift (destructured mediaData "filename" "mediaData");;
  filename ← lift (get mediaData "filename");
  data ← lift (get mediaData "data");
  mediaType ← lift (get mediaData "mediaType");
  encoded ← lift (ToString data);
  match atob encoded with
  | None =>
      b ← read browser;
      throw (mkExn "InvalidCharacterError" (atobFailure b encoded))
  | Some bytes =>
      type ← lift (getMimeType mediaType filename);
      url ← createObjectURL (mkBlob bytes type);
      b ← read browser;
      playerHTML ←
        (if is_string mediaType "video"
         then mret (Media (autoplay_element (autoplayHonoured b url) TagVideo url type))
         else if is_string mediaType "audio"
         then mret (Media (autoplay_element (autoplayHonoured b url) TagAudio url type))
         else if is_string mediaType "image"
         then alt ← lift (ToString filename); mret (image_markup b url alt)
         else mret NoElement);
      modify (set_mediaPlayerContainer playerHTML);;
      updatePlayerControls true
  end.

Definition clearMediaPlayer : M unit :=
  modify (set_mediaPlayerContainer Placeholder);;
  updatePlayerControls false.

(** [this.mediaPlayerContainer.querySelector('video, audio')]. *)
Definition querySelector_media (content : PlayerContent) : option MediaElement :=
  match content with
  | Media m => Some m
  | Markup _ _ found => found
  | _ => None
  end.

(** The container once the element that [querySelector] found has changed. *)
Definition with_media (content : PlayerContent) (m : MediaElement) : PlayerContent :=
  match content with
  | Markup url filename _ => Markup url filename (Some m)
  | _ => Media m
  end.

Definition set_paused (p : bool) (m : MediaElement) : MediaElement :=
  {| tag := tag m; src := src m; mime := mime m; paused := p; currentTime := currentTime m |}.

Definition set_currentTime (t : Z) (m : MediaElement) : MediaElement :=
  {| tag := tag m; src := src m; mime := mime m; paused := paused m; currentTime := t |}.

Definition playMedia : M unit :=
  content ← read mediaPlayerContainer;
  match querySelector_media content with
  | Some media =>
      modify (set_mediaPlayerContainer (with_media content (set_paused false media)));;
      logMessage "Media playback started" "info"
  | None => mret tt
  end.

Definition pauseMedia : M unit :=
  content ← read mediaPlayerContainer;
  match querySelector_media content with
  | Some media =>
      modify (set_mediaPlayerContainer (with_media content (set_paused true media)));;
      logMessage "Media playback paused" "info"
  | None => mret tt
  end.

Definition stopMedia : M unit :=
  content ← read mediaPlayerContainer;
  match querySelector_media content with
  | Some media =>
      modify (set_mediaPlayerContainer (with_media content (set_currentTime 0 (set_paused true media))));;
      logMessage "Media playback stopped" "info"
  | None => mret tt
  end.

Definition requestMedia (fetch : Fetch) (filename : string) : M unit :=
  try_catch
    (logMessage ("Requesting media: " +:+ filename) "info";;
     response ← callRustCommand fetch "request-media" (VObj {["filename" := VStr filename]});
     success ← lift (get response "success");
     if truthy success then
       mediaData ← lift (get response "mediaData");
       loadMediaInPlayer mediaData;;
       showNotification ("Media loaded: " +:+ filename) "success";;
       logMessage ("Media received: " +:+ filename) "success"
     else
       error ← lift (get response "error");
       new_Error (or_else error (VStr "Failed to request media")))
    (fun error =>
       logMessage ("Failed to request media: " +:+ message error) "error";;
       showNotification ("Failed to request media: " +:+ message error) "error").

(** A browser that starts every media element written with [autoplay],
    finds no media element in injected markup, and gives the exception of
    [atob] the message Invalid character. *)
Definition sampleBrowser : Browser :=
  {| autoplayHonoured := fun _ => true;
     injectedMedia := fun _ _ => None;
     atobFailure := fun _ => "Invalid character" |}.

(** A browser that starts no media element by itself, and that finds the
    audio element which a file name may carry after a double quote. *)
Definition strictBrowser : Browser :=
  {| autoplayHonoured := fun _ => false;
     injectedMedia := fun url _ => Some (autoplay_element true TagAudio url EmptyString);
     atobFailure := fun _ => "The string to be decoded is not correctly encoded." |}.

(** ** The application when the page has loaded

    The constructor's values, the page as [index.html] gives it, and the
    first log entry. *)
Definition initialApp : App :=
  {| serverRunning := false;
     loadedFiles := VArr [];
     connectedClients := VArr [];
     serverPortInput := "8080";
     mediaDirectoryInput := EmptyString;
     serverStatus := false;
     loadedFilesContainer := EmptyState;
     connectedClientsContainer := EmptyState;
     mediaPlayerContainer := Placeholder;
     playerControls := false;
     statusLog := [("Application initialized", "info")];
     notifications := [];
     console := [];
     requests := [];
     blobs := [];
     browser := sampleBrowser |}.

(** The playback state that the page shows: a media element that is not
    paused is playing. *)
Definition isPlaying (app : App) : bool :=
  match querySelector_media (mediaPlayerContainer app) with
  | Some media => negb (paused media)
  | None => false
  end.

(** The hosting state: the flag and the two lists of the host. *)
Definition hosting (app : App) : bool * value * value :=
  (serverRunning app, loadedFiles app, connectedClients app).

(** ** Vocabulary of the specification *)

Definition has_dot (s : string) : bool := JS.includes_char "." s.

(** The extension of a file name: what follows its last dot, and the whole
    name when it has no dot. *)
Inductive last_dot_extension : string -> string -> Prop :=
  | lde_dot base e :
      has_dot e = false -> last_dot_extension (base +:+ "." +:+ e) e
  | lde_whole s :
      has_dot s = false -> last_dot_extension s s.

(** The three sets of extensions that the specification documents. *)
Definition videoExtensions : list string :=
  ["mp4"; "avi"; "mkv"; "mov"; "webm"; "wmv"; "flv"; "m4v"].
Definition audioExtensions : list string :=
  ["mp3"; "wav"; "flac"; "ogg"; "aac"; "m4a"; "wma"].
Definition imageExtensions : list string :=
  ["jpg"; "jpeg"; "png"; "gif"; "bmp"; "webp"; "svg"; "tiff"].

(** A file of a recognized kind: its lowercased extension is in the union
    of the three sets. *)
Definition recognized (f : File) : Prop :=
  exists e, last_dot_extension (name f) e
            /\ In (JS.toLowerCase e) (videoExtensions ++ audioExtensions ++ imageExtensions).

(** The extensions that the classifier maps to each kind. *)
Definition classifiedVideo : list string := ["mp4"; "avi"; "mkv"; "mov"; "webm"].
Definition classifiedAudio : list string := ["mp3"; "wav"; "flac"; "ogg"; "aac"].
Definition classifiedImage : list string := ["jpg"; "jpeg"; "png"; "gif"; "bmp"; "webp"].

(** [t] contains [w], letter case apart. *)
Definition contains_ci (t w : string) : Prop :=
  exists pre mid post, t = pre +:+ mid +:+ post /\ JS.toLowerCase mid = w.

(** The two tags of a command result, read on the object that
    [callRustCommand] returns. *)
Definition field (r : value) (k : string) : value :=
  match get r k with
  | Normal v => v
  | Throw _ => VUndefined
  end.

Definition isOk (r : value) : bool := truthy (field r "success").
Definition isErr (r : value) : bool := negb (isOk r).

Definition ErrResult (msg : string) : value :=
  VObj {["success" := VBool false; "error" := VStr msg]}.

(** The result of the command channel and the state it leaves. *)
Definition run {A : Type} (m : M A) (app : App) : Res A * App := m app.

Definition channel_result (fetch : Fetch) (command : string) (params : value) : value :=
  match fst (run (callRustCommand fetch command params) initialApp) with
  | Normal r => r
  | Throw _ => VUndefined
  end.

#[export] Instance File_eq_dec : EqDecision File.
Proof. solve_decision. Defined.

(** An entry of the given severity among log entries or notifications. *)
Definition has_severity (type : string) (entries : list (string * string)) : bool :=
  existsb (fun entry => String.eqb (snd entry) type) entries.

(** ** Sample environments *)

(** The page with a port and the test directory typed in. *)
Definition readyApp : App :=
  {| serverRunning := false;
     loadedFiles := VArr [];
     connectedClients := VArr [];
     serverPortInput := "8080";
     mediaDirectoryInput := "f:\software\test_media";
     serverStatus := false;
     loadedFilesContainer := EmptyState;
     connectedClientsContainer := EmptyState;
     mediaPlayerContainer := Placeholder;
     playerControls := false;
     statusLog := [("Application initialized", "info")];
     notifications := [];
     console := [];
     requests := [];
     blobs := [];
     browser := sampleBrowser |}.

(** A host that serves one file to one client. *)
Definition hostingApp : App :=
  set_serverRunning true
    (set_loadedFiles (VArr [VObj {["name" := VStr "a.mp4"; "size" := VNum 2048]}])
       (set_connectedClients (VArr [VObj {["id" := VStr "client1"]}]) readyApp)).

(** A backend that cannot be reached, one that answers 500, one that
    reports a failure without a message, and one that accepts anything. *)
Definition unreachable : Fetch := fun _ _ => NetworkFailure "Failed to fetch".

Definition serverError : Fetch := fun _ _ => Response 500 (InvalidJson "Unexpected token").

Definition silentFailure : Fetch :=
  fun _ _ => Response 200 (Json (VObj {["success" := VBool false]})).

Definition accepting : Fetch :=
  fun _ _ => Response 200 (Json (VObj {["success" := VBool true]})).

(** A backend that delivers the given media payload. *)
Definition payload (filename data mediaType : string) : value :=
  VObj {["filename" := VStr filename; "data" := VStr data; "mediaType" := VStr mediaType]}.

Definition delivering (mediaData : value) : Fetch :=
  fun _ _ => Response 200
    (Json (VObj {["success" := VBool true; "data" := VObj {["mediaData" := mediaData]}]})).

From Stdlib Require DecimalPos.

(** ** Further handlers of the host *)

Definition set_mediaDirectoryInput (v : string) (app : App) : App :=
  {| serverRunning := serverRunning app;
     loadedFiles := loadedFiles app;
     connectedClients := connectedClients app;
     serverPortInput := serverPortInput app;
     mediaDirectoryInput := v;
     serverStatus := serverStatus app;
     loadedFilesContainer := loadedFilesContainer app;
     connectedClientsContainer := connectedClientsContainer app;
     mediaPlayerContainer := mediaPlayerContainer app;
     playerControls := playerControls app;
     statusLog := statusLog app;
     notifications := notifications app;
     console := console app;
     requests := requests app;
     blobs := blobs app;
     browser := browser app |}.

Definition useTestMedia : M unit :=
  modify (set_mediaDirectoryInput "f:\software\test_media");;
  logMessage "Set directory to test_media folder" "info";;
  showNotification "Test media directory selected" "success".

Definition streamToClients (fetch : Fetch) (filename : string) : M unit :=
  try_catch
    (logMessage ("Streaming " +:+ filename +:+ " to all clients") "info";;
     response ← callRustCommand fetch "stream-media" (VObj {["filename" := VStr filename]});
     success ← lift (get response "success");
     if truthy success then
       showNotification ("Streaming " +:+ filename +:+ " to clients") "success";;
       logMessage ("Started streaming " +:+ filename) "success"
     else
       error ← lift (get response "error");
       new_Error (or_else error (VStr "Failed to stream media")))
    (fun error =>
       logMessage ("Failed to stream media: " +:+ message error) "error";;
       showNotification ("Failed to stream media: " +:+ message error) "error").

(** ** Further vocabulary *)

(** A path separator. *)
Definition is_separator (c : ascii) : bool := Ascii.eqb c "\" || Ascii.eqb c "/".

Definition has_separator (s : string) : bool :=
  JS.includes_char "\" s || JS.includes_char "/" s.

(** [s] ends with [w]. *)
Definition ends_with (s w : string) : Prop := exists pre, s = pre +:+ w.

(** [p] is the beginning of [s]. *)
Definition starts_with (s p : string) : Prop := exists rest, s = p +:+ rest.

(** What a call leaves of the page apart from the log, the notifications,
    the console and the record of requests. *)
Definition screen (app : App)
  : bool * value * value * string * string * bool * ListView * ListView
    * PlayerContent * bool * list Blob :=
  (serverRunning app, loadedFiles app, connectedClients app, serverPortInput app,
   mediaDirectoryInput app, serverStatus app, loadedFilesContainer app,
   connectedClientsContainer app, mediaPlayerContainer app, playerControls app,
   blobs app).

(** An entry of a listing as the backend documents it: an object with a
    name that is a string and a size that is a number. *)
Definition media_entry (e : value) : Prop :=
  exists (o : gmap string value) (n : string) (z : Z),
    e = VObj o /\ o !! "name" = Some (VStr n) /\ o !! "size" = Some (VNum z).

(** A pattern every match of which consumes a separator. *)
Definition separator_item (it : item) : bool :=
  match it with
  | IChar c => is_separator c
  | IRange _ _ => false
  end.

Fixpoint consumes_separator (r : regex) : bool :=
  match r with
  | Char c => is_separator c
  | Class negated items => negb negated && forallb separator_item items
  | Seq r1 r2 => consumes_separator r1 || consumes_separator r2
  | Alt r1 r2 => consumes_separator r1 && consumes_separator r2
  | _ => false
  end.

(** One of the two quote characters. *)
Definition is_quote (c : ascii) : bool :=
  Ascii.eqb c (ascii_of_N 34) || Ascii.eqb c "'".

(** A string without its first character when that is a quote, and without
    its last character when that is a quote. *)
Definition strip_first (s : list ascii) : list ascii :=
  match s with
  | c :: r => if is_quote c then r else s
  | [] => []
  end.

Definition strip_last (s : list ascii) : list ascii :=
  match rev s with
  | c :: r => if is_quote c then rev r else s
  | [] => []
  end.

Definition strip_quotes (s : string) : string :=
  string_of_list_ascii (strip_last (strip_first (list_ascii_of_string s))).

(** ** The rest of the application state

    The fields of [MediaSyncApp] and the parts of the page that the client
    role and the file pickers use, beside the state [App] of the handlers
    above. *)

(** A file of a picker: [path] is the full path that some browsers add. *)
Record PickedFile := mkPicked { file : File; path : option string }.

Record Page := mkPage {
  base : App;
  clientConnected : bool;
  availableFiles : value;
  selectedFiles : option (list PickedFile);
  serverAddressInput : string;
  clientIdInput : string;
  clientStatus : bool;
  availableFilesContainer : ListView;
  mediaDirectoryPlaceholder : string;
  mediaDirectoryFocused : bool
}.

Definition set_base (v : App) (p : Page) : Page :=
  {| base := v;
     clientConnected := clientConnected p;
     availableFiles := availableFiles p;
     selectedFiles := selectedFiles p;
     serverAddressInput := serverAddressInput p;
     clientIdInput := clientIdInput p;
     clientStatus := clientStatus p;
     availableFilesContainer := availableFilesContainer p;
     mediaDirectoryPlaceholder := mediaDirectoryPlaceholder p;
     mediaDirectoryFocused := mediaDirectoryFocused p |}.

Definition set_clientConnected (v : bool) (p : Page) : Page :=
  {| base := base p;
     clientConnected := v;
     availableFiles := availableFiles p;
     selectedFiles := selectedFiles p;
     serverAddressInput := serverAddressInput p;
     clientIdInput := clientIdInput p;
     clientStatus := clientStatus p;
     availableFilesContainer := availableFilesContainer p;
     mediaDirectoryPlaceholder := mediaDirectoryPlaceholder p;
     mediaDirectoryFocused := mediaDirectoryFocused p |}.

Definition set_availableFiles (v : value) (p : Page) : Page :=
  {| base := base p;
     clientConnected := clientConnected p;
     availableFiles := v;
     selectedFiles := selectedFiles p;
     serverAddressInput := serverAddressInput p;
     clientIdInput := clientIdInput p;
     clientStatus := clientStatus p;
     availableFilesContainer := availableFilesContainer p;
     mediaDirectoryPlaceholder := mediaDirectoryPlaceholder p;
     mediaDirectoryFocused := mediaDirectoryFocused p |}.

Definition set_selectedFiles (v : option (list PickedFile)) (p : Page) : Page :=
  {| base := base p;
     clientConnected := clientConnected p;
     availableFiles := availableFiles p;
     selectedFiles := v;
     serverAddressInput := serverAddressInput p;
     clientIdInput := clientIdInput p;
     clientStatus := clientStatus p;
     availableFilesContainer := availableFilesContainer p;
     mediaDirectoryPlaceholder := mediaDirectoryPlaceholder p;
     mediaDirectoryFocused := mediaDirectoryFocused p |}.

Definition set_clientStatus (v : bool) (p : Page) : Page :=
  {| base := base p;
     clientConnected := clientConnected p;
     availableFiles := availableFiles p;
     selectedFiles := selectedFiles p;
     serverAddressInput := serverAddressInput p;
     clientIdInput := clientIdInput p;
     clientStatus := v;
     availableFilesContainer := availableFilesContainer p;
     mediaDirectoryPlaceholder := mediaDirectoryPlaceholder p;
     mediaDirectoryFocused := mediaDirectoryFocused p |}.

Definition set_availableFilesContainer (v : ListView) (p : Page) : Page :=
  {| base := base p;
     clientConnected := clientConnected p;
     availableFiles := availableFiles p;
     selectedFiles := selectedFiles p;
     serverAddressInput := serverAddressInput p;
     clientIdInput := clientIdInput p;
     clientStatus := clientStatus p;
     availableFilesContainer := v;
     mediaDirectoryPlaceholder := mediaDirectoryPlaceholder p;
     mediaDirectoryFocused := mediaDirectoryFocused p |}.

Definition set_mediaDirectoryPlaceholder (v : string) (p : Page) : Page :=
  {| base := base p;
     clientConnected := clientConnected p;
     availableFiles := availableFiles p;
     selectedFiles := selectedFiles p;
     serverAddressInput := serverAddressInput p;
     clientIdInput := clientIdInput p;
     clientStatus := clientStatus p;
     availableFilesContainer := availableFilesContainer p;
     mediaDirectoryPlaceholder := v;
     mediaDirectoryFocused := mediaDirectoryFocused p |}.

Definition set_mediaDirectoryFocused (v : bool) (p : Page) : Page :=
  {| base := base p;
     clientConnected := clientConnected p;
     availableFiles := availableFiles p;
     selectedFiles := selectedFiles p;
     serverAddressInput := serverAddressInput p;
     clientIdInput := clientIdInput p;
     clientStatus := clientStatus p;
     availableFilesContainer := availableFilesContainer p;
     mediaDirectoryPlaceholder := mediaDirectoryPlaceholder p;
     mediaDirectoryFocused := v |}.

(** The monad of the handlers that use the whole state. *)
Definition MPage (A : Type) : Type := Page -> Res A * Page.

#[export] Instance MPage_ret : MRet MPage := fun A a p => (Normal a, p).

#[export] Instance MPage_bind : MBind MPage := fun A B f m p =>
  match m p with
  | (Normal a, p') => f a p'
  | (Throw e, p') => (Throw e, p')
  end.

(** A handler of the first part, run on the whole state. *)
Definition host {A : Type} (m : M A) : MPage A :=
  fun p => let '(r, app) := m (base p) in (r, set_base app p).

Definition throw_page {A : Type} (e : Exn) : MPage A := fun p => (Throw e, p).

Definition try_catch_page {A : Type} (body : MPage A) (handler : Exn -> MPage A) : MPage A :=
  fun p =>
    match body p with
    | (Normal a, p') => (Normal a, p')
    | (Throw e, p') => handler e p'
    end.

Definition lift_page {A : Type} (r : Res A) : MPage A := fun p => (r, p).

Definition read_page {A : Type} (f : Page -> A) : MPage A := fun p => (Normal (f p), p).

Definition modify_page (f : Page -> Page) : MPage unit := fun p => (Normal tt, f p).

Definition new_Error_page {A : Type} (x : value) : MPage A :=
  msg ← lift_page (ToString x);
  throw_page (Error msg).

(** ** Peer controller *)

(** [updateClientStatus(connected)]: the dot, the text and the two buttons
    follow [connected]. *)
Definition updateClientStatus (connected : bool) : MPage unit :=
  modify_page (set_clientStatus connected).

(** [updateAvailableFiles()]: an item shows the element itself, so that no
    property of it is read; the template converts it to a string. *)
Fixpoint render_names (l : list value) : Res unit :=
  match l with
  | [] => Normal tt
  | x :: l' =>
      match ToString x with
      | Throw e => Throw e
      | Normal _ => render_names l'
      end
  end.

Definition updateAvailableFiles : MPage unit :=
  list ← read_page availableFiles;
  len ← lift_page (get list "length");
  match len with
  | VNum 0 => modify_page (set_availableFilesContainer EmptyState)
  | _ =>
      match list with
      | VArr elems =>
          lift_page (render_names elems);;
          modify_page (set_availableFilesContainer (Items elems))
      | _ => throw_page (TypeError "this.availableFiles.map is not a function")
      end
  end.

Definition connectClient (fetch : Fetch) : MPage unit :=
  serverAddress ← read_page serverAddressInput;
  clientId ← read_page clientIdInput;
  if String.eqb serverAddress EmptyString || String.eqb clientId EmptyString then
    host (showNotification "Please fill in server address and client ID" "error")
  else
    try_catch_page
      (host (logMessage ("Connecting to server at " +:+ serverAddress +:+ " as "
                         +:+ clientId) "info");;
       response ← host (callRustCommand fetch "connect-client"
                          (VObj {["serverAddress" := VStr serverAddress;
                                  "clientId" := VStr clientId]}));
       success ← lift_page (get response "success");
       if truthy success then
         modify_page (set_clientConnected true);;
         updateClientStatus true;;
         files ← lift_page (get response "files");
         modify_page (set_availableFiles (or_else files (VArr [])));;
         updateAvailableFiles;;
         host (showNotification "Connected to server" "success");;
         host (logMessage "Connected to server successfully" "success")
       else
         error ← lift_page (get response "error");
         new_Error_page (or_else error (VStr "Failed to connect to server")))
      (fun error =>
         host (logMessage ("Failed to connect: " +:+ message error) "error");;
         host (showNotification ("Failed to connect: " +:+ message error) "error")).

Definition disconnectClient (fetch : Fetch) : MPage unit :=
  try_catch_page
    (host (logMessage "Disconnecting from server..." "info");;
     response ← host (callRustCommand fetch "disconnect-client" (VObj ∅));
     success ← lift_page (get response "success");
     if truthy success then
       modify_page (set_clientConnected false);;
       updateClientStatus false;;
       modify_page (set_availableFiles (VArr []));;
       updateAvailableFiles;;
       host clearMediaPlayer;;
       host (showNotification "Disconnected from server" "info");;
       host (logMessage "Disconnected from server" "info")
     else
       error ← lift_page (get response "error");
       new_Error_page (or_else error (VStr "Failed to disconnect")))
    (fun error =>
       host (logMessage ("Failed to disconnect: " +:+ message error) "error");;
       host (showNotification ("Failed to disconnect: " +:+ message error) "error")).

(** The state of the client role. *)
Definition peer (p : Page) : bool * value * bool * ListView :=
  (clientConnected p, availableFiles p, clientStatus p, availableFilesContainer p).

(** The whole page when it has loaded, with the inputs as [index.html]
    gives them. *)
Definition initialPage : Page :=
  {| base := initialApp;
     clientConnected := false;
     availableFiles := VArr [];
     selectedFiles := None;
     serverAddressInput := "127.0.0.1:8080";
     clientIdInput := "client1";
     clientStatus := false;
     availableFilesContainer := EmptyState;
     mediaDirectoryPlaceholder := "Enter path or select files/folder...";
     mediaDirectoryFocused := false |}.

(** ** File pickers *)

(** [filterMediaFiles] on the files of a picker. *)
Definition filterPicked (files : list PickedFile) : list PickedFile :=
  List.filter (fun f => JS.includes mediaExtensions (extension (name (file f)))) files.

(** [s.split(/[\/\\]/)]: [s.split] at every character of a class. *)
Fixpoint split_on (sep : ascii -> bool) (s : string) : list string :=
  match s with
  | EmptyString => [EmptyString]
  | String c s' =>
      if sep c then EmptyString :: split_on sep s'
      else match split_on sep s' with
           | h :: t => String c h :: t
           | [] => [String c EmptyString]
           end
  end.

Definition showFileSelectionWarning (mediaFiles : list PickedFile) : MPage unit :=
  let fileNames := join ", " (map (fun f => name (file f)) mediaFiles) in
  host (logMessage ("Files selected: " +:+ fileNames) "info");;
  host (logMessage
          "Cannot automatically determine directory path from individual file selection"
          "warning");;
  host (logMessage
          "Due to browser security restrictions, please manually enter the directory path"
          "info");;
  host (logMessage "Options:" "info");;
  host (logMessage ("1. Use " +:+ JS.dquote +:+ "Select Folder" +:+ JS.dquote
                    +:+ " button to choose an entire directory, or") "info");;
  host (logMessage "2. Manually type the directory path where your files are located"
                   "info");;
  host (logMessage "   Example: C:\Users\YourName\OneDrive\Pictures" "info");;
  host (showNotification "Please enter the directory path manually" "warning");;
  host (modify (set_mediaDirectoryInput EmptyString));;
  modify_page (set_mediaDirectoryPlaceholder
                 "Enter full directory path (e.g., C:\Users\YourName\Pictures)");;
  modify_page (set_mediaDirectoryFocused true).

Definition handleDirectorySelection (files : list PickedFile) : MPage unit :=
  try_catch_page
    (let filePaths :=
       map (fun f => if String.eqb (webkitRelativePath (file f)) EmptyString
                     then name (file f) else webkitRelativePath (file f)) files in
     match filePaths with
     | [] => mret tt
     | firstPath :: _ =>
         let pathParts := JS.split "/" firstPath in
         if (1 <? length pathParts)%nat then
           let rootDir := hd EmptyString pathParts in
           host (modify (set_mediaDirectoryInput rootDir));;
           host (logMessage ("Selected directory: " +:+ rootDir +:+ " with "
                             +:+ JS.string_of_nat (length files) +:+ " files") "info");;
           host (showNotification ("Selected " +:+ JS.string_of_nat (length files)
                                   +:+ " files from " +:+ rootDir) "success");;
           let mediaFiles := filterPicked files in
           host (logMessage ("Found " +:+ JS.string_of_nat (length mediaFiles)
                             +:+ " media files out of "
                             +:+ JS.string_of_nat (length files) +:+ " total files") "info");;
           let fileNames := join ", " (map (fun f => name (file f)) (take 5 mediaFiles)) in
           host (logMessage ("Media files: " +:+ fileNames
                             +:+ (if (5 <? length mediaFiles)%nat then "..." else EmptyString))
                            "info")
         else
           host (logMessage "No directory structure detected in file selection" "warning");;
           host (logMessage "Please type the directory path manually" "info");;
           host (modify (set_mediaDirectoryInput EmptyString));;
           modify_page (set_mediaDirectoryPlaceholder
                          "Enter directory path manually (e.g., f:\software\test_media)");;
           host (showNotification "Please enter directory path manually" "warning")
     end)
    (fun error =>
       host (logMessage ("Error handling directory selection: " +:+ message error) "error")).

Definition handleIndividualFiles (files : list PickedFile) : MPage unit :=
  try_catch_page
    (let mediaFiles := filterPicked files in
     match mediaFiles with
     | [] =>
         host (logMessage "No media files found in selection" "warning");;
         host (showNotification "No media files found in selection" "warning")
     | firstFile :: _ =>
         let relative := webkitRelativePath (file firstFile) in
         let relativeParts := JS.split "/" relative in
         if negb (String.eqb relative EmptyString) && (1 <? length relativeParts)%nat then
           let directoryName := hd EmptyString relativeParts in
           host (modify (set_mediaDirectoryInput directoryName));;
           host (logMessage ("Extracted directory from path: " +:+ directoryName) "info");;
           host (showNotification ("Selected " +:+ JS.string_of_nat (length mediaFiles)
                                   +:+ " files from " +:+ directoryName) "success")
         else
           let fullParts :=
             match path firstFile with
             | Some full => if String.eqb full EmptyString then []
                            else split_on is_separator full
             | None => []
             end in
           if (1 <? length fullParts)%nat then
             let directoryPath := join "\" (removelast fullParts) in
             host (modify (set_mediaDirectoryInput directoryPath));;
             host (logMessage ("Extracted directory from file path: " +:+ directoryPath)
                              "info");;
             host (showNotification ("Selected " +:+ JS.string_of_nat (length mediaFiles)
                                     +:+ " files from directory") "success")
           else showFileSelectionWarning mediaFiles
     end)
    (fun error =>
       host (logMessage ("Error handling individual files: " +:+ message error) "error")).

(** [handleFileSelection(event, selectionType)], with the files of
    [event.target]. *)
Definition handleFileSelection (files : list PickedFile) (selectionType : string) : MPage unit :=
  try_catch_page
    (host (logMessage ("File selection (" +:+ selectionType +:+ ") triggered with "
                       +:+ JS.string_of_nat (length files) +:+ " files") "info");;
     match files with
     | [] => host (logMessage "No files selected" "warning")
     | _ =>
         modify_page (set_selectedFiles (Some files));;
         if String.eqb selectionType "directory" then handleDirectorySelection files
         else handleIndividualFiles files
     end)
    (fun error =>
       host (logMessage ("Error handling file selection: " +:+ message error) "error");;
       host (showNotification "Error processing selected files" "error")).

(** A path with every forward slash written as a backslash. *)
Fixpoint backslashed (s : string) : string :=
  match s with
  | EmptyString => EmptyString
  | String c s' => String (if is_separator c then "\"%char else c) (backslashed s')
  end.

(** * Properties *)

(** ** Strings *)

Lemma split_nonempty sep s : JS.split sep s <> [].
Proof.
  destruct s as [|c s]; simpl; [discriminate|].
  destruct (Ascii.eqb c sep); [discriminate|].
  destruct (JS.split sep s); discriminate.
Qed.

Lemma split_no_sep sep s :
  JS.includes_char sep s = false -> JS.split sep s = [s].
Proof.
  induction s as [|c s IH]; simpl; [reflexivity|].
  intros H. apply orb_false_iff in H as [Hc Hs].
  rewrite Hc, (IH Hs). reflexivity.
Qed.

Lemma split_append sep a b :
  exists l, l <> [] /\ JS.split sep (a +:+ String sep b) = l ++ JS.split sep b.
Proof.
  induction a as [|c a (l & Hl & IH)]; simpl.
  - exists [EmptyString]. split; [discriminate|].
    rewrite Ascii.eqb_refl. reflexivity.
  - destruct (Ascii.eqb c sep).
    + exists (EmptyString :: l). split; [discriminate|]. rewrite IH. reflexivity.
    + rewrite IH. destruct l as [|h t]; [contradiction|].
      exists (String c h :: t). split; [discriminate|]. reflexivity.
Qed.

Lemma pop_split_extension s e :
  last_dot_extension s e -> JS.pop (JS.split "." s) = Some e.
Proof.
  unfold JS.pop. intros [base e' He|s' Hs].
  - change ("." +:+ e') with (String "." e').
    destruct (split_append "." base e') as (l & _ & ->).
    rewrite (split_no_sep _ _ He). apply last_snoc.
  - rewrite (split_no_sep _ _ Hs). reflexivity.
Qed.

Lemma extension_spec s e :
  last_dot_extension s e -> extension s = JS.toLowerCase e.
Proof. intros H. unfold extension. rewrite (pop_split_extension _ _ H). reflexivity. Qed.

Lemma last_dot_extension_unique s e1 e2 :
  last_dot_extension s e1 -> last_dot_extension s e2 -> e1 = e2.
Proof.
  intros H1 H2. apply pop_split_extension in H1, H2. congruence.
Qed.

Lemma includes_In l x : JS.includes l x = true <-> In x l.
Proof.
  unfold JS.includes. rewrite existsb_exists. split.
  - intros (y & Hy & Heq). apply String.eqb_eq in Heq. subst. exact Hy.
  - intros H. exists x. split; [exact H | apply String.eqb_refl].
Qed.

Lemma includes_not_In l x : JS.includes l x = false <-> ~ In x l.
Proof.
  rewrite <- includes_In. destruct (JS.includes l x); split; congruence.
Qed.

(** ** Media classifier *)

Lemma mediaExtensions_union :
  mediaExtensions = videoExtensions ++ audioExtensions ++ imageExtensions.
Proof. reflexivity. Qed.

Lemma kept_iff_recognized f :
  JS.includes mediaExtensions (extension (name f)) = true <-> recognized f.
Proof.
  rewrite includes_In, mediaExtensions_union. unfold recognized. split.
  - intros H. destruct (has_dot (name f)) eqn:Hdot.
    + assert (Hsplit : exists base e, name f = base +:+ "." +:+ e /\ has_dot e = false).
      { clear H. unfold has_dot in *. induction (name f) as [|c s IH]; [discriminate|].
        simpl in Hdot. destruct (JS.includes_char "." s) eqn:Hs.
        - destruct (IH eq_refl) as (base & e & -> & He).
          exists (String c base), e. split; [reflexivity | exact He].
        - rewrite orb_false_r in Hdot. apply Ascii.eqb_eq in Hdot. subst c.
          exists EmptyString, s. split; [reflexivity | exact Hs]. }
      destruct Hsplit as (base & e & Hname & He).
      exists e. assert (Hlde : last_dot_extension (name f) e).
      { rewrite Hname. constructor. exact He. }
      split; [exact Hlde|]. rewrite <- (extension_spec _ _ Hlde). exact H.
    + exists (name f). assert (Hlde : last_dot_extension (name f) (name f)).
      { apply lde_whole. exact Hdot. }
      split; [exact Hlde|]. rewrite <- (extension_spec _ _ Hlde). exact H.
  - intros (e & Hlde & Hin). rewrite (extension_spec _ _ Hlde). exact Hin.
Qed.

(** C2. For every batch of files, [filterMediaFiles] returns a subsequence
    of the batch (the order is kept), which contains exactly the files whose
    lowercased extension is in the union of the video, audio and image
    sets, each as many times as the batch has it. *)
Theorem filterMediaFiles_exact (files : list File) :
  sublist (filterMediaFiles files) files
  /\ (forall f, In f (filterMediaFiles files) <-> In f files /\ recognized f)
  /\ (forall f, recognized f ->
        count_occ File_eq_dec (filterMediaFiles files) f = count_occ File_eq_dec files f).
Proof.
  unfold filterMediaFiles. split; [|split].
  - induction files as [|f files IH]; cbn [List.filter]; [constructor|].
    destruct (JS.includes mediaExtensions (extension (name f))); constructor; exact IH.
  - intros f. rewrite filter_In, kept_iff_recognized. reflexivity.
  - intros f Hf. apply kept_iff_recognized in Hf.
    induction files as [|g files IH]; cbn [List.filter count_occ]; [reflexivity|].
    destruct (File_eq_dec g f) as [->|Hne].
    + rewrite Hf. cbn [count_occ]. destruct (File_eq_dec f f); congruence.
    + destruct (JS.includes mediaExtensions (extension (name g)));
        cbn [count_occ]; [|exact IH].
      destruct (File_eq_dec g f); congruence.
Qed.

Lemma filterMediaFiles_exact_witness :
  let a := mkFile "a.mp4" 10 EmptyString in
  let b := mkFile "b.txt" 20 EmptyString in
  let c := mkFile "c.JPG" 30 EmptyString in
  recognized a
  /\ filterMediaFiles [a; b; c; a] = [a; c; a]
  /\ count_occ File_eq_dec (filterMediaFiles [a; b; c; a]) a = 2.
Proof.
  intros a b c.
  assert (H : recognized a).
  { exists "mp4". split; [apply (lde_dot "a" "mp4"); reflexivity | simpl; tauto]. }
  split; [exact H|]. split; [reflexivity|].
  rewrite (proj2 (proj2 (filterMediaFiles_exact [a; b; c; a])) a H). reflexivity.
Defined.

(** C1, as the code has it. For every file name, [getMediaTypeFromFilename]
    returns video when the lowercased extension is one of mp4, avi, mkv, mov,
    webm; audio for mp3, wav, flac, ogg, aac; image for jpg, jpeg, png, gif,
    bmp, webp; and unknown for every other extension. *)
Theorem getMediaTypeFromFilename_kinds (filename e : string) :
  last_dot_extension filename e ->
  (In (JS.toLowerCase e) classifiedVideo -> getMediaTypeFromFilename filename = "video")
  /\ (In (JS.toLowerCase e) classifiedAudio -> getMediaTypeFromFilename filename = "audio")
  /\ (In (JS.toLowerCase e) classifiedImage -> getMediaTypeFromFilename filename = "image")
  /\ (~ In (JS.toLowerCase e) (classifiedVideo ++ classifiedAudio ++ classifiedImage) ->
      getMediaTypeFromFilename filename = "unknown").
Proof.
  intros Hlde. unfold getMediaTypeFromFilename.
  rewrite (extension_spec _ _ Hlde). repeat split.
  - intros H. apply includes_In in H. unfold classifiedVideo in H. rewrite H. reflexivity.
  - intros H. simpl in H. intuition (subst; match goal with Heq : _ = JS.toLowerCase e |- _ =>
      rewrite <- Heq end; reflexivity).
  - intros H. simpl in H. intuition (subst; match goal with Heq : _ = JS.toLowerCase e |- _ =>
      rewrite <- Heq end; reflexivity).
  - intros H. rewrite !in_app_iff in H.
    assert (Hv : JS.includes classifiedVideo (JS.toLowerCase e) = false)
      by (apply includes_not_In; tauto).
    assert (Ha : JS.includes classifiedAudio (JS.toLowerCase e) = false)
      by (apply includes_not_In; tauto).
    assert (Hi : JS.includes classifiedImage (JS.toLowerCase e) = false)
      by (apply includes_not_In; tauto).
    unfold classifiedVideo, classifiedAudio, classifiedImage in *.
    rewrite Hv, Ha, Hi. reflexivity.
Qed.

Lemma getMediaTypeFromFilename_kinds_witness :
  last_dot_extension "Holiday.Clip.MKV" "MKV"
  /\ getMediaTypeFromFilename "Holiday.Clip.MKV" = "video".
Proof.
  assert (H : last_dot_extension "Holiday.Clip.MKV" "MKV")
    by (apply (lde_dot "Holiday.Clip" "MKV"); reflexivity).
  split; [exact H|].
  apply (getMediaTypeFromFilename_kinds "Holiday.Clip.MKV" "MKV" H).
  simpl. auto.
Defined.

(** C1, as the specification states it, fails: wmv is in the documented
    video set, and a file with that extension is classified unknown. *)
Lemma getMediaTypeFromFilename_wmv_unknown :
  last_dot_extension "clip.wmv" "wmv"
  /\ In (JS.toLowerCase "wmv") videoExtensions
  /\ getMediaTypeFromFilename "clip.wmv" = "unknown"
  /\ getMediaTypeFromFilename "clip.wmv" <> "video".
Proof.
  split; [apply (lde_dot "clip" "wmv"); reflexivity|].
  split; [simpl; tauto|].
  split; [reflexivity | discriminate].
Qed.

(** C10. A file name without a dot is its own extension: the classifier and
    the filter decide on the whole lowercased name.  The classifier gives the
    kind whose extension set contains that name, and unknown when none does;
    the filter keeps the file exactly when that name is one of the media
    extensions, alone or within a batch.  So a file named mp4 is of kind video
    and the filter keeps it. *)
Theorem dotless_name_is_its_extension (f : File) :
  has_dot (name f) = false ->
  let whole := JS.toLowerCase (name f) in
  (In whole classifiedVideo -> getMediaTypeFromFilename (name f) = "video")
  /\ (In whole classifiedAudio -> getMediaTypeFromFilename (name f) = "audio")
  /\ (In whole classifiedImage -> getMediaTypeFromFilename (name f) = "image")
  /\ (~ In whole (classifiedVideo ++ classifiedAudio ++ classifiedImage) ->
      getMediaTypeFromFilename (name f) = "unknown")
  /\ (In whole mediaExtensions -> filterMediaFiles [f] = [f])
  /\ (~ In whole mediaExtensions -> filterMediaFiles [f] = [])
  /\ (forall files, In f (filterMediaFiles files) <-> In f files /\ In whole mediaExtensions)
  /\ (whole = "mp4" ->
      getMediaTypeFromFilename (name f) = "video" /\ filterMediaFiles [f] = [f]).
Proof.
  intros Hdot whole.
  assert (Hext : extension (name f) = whole)
    by (apply extension_spec, lde_whole, Hdot).
  assert (Hkeep : In whole mediaExtensions -> filterMediaFiles [f] = [f]).
  { intros H. apply includes_In in H. unfold filterMediaFiles. cbn [List.filter].
    rewrite Hext, H. reflexivity. }
  assert (Hvideo : In whole classifiedVideo -> getMediaTypeFromFilename (name f) = "video").
  { intros H. apply includes_In in H. unfold getMediaTypeFromFilename.
    rewrite Hext. unfold classifiedVideo in H. rewrite H. reflexivity. }
  split; [exact Hvideo|]. split; [|split; [|split; [|split; [|split; [|split]]]]].
  - intros H. unfold getMediaTypeFromFilename. rewrite Hext.
    simpl in H. intuition (subst; match goal with Heq : _ = whole |- _ =>
      rewrite <- Heq end; reflexivity).
  - intros H. unfold getMediaTypeFromFilename. rewrite Hext.
    simpl in H. intuition (subst; match goal with Heq : _ = whole |- _ =>
      rewrite <- Heq end; reflexivity).
  - intros H. rewrite !in_app_iff in H.
    assert (Hv : JS.includes classifiedVideo whole = false)
      by (apply includes_not_In; tauto).
    assert (Ha : JS.includes classifiedAudio whole = false)
      by (apply includes_not_In; tauto).
    assert (Hi : JS.includes classifiedImage whole = false)
      by (apply includes_not_In; tauto).
    unfold getMediaTypeFromFilename. rewrite Hext.
    unfold classifiedVideo, classifiedAudio, classifiedImage in *.
    rewrite Hv, Ha, Hi. reflexivity.
  - exact Hkeep.
  - intros H. apply includes_not_In in H. unfold filterMediaFiles. cbn [List.filter].
    rewrite Hext, H. reflexivity.
  - intros files. unfold filterMediaFiles. rewrite filter_In, Hext, includes_In.
    reflexivity.
  - intros Hmp4. split; [apply Hvideo | apply Hkeep]; rewrite Hmp4; simpl; tauto.
Qed.

Lemma dotless_name_is_its_extension_witness :
  has_dot "mp4" = false
  /\ getMediaTypeFromFilename "mp4" = "video"
  /\ filterMediaFiles [mkFile "mp4" 1024 EmptyString] = [mkFile "mp4" 1024 EmptyString]
  /\ has_dot "README" = false
  /\ getMediaTypeFromFilename "README" = "unknown"
  /\ filterMediaFiles [mkFile "README" 12 EmptyString] = [].
Proof.
  split; [reflexivity|].
  destruct (dotless_name_is_its_extension (mkFile "mp4" 1024 EmptyString) eq_refl)
    as (_ & _ & _ & _ & _ & _ & _ & Hmp4).
  destruct (Hmp4 eq_refl) as [Hkind Hkept].
  split; [exact Hkind|]. split; [exact Hkept|]. split; [reflexivity|].
  destruct (dotless_name_is_its_extension (mkFile "README" 12 EmptyString) eq_refl)
    as (_ & _ & _ & Hunknown & _ & Hdropped & _).
  split; [apply Hunknown | apply Hdropped]; vm_compute;
    intros H; repeat destruct H as [H|H]; try discriminate H; exact H.
Defined.

(** ** Path validator *)

(** C3. The five documented verdicts of the path validator; the second
    path is accepted with single and with doubled backslashes alike. *)
Theorem isValidDirectoryPath_vectors :
  isValidDirectoryPath EmptyString = false
  /\ isValidDirectoryPath "f:\software\test_media" = true
  /\ isValidDirectoryPath "f:\\software\\test_media" = true
  /\ isValidDirectoryPath "3 media files selected" = false
  /\ isValidDirectoryPath "./media" = true
  /\ isValidDirectoryPath "abc" = false.
Proof. repeat split; vm_compute; reflexivity. Qed.

Lemma list_ascii_of_string_app a b :
  list_ascii_of_string (a +:+ b) = list_ascii_of_string a ++ list_ascii_of_string b.
Proof. induction a as [|c a IH]; simpl; [reflexivity | now rewrite IH]. Qed.

Lemma length_list_ascii_of_string s :
  length (list_ascii_of_string s) = String.length s.
Proof. induction s as [|c s IH]; simpl; [reflexivity | now rewrite IH]. Qed.

(** Under the [i] flag a character matches its lower-case form. *)
Lemma canon_toLowerCase x : canon (JS.toLowerCase_char x) = canon x.
Proof. destruct x as [[] [] [] [] [] [] [] []]; vm_compute; reflexivity. Qed.

(** A literal pattern with the [i] flag matches where the input has the
    word, letter case apart. *)
Lemma ends_lit_ci mid : forall pre post,
  In (length pre + String.length mid)
     (ends true (lit (JS.toLowerCase mid))
           (pre ++ list_ascii_of_string mid ++ post) (length pre)).
Proof.
  induction mid as [|x mid IH]; intros pre post.
  - simpl. left. lia.
  - cbn [JS.toLowerCase lit ends list_ascii_of_string String.length].
    unfold one. cbn [app]. rewrite list_lookup_middle by reflexivity.
    unfold char_matches. rewrite canon_toLowerCase, Ascii.eqb_refl.
    cbn [flat_map]. rewrite app_nil_r.
    specialize (IH (pre ++ [x]) post).
    rewrite <- app_assoc, length_app in IH. cbn [app length] in IH.
    replace (length pre + S (String.length mid)) with (length pre + 1 + String.length mid) by lia.
    replace (S (length pre)) with (length pre + 1) by lia.
    exact IH.
Qed.

Lemma test_lit_ci t w :
  contains_ci t w -> test (mkRegExp (lit w) true) t = true.
Proof.
  intros (pre & mid & post & -> & <-). unfold test.
  apply existsb_exists. exists (length (list_ascii_of_string pre)). split.
  - apply in_seq. rewrite !list_ascii_of_string_app, !length_app. lia.
  - unfold matches_at. cbn [ignoreCase pattern].
    rewrite !list_ascii_of_string_app.
    pose proof (ends_lit_ci mid (list_ascii_of_string pre) (list_ascii_of_string post)) as H.
    destruct (ends _ _ _ _); [destruct H | reflexivity].
Qed.

(** C4. Whatever else a path looks like, when its trimmed form is shorter
    than 10 and contains the word selected, letter case apart, the validator
    rejects it: the display-text patterns are tried before the path shapes. *)
Theorem isValidDirectoryPath_short_selected (path : string) :
  String.length (JS.trim path) < 10 ->
  contains_ci (JS.trim path) "selected" ->
  isValidDirectoryPath path = false.
Proof.
  intros Hlen Hsel. unfold isValidDirectoryPath.
  destruct (String.eqb path EmptyString); [reflexivity|].
  assert (Hrej : existsb (fun pattern => test pattern (JS.trim path)
                                        && (String.length (JS.trim path) <? 10)%nat)
                         invalidPatterns = true).
  { apply existsb_exists. exists (mkRegExp (lit "selected") true). split.
    - unfold invalidPatterns. simpl. tauto.
    - rewrite (test_lit_ci _ _ Hsel). apply Nat.ltb_lt in Hlen. rewrite Hlen. reflexivity. }
  rewrite Hrej. reflexivity.
Qed.

Lemma isValidDirectoryPath_short_selected_witness :
  String.length (JS.trim " /Selected ") < 10
  /\ contains_ci (JS.trim " /Selected ") "selected"
  /\ JS.includes_char "/" (JS.trim " /Selected ") = true
  /\ test (mkRegExp (cat [Bol; Char "/"; Class true [IChar "/"]]) false)
          (JS.trim " /Selected ") = true
  /\ isValidDirectoryPath " /Selected " = false.
Proof.
  assert (Hlen : String.length (JS.trim " /Selected ") < 10) by (vm_compute; lia).
  assert (Hsel : contains_ci (JS.trim " /Selected ") "selected")
    by (exists "/", "Selected", EmptyString; split; reflexivity).
  split; [exact Hlen|]. split; [exact Hsel|].
  split; [reflexivity|]. split; [vm_compute; reflexivity|].
  exact (isValidDirectoryPath_short_selected " /Selected " Hlen Hsel).
Defined.

(** ** Command channel *)

#[local] Arguments get : simpl never.
#[local] Arguments truthy : simpl never.
#[local] Arguments ToString : simpl never.
#[local] Arguments String.append : simpl never.
#[local] Arguments String.eqb : simpl never.
#[local] Arguments cleanDirectory : simpl never.
#[local] Arguments isValidDirectoryPath : simpl never.
#[local] Arguments parseInt : simpl never.
#[local] Arguments stringify_payload : simpl never.
#[local] Arguments JS.string_of_nat : simpl never.
#[local] Arguments atob : simpl never.
#[local] Arguments getMimeType : simpl never.

Ltac unfold_monad :=
  unfold new_Error, run, try_catch, throw, lift, read, modify, mbind, mret, M_bind, M_ret in *.

Ltac unfold_ui :=
  unfold logMessage, showNotification, updateServerStatus, updateLoadedFiles,
    updateConnectedClients, updatePlayerControls in *.

Ltac unfold_channel :=
  unfold channel_result, callRustCommand, do_fetch, response_json, normalized,
    console_error in *.

(** A value other than [undefined] and [null] has every property read. *)
Lemma get_field v k s success :
  get v s = Normal success -> get v k = Normal (field v k).
Proof. unfold field. destruct v; try discriminate; reflexivity. Qed.

Lemma field_VObj o k : field (VObj o) k = default VUndefined (o !! k).
Proof. reflexivity. Qed.

(** The channel never throws: it returns [channel_result], whatever the
    state, and leaves a state that differs by the request it records and by
    what it writes to the console. *)
Lemma callRustCommand_run fetch command params app :
  exists errs,
    callRustCommand fetch command params app =
    (Normal (channel_result fetch command params),
     set_console (console app ++ errs)
                 (set_requests (requests app ++ [(command, params)]) app)).
Proof.
  unfold_channel. unfold_monad.
  destruct (fetch command params) as [msg|status body]; cbn.
  { eexists. reflexivity. }
  destruct (response_ok status); cbn; [|eexists; reflexivity].
  destruct body as [msg|result]; cbn; [eexists; reflexivity|].
  destruct (get result "success") as [success|e]; cbn; [|eexists; reflexivity].
  destruct (truthy success); cbn.
  - destruct (get result "data") as [data|e]; cbn; [|eexists; reflexivity].
    exists []. rewrite app_nil_r. reflexivity.
  - destruct (get result "error") as [error|e]; cbn; [|eexists; reflexivity].
    destruct (truthy error); cbn; [destruct (ToString error); cbn; eexists; reflexivity|].
    destruct (get result "data") as [data|e]; cbn; [|eexists; reflexivity].
    exists []. rewrite app_nil_r. reflexivity.
Qed.

Lemma channel_result_network fetch command params msg :
  fetch command params = NetworkFailure msg ->
  channel_result fetch command params = ErrResult msg.
Proof. intros H. unfold_channel. unfold_monad. rewrite H. reflexivity. Qed.

Lemma channel_result_http fetch command params status body :
  fetch command params = Response status body ->
  response_ok status = false ->
  channel_result fetch command params
  = ErrResult ("HTTP error! status: " +:+ number_text status).
Proof. intros H Hok. unfold_channel. unfold_monad. rewrite H. cbn. rewrite Hok. reflexivity. Qed.

Lemma channel_result_invalid_json fetch command params status msg :
  fetch command params = Response status (InvalidJson msg) ->
  response_ok status = true ->
  channel_result fetch command params = ErrResult msg.
Proof. intros H Hok. unfold_channel. unfold_monad. rewrite H. cbn. rewrite Hok. reflexivity. Qed.

Lemma channel_result_null fetch command params status result e :
  fetch command params = Response status (Json result) ->
  response_ok status = true ->
  get result "success" = Throw e ->
  channel_result fetch command params = ErrResult (message e).
Proof.
  intros H Hok He. unfold_channel. unfold_monad. rewrite H. cbn. rewrite Hok. cbn.
  rewrite He. reflexivity.
Qed.

Lemma channel_result_json fetch command params status result success :
  fetch command params = Response status (Json result) ->
  response_ok status = true ->
  get result "success" = Normal success ->
  channel_result fetch command params
  = if truthy success || negb (truthy (field result "error"))
    then VObj (spread (field result "data") ∪ {["success" := success]})
    else ErrResult (match ToString (field result "error") with
                    | Normal text => text
                    | Throw e => message e
                    end).
Proof.
  intros H Hok Hs. unfold_channel. unfold_monad. rewrite H. cbn. rewrite Hok. cbn.
  rewrite (get_field _ "error" _ _ Hs), (get_field _ "data" _ _ Hs), Hs. cbn.
  destruct (truthy success); cbn; [reflexivity|].
  destruct (truthy (field result "error")); cbn; [|reflexivity].
  destruct (ToString (field result "error")); reflexivity.
Qed.

Lemma isErr_ErrResult msg : isErr (ErrResult msg) = true.
Proof. reflexivity. Qed.

(** C5, as the code has it. The channel never lets an exception escape.
    A response that is not 2xx gives the failure HTTP error! status: code; a
    failure of the transport or of the JSON parser gives a failure with its
    message; an answer whose success is false and whose error is set gives a
    failure with a message, which is that error when it is a string; every
    other answer, success true or success false without an error, gives its
    success flag merged with the fields of its data, and so has no error
    field unless the data has one. *)
Theorem callRustCommand_normalizes (fetch : Fetch) (command : string) (params : value)
    (app : App) :
  exists response,
    fst (callRustCommand fetch command params app) = Normal response
    /\ (forall msg, fetch command params = NetworkFailure msg -> response = ErrResult msg)
    /\ (forall status body,
          fetch command params = Response status body -> response_ok status = false ->
          response = ErrResult ("HTTP error! status: " +:+ number_text status))
    /\ (forall status msg,
          fetch command params = Response status (InvalidJson msg) ->
          response_ok status = true -> response = ErrResult msg)
    /\ (forall status result success,
          fetch command params = Response status (Json result) ->
          response_ok status = true ->
          get result "success" = Normal success ->
          let merged := VObj (spread (field result "data") ∪ {["success" := success]}) in
          (truthy success = true -> response = merged)
          /\ (truthy success = false -> truthy (field result "error") = true ->
              exists text, response = ErrResult text)
          /\ (forall text, truthy success = false ->
              field result "error" = VStr text -> text <> EmptyString ->
              response = ErrResult text)
          /\ (truthy success = false -> truthy (field result "error") = false ->
              response = merged
              /\ (spread (field result "data") !! "error" = None ->
                  field response "error" = VUndefined))).
Proof.
  exists (channel_result fetch command params).
  destruct (callRustCommand_run fetch command params app) as [errs ->].
  split; [reflexivity|]. split; [|split; [|split]].
  - apply channel_result_network.
  - apply channel_result_http.
  - apply channel_result_invalid_json.
  - intros status result success H Hok Hs merged.
    rewrite (channel_result_json _ _ _ _ _ _ H Hok Hs). subst merged.
    split; [|split; [|split]].
    + intros ->. reflexivity.
    + intros -> ->. eexists. reflexivity.
    + intros text -> -> Htext. unfold truthy.
      apply String.eqb_neq in Htext. rewrite Htext. reflexivity.
    + intros -> ->. split; [reflexivity|].
      intros Hnone. cbn [orb negb]. rewrite field_VObj.
      rewrite (proj2 (lookup_union_None _ _ _)); [reflexivity|].
      split; [exact Hnone | apply lookup_singleton_ne; discriminate].
Qed.

Lemma callRustCommand_normalizes_witness :
  fst (callRustCommand serverError "stop-server" (VObj ∅) initialApp)
  = Normal (ErrResult "HTTP error! status: 500").
Proof.
  destruct (callRustCommand_normalizes serverError "stop-server" (VObj ∅) initialApp)
    as (response & Hrun & _ & Hhttp & _).
  rewrite Hrun. f_equal.
  apply (Hhttp 500%Z (InvalidJson "Unexpected token")); reflexivity.
Defined.

(** C5, as the specification states it, fails: an answer with success false
    and no error field comes back from the channel as a failure that carries
    no message at all, neither the answer's nor a generic one. *)
Lemma callRustCommand_failure_without_message :
  fst (callRustCommand silentFailure "stop-server" (VObj ∅) initialApp)
  = Normal (VObj {["success" := VBool false]})
  /\ get (VObj {["success" := VBool false]}) "error" = Normal VUndefined.
Proof. split; vm_compute; reflexivity. Qed.

(** ** Host controller *)

Ltac call_channel :=
  match goal with
  | |- context [callRustCommand ?f ?c ?p ?a] =>
      let errs := fresh "errs" in
      let Hrun := fresh "Hrun" in
      destruct (callRustCommand_run f c p a) as [errs Hrun]; rewrite Hrun; clear Hrun
  end.

(** The log (or the notifications) grew by entries one of which is of the
    expected severity. *)
Ltac appended :=
  eexists; split; [repeat rewrite <- app_assoc; reflexivity | reflexivity].

(** C6. When the command channel answers the start-server command with a
    failure, [startServer] returns normally, leaves the hosting flag, the
    loaded files and the connected clients as they were, and adds an error
    entry to the log and an error notification. *)
Theorem startServer_err_keeps_state (fetch : Fetch) (app : App) :
  let payload := VObj {["port" := parseInt (serverPortInput app);
                        "directory" := VStr (cleanDirectory (mediaDirectoryInput app))]} in
  isErr (channel_result fetch "start-server" payload) = true ->
  let app' := snd (startServer fetch app) in
  fst (startServer fetch app) = Normal tt
  /\ hosting app' = hosting app
  /\ (exists entries, statusLog app' = statusLog app ++ entries
                      /\ has_severity "error" entries = true)
  /\ (exists shown, notifications app' = notifications app ++ shown
                    /\ has_severity "error" shown = true).
Proof.
  intros payload Herr. unfold startServer. unfold_ui. unfold_monad. cbn.
  destruct (String.eqb (serverPortInput app) EmptyString); cbn.
  { repeat split; appended. }
  destruct (String.eqb (cleanDirectory (mediaDirectoryInput app)) EmptyString); cbn.
  { repeat split; appended. }
  destruct (isValidDirectoryPath (cleanDirectory (mediaDirectoryInput app))); cbn.
  2:{ repeat split; appended. }
  call_channel. cbn. fold payload.
  set (response := channel_result fetch "start-server" payload) in *.
  unfold isErr, isOk, field in Herr.
  destruct (get response "success") as [success|e]; cbn.
  - apply negb_true_iff in Herr. rewrite Herr. cbn.
    destruct (get response "error"); cbn; [destruct (ToString _); cbn|];
      repeat split; appended.
  - repeat split; appended.
Qed.

Lemma startServer_err_keeps_state_witness :
  requests (snd (startServer unreachable hostingApp)) <> []
  /\ hosting (snd (startServer unreachable hostingApp)) = hosting hostingApp.
Proof.
  split; [vm_compute; discriminate|].
  refine (proj1 (proj2 (startServer_err_keeps_state unreachable hostingApp _))).
  rewrite (channel_result_network _ _ _ "Failed to fetch" eq_refl).
  apply isErr_ErrResult.
Defined.

(** C7. When the port is missing, or the directory is empty once trimmed
    and stripped of its quotes, or the path validator rejects it,
    [startServer] returns normally without sending any command, leaves the
    hosting state as it was, and adds an error entry to the log and an error
    notification. *)
Theorem startServer_invalid_input_sends_nothing (fetch : Fetch) (app : App) :
  serverPortInput app = EmptyString
  \/ cleanDirectory (mediaDirectoryInput app) = EmptyString
  \/ isValidDirectoryPath (cleanDirectory (mediaDirectoryInput app)) = false ->
  let app' := snd (startServer fetch app) in
  fst (startServer fetch app) = Normal tt
  /\ requests app' = requests app
  /\ hosting app' = hosting app
  /\ (exists entries, statusLog app' = statusLog app ++ entries
                      /\ has_severity "error" entries = true)
  /\ (exists shown, notifications app' = notifications app ++ shown
                    /\ has_severity "error" shown = true).
Proof.
  intros Hbad. unfold startServer. unfold_ui. unfold_monad. cbn.
  destruct (String.eqb (serverPortInput app) EmptyString) eqn:Hport; cbn.
  { repeat split; appended. }
  destruct (String.eqb (cleanDirectory (mediaDirectoryInput app)) EmptyString) eqn:Hdir; cbn.
  { repeat split; appended. }
  destruct (isValidDirectoryPath (cleanDirectory (mediaDirectoryInput app))) eqn:Hvalid; cbn.
  2:{ repeat split; appended. }
  apply String.eqb_neq in Hport, Hdir.
  destruct Hbad as [H|[H|H]]; congruence.
Qed.

Lemma startServer_invalid_input_sends_nothing_witness :
  isValidDirectoryPath (cleanDirectory (mediaDirectoryInput
     (set_serverRunning true initialApp))) = false
  /\ requests (snd (startServer accepting (set_serverRunning true initialApp))) = []
  /\ hosting (snd (startServer accepting (set_serverRunning true initialApp)))
     = (true, VArr [], VArr []).
Proof.
  assert (H : isValidDirectoryPath (cleanDirectory (mediaDirectoryInput
                (set_serverRunning true initialApp))) = false) by reflexivity.
  split; [exact H|].
  destruct (startServer_invalid_input_sends_nothing accepting
              (set_serverRunning true initialApp) (or_intror (or_intror H)))
    as (_ & Hreq & Hhost & _).
  split; [exact Hreq | exact Hhost].
Defined.

(** [stopServer] never throws, and either resets the hosting state or
    leaves it as it was. *)
Lemma stopServer_hosting fetch app :
  fst (stopServer fetch app) = Normal tt
  /\ hosting (snd (stopServer fetch app))
     = if isOk (channel_result fetch "stop-server" (VObj ∅))
       then (false, VArr [], VArr [])
       else hosting app.
Proof.
  unfold stopServer. unfold_ui. unfold_monad. cbn.
  call_channel. cbn. unfold isOk, field.
  destruct (get (channel_result fetch "stop-server" (VObj ∅)) "success") as [success|e]; cbn.
  - destruct (truthy success); cbn.
    + split; reflexivity.
    + destruct (get _ "error"); cbn; [destruct (ToString _); cbn|]; split; reflexivity.
  - split; reflexivity.
Qed.

(** C8. When the channel answers stop-server with a success, [stopServer]
    sets the hosting flag to false and empties the loaded files and the
    connected clients.  Stopping again, whatever the backend then answers,
    returns normally and leaves that same state. *)
Theorem stopServer_ok_resets (fetch : Fetch) (app : App) :
  isOk (channel_result fetch "stop-server" (VObj ∅)) = true ->
  let stopped := snd (stopServer fetch app) in
  fst (stopServer fetch app) = Normal tt
  /\ hosting stopped = (false, VArr [], VArr [])
  /\ forall again : Fetch,
       fst (stopServer again stopped) = Normal tt
       /\ hosting (snd (stopServer again stopped)) = hosting stopped.
Proof.
  intros Hok stopped.
  destruct (stopServer_hosting fetch app) as [Hrun Hhost].
  rewrite Hok in Hhost. fold stopped in Hhost.
  split; [exact Hrun|]. split; [exact Hhost|].
  intros again. destruct (stopServer_hosting again stopped) as [Hrun' Hhost'].
  split; [exact Hrun'|]. rewrite Hhost'.
  destruct (isOk (channel_result again "stop-server" (VObj ∅)));
    [symmetry; exact Hhost | reflexivity].
Qed.

Lemma stopServer_ok_resets_witness :
  isOk (channel_result accepting "stop-server" (VObj ∅)) = true
  /\ hosting hostingApp <> (false, VArr [], VArr [])
  /\ hosting (snd (stopServer accepting hostingApp)) = (false, VArr [], VArr [])
  /\ hosting (snd (stopServer unreachable (snd (stopServer accepting hostingApp))))
     = (false, VArr [], VArr []).
Proof.
  assert (H : isOk (channel_result accepting "stop-server" (VObj ∅)) = true)
    by (vm_compute; reflexivity).
  split; [exact H|]. split; [vm_compute; discriminate|].
  destruct (stopServer_ok_resets accepting hostingApp H) as (_ & Hhost & Hagain).
  split; [exact Hhost|].
  destruct (Hagain unreachable) as [_ Hsame]. rewrite Hsame. exact Hhost.
Defined.

(** ** Media player *)





(** The file name of an image is written into the markup as it is: after
    a double quote, it can bring an audio element of its own, and then the
    image payload does play. *)
Lemma requestMedia_image_name_with_quote :
  let filename := "a.png" +:+ JS.dquote +:+ "><audio autoplay src=x>" in
  let app' := snd (requestMedia (delivering (payload filename "iVBORw==" "image"))
                                filename (set_browser strictBrowser initialApp)) in
  mediaPlayerContainer app'
  = Markup 0 filename (Some (mkMedia TagAudio 0 EmptyString false 0))
  /\ isPlaying app' = true.
Proof. split; vm_compute; reflexivity. Qed.

(** * Further properties *)

(** ** Strings *)

Lemma trimEnd_keeps_head c s :
  JS.is_space c = false -> exists t, JS.trimEnd (String c s) = String c t.
Proof.
  intros Hc. cbn [JS.trimEnd]. destruct (JS.trimEnd s); rewrite ?Hc; eauto.
Qed.

Lemma trimStart_head s :
  JS.trimStart s = EmptyString
  \/ exists c t, JS.trimStart s = String c t /\ JS.is_space c = false.
Proof.
  induction s as [|c s IH]; cbn [JS.trimStart]; [left; reflexivity|].
  destruct (JS.is_space c) eqn:Hc; [exact IH|]. right. eauto.
Qed.

Lemma trimEnd_idempotent s : JS.trimEnd (JS.trimEnd s) = JS.trimEnd s.
Proof.
  induction s as [|c s IH]; [reflexivity|]. cbn [JS.trimEnd].
  destruct (JS.trimEnd s) as [|d t] eqn:Ht.
  - destruct (JS.is_space c) eqn:Hc; [reflexivity|].
    cbn [JS.trimEnd]. rewrite Hc. reflexivity.
  - change (JS.trimEnd (String c (String d t)))
      with (match JS.trimEnd (String d t) with
            | EmptyString => if JS.is_space c then EmptyString else String c EmptyString
            | u => String c u
            end).
    rewrite IH. reflexivity.
Qed.

Lemma trimStart_fixed c t :
  JS.is_space c = false -> JS.trimStart (String c t) = String c t.
Proof. intros Hc. cbn [JS.trimStart]. rewrite Hc. reflexivity. Qed.

Lemma trim_idempotent s : JS.trim (JS.trim s) = JS.trim s.
Proof.
  unfold JS.trim. destruct (trimStart_head s) as [->|(c & t & -> & Hc)]; [reflexivity|].
  destruct (trimEnd_keeps_head c t Hc) as [u Hu]. rewrite Hu.
  rewrite (trimStart_fixed _ _ Hc), <- Hu. apply trimEnd_idempotent.
Qed.

(** ** Path validator *)

(** X1. The validator reads its argument through [trim] only: a path and
    the same path without the white space around it get the same verdict. *)
Theorem isValidDirectoryPath_trim (path : string) :
  isValidDirectoryPath (JS.trim path) = isValidDirectoryPath path.
Proof.
  unfold isValidDirectoryPath at 1 2.
  rewrite trim_idempotent.
  destruct (String.eqb path EmptyString) eqn:Hp.
  - apply String.eqb_eq in Hp. subst path. reflexivity.
  - destruct (String.eqb (JS.trim path) EmptyString) eqn:Ht; [|reflexivity].
    apply String.eqb_eq in Ht. rewrite Ht. reflexivity.
Qed.

Lemma trim_empty : JS.trim EmptyString = EmptyString.
Proof. reflexivity. Qed.

(** The display-text patterns apply to short inputs only. *)
Lemma invalidPatterns_long t :
  10 <= String.length t ->
  existsb (fun pattern => test pattern t && (String.length t <? 10)%nat) invalidPatterns
  = false.
Proof.
  intros Hlen. assert (Hlt : (String.length t <? 10)%nat = false) by (apply Nat.ltb_ge; lia).
  rewrite Hlt. unfold invalidPatterns. cbn [existsb]. rewrite !andb_false_r. reflexivity.
Qed.

(** X2. A path of 10 characters or more, once trimmed, which contains a
    separator is accepted, whatever else it contains. *)
Theorem isValidDirectoryPath_long_with_separator (path : string) :
  10 <= String.length (JS.trim path) ->
  has_separator (JS.trim path) = true ->
  isValidDirectoryPath path = true.
Proof.
  intros Hlen Hsep. unfold isValidDirectoryPath.
  destruct (String.eqb path EmptyString) eqn:Hp.
  { apply String.eqb_eq in Hp. subst path. cbn in Hlen. lia. }
  rewrite (invalidPatterns_long _ Hlen).
  unfold has_separator in Hsep. rewrite Hsep.
  assert (Hlong : (3 <? String.length (JS.trim path))%nat = true) by (apply Nat.ltb_lt; lia).
  rewrite Hlong. apply orb_true_r.
Qed.

Lemma isValidDirectoryPath_long_with_separator_witness :
  isValidDirectoryPath "3 media files selected/" = true.
Proof.
  apply isValidDirectoryPath_long_with_separator; [vm_compute; lia | reflexivity].
Defined.

(** Characters of a string without separators. *)
Lemma no_separator_lookup t k x :
  has_separator t = false ->
  list_ascii_of_string t !! k = Some x -> is_separator x = false.
Proof.
  unfold has_separator, is_separator. revert k.
  induction t as [|c t IH]; intros k Hsep Hk; [destruct k; discriminate|].
  cbn [JS.includes_char] in Hsep.
  destruct (Ascii.eqb c "\") eqn:H1; [discriminate|].
  destruct (Ascii.eqb c "/") eqn:H2; [rewrite orb_true_r in Hsep; discriminate|].
  destruct k as [|k]; cbn in Hk.
  - injection Hk as <-. rewrite H1, H2. reflexivity.
  - apply (IH k); [|exact Hk]. cbn [orb] in Hsep. exact Hsep.
Qed.

(** A greedy star reaches the end of the input when every remaining
    position allows one more iteration. *)
Lemma star_from_reaches_end (step : nat -> list nat) (n : nat) : forall fuel i,
  (forall k, i <= k < n -> In (S k) (step k)) ->
  n - i <= fuel -> i <= n ->
  In n (star_from step fuel i).
Proof.
  induction fuel as [|fuel IH]; intros i Hstep Hfuel Hi; cbn [star_from].
  - left. lia.
  - apply in_or_app. destruct (Nat.eq_dec i n) as [->|Hne]; [right; left; reflexivity|].
    left. apply in_flat_map. exists (S i). split.
    + apply filter_In. split; [apply Hstep; lia | apply Nat.ltb_lt; lia].
    + apply IH; [intros k Hk; apply Hstep; lia | lia | lia].
Qed.

Lemma test_no_separator t :
  has_separator t = false ->
  test (mkRegExp (cat [Bol; Star (Class true separators); Eol]) false) t = true.
Proof.
  intros Hsep. unfold test. apply existsb_exists. exists 0. split.
  { apply in_seq. lia. }
  unfold matches_at. cbn [ignoreCase pattern cat fold_right ends Nat.eqb flat_map].
  rewrite app_nil_r.
  set (s := list_ascii_of_string t).
  assert (Hend : In (length s)
            (star_from (ends false (Class true separators) s) (S (length s)) 0)).
  { apply star_from_reaches_end; [|lia|lia].
    intros k Hk. cbn [ends]. unfold one.
    destruct (s !! k) as [x|] eqn:Hx.
    - pose proof (no_separator_lookup t k x Hsep Hx) as Hns.
      unfold is_separator in Hns. apply orb_false_iff in Hns as [H1 H2].
      rewrite Ascii.eqb_sym in H1, H2.
      unfold class_has, separators. cbn [existsb item_has]. rewrite H1, H2.
      left. reflexivity.
    - apply lookup_ge_None in Hx. lia. }
  assert (Hin : In (length s)
            (flat_map (fun i => flat_map (ends false Eps s) (ends false Eol s i))
               (star_from (ends false (Class true separators) s) (S (length s)) 0))).
  { apply in_flat_map. exists (length s). split; [exact Hend|].
    cbn [ends]. rewrite Nat.eqb_refl. left. reflexivity. }
  cbn [ends] in Hin |- *.
  destruct (flat_map _ _); [destruct Hin | reflexivity].
Qed.

(** X3. A path shorter than 10 characters, once trimmed, which contains no
    separator is rejected, whatever it contains. *)
Theorem isValidDirectoryPath_short_without_separator (path : string) :
  String.length (JS.trim path) < 10 ->
  has_separator (JS.trim path) = false ->
  isValidDirectoryPath path = false.
Proof.
  intros Hlen Hsep. unfold isValidDirectoryPath.
  destruct (String.eqb path EmptyString); [reflexivity|].
  assert (Hrej : existsb (fun pattern => test pattern (JS.trim path)
                                        && (String.length (JS.trim path) <? 10)%nat)
                         invalidPatterns = true).
  { apply existsb_exists.
    exists (mkRegExp (cat [Bol; Star (Class true separators); Eol]) false). split.
    - unfold invalidPatterns. simpl. tauto.
    - rewrite (test_no_separator _ Hsep). apply Nat.ltb_lt in Hlen. rewrite Hlen. reflexivity. }
  rewrite Hrej. reflexivity.
Qed.

Lemma isValidDirectoryPath_short_without_separator_witness :
  test (mkRegExp (lit "Pictures") true) (JS.trim "Pictures") = true
  /\ isValidDirectoryPath "Pictures" = false.
Proof.
  split; [vm_compute; reflexivity|].
  apply isValidDirectoryPath_short_without_separator; [vm_compute; lia | reflexivity].
Defined.

(** *** What a match tells about the input *)

Lemma string_of_list_ascii_app a b :
  string_of_list_ascii (a ++ b) = string_of_list_ascii a +:+ string_of_list_ascii b.
Proof. induction a as [|c a IH]; cbn; [reflexivity | now rewrite IH]. Qed.

Lemma consumes_separator_sound r : forall s i j,
  consumes_separator r = true ->
  In j (ends false r s i) ->
  exists k x, s !! k = Some x /\ is_separator x = true.
Proof.
  induction r as [| c | | | | negated items | | | r1 IH1 r2 IH2 | r1 IH1 r2 IH2 | r1 IH1];
    intros s i j Hr Hj; cbn [consumes_separator] in Hr; try discriminate.
  - cbn [ends] in Hj. unfold one in Hj. destruct (s !! i) as [x|] eqn:Hx; [|destruct Hj].
    unfold char_matches in Hj. destruct (Ascii.eqb c x) eqn:Hc; [|destruct Hj].
    apply Ascii.eqb_eq in Hc. subst x. eauto.
  - cbn [ends] in Hj. unfold one in Hj. destruct (s !! i) as [x|] eqn:Hx; [|destruct Hj].
    apply andb_true_iff in Hr as [Hneg Hitems].
    destruct negated; [discriminate|]. cbn [xorb] in Hj.
    destruct (class_has false items x) eqn:Hc; [|destruct Hj].
    unfold class_has in Hc. apply existsb_exists in Hc as (it & Hit & Hhas).
    rewrite forallb_forall in Hitems. specialize (Hitems it Hit).
    destruct it as [c|lo hi]; [|discriminate]. cbn in Hhas, Hitems.
    apply Ascii.eqb_eq in Hhas. subst x. eauto.
  - cbn [ends] in Hj. apply in_flat_map in Hj as (m & Hm & Hj).
    apply orb_true_iff in Hr as [Hr|Hr]; eauto.
  - cbn [ends] in Hj. apply andb_true_iff in Hr as [Hr1 Hr2].
    apply in_app_or in Hj as [Hj|Hj]; eauto.
Qed.

Lemma test_consumes_separator r t :
  consumes_separator r = true ->
  test (mkRegExp r false) t = true ->
  has_separator t = true.
Proof.
  intros Hr Ht. destruct (has_separator t) eqn:Hsep; [reflexivity|].
  unfold test in Ht. apply existsb_exists in Ht as (i & _ & Hm).
  unfold matches_at in Hm. cbn [ignoreCase pattern] in Hm.
  destruct (ends false r (list_ascii_of_string t) i) as [|j l] eqn:He; [discriminate|].
  destruct (consumes_separator_sound r (list_ascii_of_string t) i j Hr) as (k & x & Hk & Hx).
  { rewrite He. left. reflexivity. }
  rewrite (no_separator_lookup t k x Hsep Hk) in Hx. discriminate.
Qed.

(** A match of a literal word covers a piece of the input that is the word,
    character by character. *)
Lemma ends_lit_sound ci w : forall s i j,
  In j (ends ci (lit w) s i) ->
  exists mid, s = take i s ++ mid ++ drop j s
              /\ Forall2 (fun c x => char_matches ci c x = true)
                         (list_ascii_of_string w) mid.
Proof.
  induction w as [|c w IH]; intros s i j Hj.
  - cbn in Hj. destruct Hj as [<-|[]]. exists []. split; [|constructor].
    cbn [app]. symmetry. apply take_drop.
  - cbn [lit ends] in Hj. apply in_flat_map in Hj as (m & Hm & Hj).
    unfold one in Hm. destruct (s !! i) as [x|] eqn:Hx; [|destruct Hm].
    destruct (char_matches ci c x) eqn:Hc; [|destruct Hm].
    destruct Hm as [<-|[]].
    destruct (IH s (S i) j Hj) as (mid & Hs & Hall).
    exists (x :: mid). split.
    + rewrite (take_S_r _ _ _ Hx), <- app_assoc in Hs. exact Hs.
    + cbn [list_ascii_of_string]. constructor; assumption.
Qed.

Lemma toLowerCase_canon x : JS.toLowerCase_char (canon x) = JS.toLowerCase_char x.
Proof. destruct x as [[] [] [] [] [] [] [] []]; vm_compute; reflexivity. Qed.

Lemma Forall2_ci_lower w mid :
  Forall2 (fun c x => char_matches true c x = true) (list_ascii_of_string w) mid ->
  JS.toLowerCase (string_of_list_ascii mid) = JS.toLowerCase w.
Proof.
  revert mid. induction w as [|c w IH]; intros mid H; inversion H; subst; [reflexivity|].
  cbn [string_of_list_ascii JS.toLowerCase]. f_equal; [|apply IH; assumption].
  match goal with Hc : char_matches true c _ = true |- _ =>
    unfold char_matches in Hc; apply Ascii.eqb_eq in Hc;
    rewrite <- toLowerCase_canon, <- Hc, toLowerCase_canon end.
  reflexivity.
Qed.

Lemma Forall2_exact w mid :
  Forall2 (fun c x => char_matches false c x = true) (list_ascii_of_string w) mid ->
  string_of_list_ascii mid = w.
Proof.
  revert mid. induction w as [|c w IH]; intros mid H; inversion H; subst; [reflexivity|].
  cbn [string_of_list_ascii]. f_equal; [|apply IH; assumption].
  match goal with Hc : char_matches false c _ = true |- _ =>
    unfold char_matches in Hc; apply Ascii.eqb_eq in Hc; subst end.
  reflexivity.
Qed.

Lemma split_string t i j mid :
  list_ascii_of_string t = take i (list_ascii_of_string t) ++ mid
                           ++ drop j (list_ascii_of_string t) ->
  t = string_of_list_ascii (take i (list_ascii_of_string t))
      +:+ string_of_list_ascii mid
      +:+ string_of_list_ascii (drop j (list_ascii_of_string t)).
Proof.
  intros H. rewrite <- !string_of_list_ascii_app, <- H.
  symmetry. apply string_of_list_ascii_of_string.
Qed.

Lemma test_lit_ci_sound w t :
  test (mkRegExp (lit w) true) t = true -> contains_ci t (JS.toLowerCase w).
Proof.
  intros Ht. unfold test in Ht. apply existsb_exists in Ht as (i & _ & Hm).
  unfold matches_at in Hm. cbn [ignoreCase pattern] in Hm.
  destruct (ends true (lit w) (list_ascii_of_string t) i) as [|j l] eqn:He; [discriminate|].
  destruct (ends_lit_sound true w (list_ascii_of_string t) i j) as (mid & Hs & Hall).
  { rewrite He. left. reflexivity. }
  eexists _, (string_of_list_ascii mid), _. split.
  - apply split_string. exact Hs.
  - apply Forall2_ci_lower. exact Hall.
Qed.

Lemma test_lit_eol_sound w t :
  test (mkRegExp (cat [lit w; Eol]) false) t = true -> ends_with t w.
Proof.
  intros Ht. unfold test in Ht. apply existsb_exists in Ht as (i & _ & Hm).
  unfold matches_at in Hm. cbn [ignoreCase pattern cat fold_right ends] in Hm.
  set (s := list_ascii_of_string t) in *.
  destruct (flat_map _ (ends false (lit w) s i)) as [|j l] eqn:He; [discriminate|].
  assert (Hj : In j (flat_map (fun m => flat_map (fun n => [n])
                                   (if (m =? length s)%nat then [m] else []))
                              (ends false (lit w) s i)))
    by (rewrite He; left; reflexivity).
  apply in_flat_map in Hj as (m & Hm' & Hj).
  destruct (m =? length s)%nat eqn:Hlen; [|destruct Hj].
  apply Nat.eqb_eq in Hlen. subst m.
  destruct (ends_lit_sound false w s i (length s) Hm') as (mid & Hs & Hall).
  rewrite drop_all, app_nil_r in Hs.
  exists (string_of_list_ascii (take i s)).
  rewrite <- (Forall2_exact _ _ Hall), <- string_of_list_ascii_app, <- Hs.
  symmetry. apply string_of_list_ascii_of_string.
Qed.

Lemma ends_lit_complete ci w : forall mid pre post,
  Forall2 (fun c x => char_matches ci c x = true) (list_ascii_of_string w) mid ->
  In (length pre + length mid) (ends ci (lit w) (pre ++ mid ++ post) (length pre)).
Proof.
  induction w as [|c w IH]; intros mid pre post H; inversion H as [|c' x w' mid' Hc Hrest]; subst.
  - cbn. left. lia.
  - cbn [lit ends]. unfold one. cbn [app].
    rewrite list_lookup_middle by reflexivity. rewrite Hc.
    cbn [flat_map]. rewrite app_nil_r.
    specialize (IH mid' (pre ++ [x]) post Hrest).
    rewrite <- app_assoc, length_app in IH. cbn [app length] in IH |- *.
    replace (length pre + S (length mid')) with (length pre + 1 + length mid') by lia.
    replace (S (length pre)) with (length pre + 1) by lia.
    exact IH.
Qed.

Lemma Forall2_lower_ci w : forall mid,
  JS.toLowerCase mid = JS.toLowerCase w ->
  Forall2 (fun c x => char_matches true c x = true)
          (list_ascii_of_string w) (list_ascii_of_string mid).
Proof.
  induction w as [|c w IH]; intros [|x mid] H; cbn in H; try discriminate; [constructor|].
  injection H as Hx Hmid. cbn [list_ascii_of_string]. constructor; [|apply IH; exact Hmid].
  unfold char_matches. rewrite <- (canon_toLowerCase c), <- Hx, canon_toLowerCase.
  apply Ascii.eqb_refl.
Qed.

Lemma Forall2_same ci w :
  Forall2 (fun c x => char_matches ci c x = true)
          (list_ascii_of_string w) (list_ascii_of_string w).
Proof.
  induction w as [|c w IH]; cbn; constructor; [|exact IH].
  unfold char_matches. destruct ci; apply Ascii.eqb_refl.
Qed.

Lemma test_lit_ci_complete w t :
  contains_ci t (JS.toLowerCase w) -> test (mkRegExp (lit w) true) t = true.
Proof.
  intros (pre & mid & post & -> & Hmid). unfold test.
  apply existsb_exists. exists (length (list_ascii_of_string pre)). split.
  - apply in_seq. rewrite !list_ascii_of_string_app, !length_app. lia.
  - unfold matches_at. cbn [ignoreCase pattern]. rewrite !list_ascii_of_string_app.
    pose proof (ends_lit_complete true w _ (list_ascii_of_string pre)
                  (list_ascii_of_string post) (Forall2_lower_ci w mid Hmid)) as H.
    destruct (ends _ _ _ _); [destruct H | reflexivity].
Qed.

Lemma test_lit_eol_complete w t :
  ends_with t w -> test (mkRegExp (cat [lit w; Eol]) false) t = true.
Proof.
  intros (pre & ->). unfold test.
  apply existsb_exists. exists (length (list_ascii_of_string pre)). split.
  - apply in_seq. rewrite !list_ascii_of_string_app, !length_app. lia.
  - unfold matches_at. cbn [ignoreCase pattern cat fold_right ends].
    rewrite list_ascii_of_string_app.
    set (p := list_ascii_of_string pre). set (m := list_ascii_of_string w).
    pose proof (ends_lit_complete false w m p [] (Forall2_same false w)) as H.
    rewrite app_nil_r in H.
    assert (Hin : In (length p + length m)
              (flat_map (fun i => flat_map (ends false Eps (p ++ m))
                                    (ends false Eol (p ++ m) i))
                        (ends false (lit w) (p ++ m) (length p)))).
    { apply in_flat_map. exists (length p + length m). split; [exact H|].
      cbn [ends]. rewrite length_app, Nat.eqb_refl. left. reflexivity. }
    cbn [ends] in Hin |- *.
    destruct (flat_map _ _); [destruct Hin | reflexivity].
Qed.

(** X4. A path without any separator is accepted exactly when it has 10
    characters or more, once trimmed, and ends with test_media or contains
    OneDrive, Pictures, Documents or Downloads, letter case apart. *)
Theorem isValidDirectoryPath_without_separator (path : string) :
  has_separator (JS.trim path) = false ->
  isValidDirectoryPath path = true
  <-> 10 <= String.length (JS.trim path)
      /\ (ends_with (JS.trim path) "test_media"
          \/ contains_ci (JS.trim path) "onedrive"
          \/ contains_ci (JS.trim path) "pictures"
          \/ contains_ci (JS.trim path) "documents"
          \/ contains_ci (JS.trim path) "downloads").
Proof.
  intros Hsep. set (t := JS.trim path) in *.
  assert (Hshort : String.length t < 10 -> isValidDirectoryPath path = false).
  { intros Hlen. unfold isValidDirectoryPath.
    destruct (String.eqb path EmptyString); [reflexivity|]. fold t.
    assert (Hrej : existsb (fun pattern => test pattern t && (String.length t <? 10)%nat)
                           invalidPatterns = true).
    { apply existsb_exists.
      exists (mkRegExp (cat [Bol; Star (Class true separators); Eol]) false). split.
      - unfold invalidPatterns. simpl. tauto.
      - rewrite (test_no_separator _ Hsep). apply Nat.ltb_lt in Hlen. rewrite Hlen.
        reflexivity. }
    rewrite Hrej. reflexivity. }
  assert (Hlong : 10 <= String.length t ->
            isValidDirectoryPath path
            = existsb (fun pattern => test pattern t) pathLikePatterns).
  { intros Hlen. unfold isValidDirectoryPath.
    destruct (String.eqb path EmptyString) eqn:Hp.
    { apply String.eqb_eq in Hp. subst path. cbn in Hlen. lia. }
    fold t. rewrite (invalidPatterns_long _ Hlen).
    unfold has_separator in Hsep. rewrite Hsep. apply orb_false_r. }
  split.
  - intros Hvalid.
    destruct (Nat.lt_ge_cases (String.length t) 10) as [Hlen|Hlen].
    { rewrite (Hshort Hlen) in Hvalid. discriminate. }
    split; [exact Hlen|]. rewrite (Hlong Hlen) in Hvalid.
    apply existsb_exists in Hvalid as (p & Hp & Htest).
    unfold pathLikePatterns in Hp. cbn [In] in Hp.
    repeat (destruct Hp as [<-|Hp];
            [first [ apply test_consumes_separator in Htest; [congruence | reflexivity]
                   | apply test_lit_eol_sound in Htest; tauto
                   | apply test_lit_ci_sound in Htest; cbn in Htest; tauto ] |]).
    destruct Hp.
  - intros [Hlen Hshape]. rewrite (Hlong Hlen). apply existsb_exists.
    destruct Hshape as [H|[H|[H|[H|H]]]].
    + exists (mkRegExp (cat [lit "test_media"; Eol]) false).
      split; [unfold pathLikePatterns; simpl; tauto | apply test_lit_eol_complete; exact H].
    + exists (mkRegExp (lit "OneDrive") true).
      split; [unfold pathLikePatterns; simpl; tauto | apply test_lit_ci_complete; exact H].
    + exists (mkRegExp (lit "Pictures") true).
      split; [unfold pathLikePatterns; simpl; tauto | apply test_lit_ci_complete; exact H].
    + exists (mkRegExp (lit "Documents") true).
      split; [unfold pathLikePatterns; simpl; tauto | apply test_lit_ci_complete; exact H].
    + exists (mkRegExp (lit "Downloads") true).
      split; [unfold pathLikePatterns; simpl; tauto | apply test_lit_ci_complete; exact H].
Qed.

Lemma isValidDirectoryPath_without_separator_witness :
  isValidDirectoryPath "My DOCUMENTS" = true
  /\ ~ (10 <= String.length (JS.trim "OneDrive")) /\ isValidDirectoryPath "OneDrive" = false.
Proof.
  split.
  - apply (proj2 (isValidDirectoryPath_without_separator "My DOCUMENTS" eq_refl)).
    split; [vm_compute; lia|]. right. right. right. left.
    exists "My ", "DOCUMENTS", EmptyString. split; reflexivity.
  - split; [vm_compute; lia|].
    destruct (isValidDirectoryPath "OneDrive") eqn:H; [|reflexivity].
    apply (proj1 (isValidDirectoryPath_without_separator "OneDrive" eq_refl)) in H.
    destruct H as [H _]. vm_compute in H. lia.
Defined.

(** ** Media classifier *)

Lemma toLowerCase_char_idempotent c :
  JS.toLowerCase_char (JS.toLowerCase_char c) = JS.toLowerCase_char c.
Proof. destruct c as [[] [] [] [] [] [] [] []]; vm_compute; reflexivity. Qed.

Lemma toLowerCase_idempotent s : JS.toLowerCase (JS.toLowerCase s) = JS.toLowerCase s.
Proof.
  induction s as [|c s IH]; cbn; [reflexivity|].
  rewrite toLowerCase_char_idempotent, IH. reflexivity.
Qed.

Lemma toLowerCase_char_dot c :
  Ascii.eqb (JS.toLowerCase_char c) "." = Ascii.eqb c ".".
Proof. destruct c as [[] [] [] [] [] [] [] []]; vm_compute; reflexivity. Qed.

Lemma split_toLowerCase s :
  JS.split "." (JS.toLowerCase s) = map JS.toLowerCase (JS.split "." s).
Proof.
  induction s as [|c s IH]; [reflexivity|].
  cbn [JS.toLowerCase JS.split]. rewrite toLowerCase_char_dot, IH.
  destruct (Ascii.eqb c "."); [reflexivity|].
  destruct (JS.split "." s); reflexivity.
Qed.

Lemma extension_toLowerCase s : extension (JS.toLowerCase s) = extension s.
Proof.
  unfold extension, JS.pop. rewrite split_toLowerCase.
  change (map JS.toLowerCase (JS.split "." s)) with (JS.toLowerCase <$> JS.split "." s).
  rewrite fmap_last. destruct (last (JS.split "." s)); cbn; [|reflexivity].
  apply toLowerCase_idempotent.
Qed.

(** X5. Letter case does not matter: two file names that differ only in
    letter case have the same extension, the same kind, the same MIME type
    for every kind, and the filter treats them alike. *)
Theorem classification_ignores_case (a b : File) (mediaType : value) :
  JS.toLowerCase (name a) = JS.toLowerCase (name b) ->
  extension (name a) = extension (name b)
  /\ getMediaTypeFromFilename (name a) = getMediaTypeFromFilename (name b)
  /\ getMimeType mediaType (VStr (name a)) = getMimeType mediaType (VStr (name b))
  /\ (filterMediaFiles [a] = [] <-> filterMediaFiles [b] = []).
Proof.
  intros Hcase.
  assert (Hext : extension (name a) = extension (name b)).
  { rewrite <- (extension_toLowerCase (name a)), Hcase. apply extension_toLowerCase. }
  split; [exact Hext|].
  unfold getMediaTypeFromFilename, getMimeType, filterMediaFiles. cbn [List.filter].
  rewrite Hext. repeat split; intros H;
    destruct (JS.includes mediaExtensions (extension (name b))); congruence.
Qed.

Lemma classification_ignores_case_witness :
  getMediaTypeFromFilename "Holiday.MP4" = getMediaTypeFromFilename "holiday.mp4".
Proof.
  exact (proj1 (proj2 (classification_ignores_case
           (mkFile "Holiday.MP4" 0 EmptyString) (mkFile "holiday.mp4" 0 EmptyString)
           VNull eq_refl))).
Defined.

Lemma classified_extension filename :
  getMediaTypeFromFilename filename <> "unknown" ->
  In (extension filename) (classifiedVideo ++ classifiedAudio ++ classifiedImage).
Proof.
  unfold getMediaTypeFromFilename. intros H. rewrite !in_app_iff, <- !includes_In.
  unfold classifiedVideo, classifiedAudio, classifiedImage.
  destruct (JS.includes _ (extension filename)); [tauto|].
  destruct (JS.includes _ (extension filename)); [tauto|].
  destruct (JS.includes _ (extension filename)); [tauto|].
  congruence.
Qed.

(** X6. Every file to which the classifier gives a kind is kept by the
    filter: the classifier's extensions are among the filter's. *)
Theorem classified_files_are_kept (files : list File) (f : File) :
  In f files ->
  getMediaTypeFromFilename (name f) <> "unknown" ->
  In f (filterMediaFiles files).
Proof.
  intros Hin Hkind. unfold filterMediaFiles. apply filter_In. split; [exact Hin|].
  apply classified_extension in Hkind. apply includes_In.
  cbn in Hkind.
  repeat (destruct Hkind as [<-|Hkind]; [cbn; tauto|]). destruct Hkind.
Qed.

Lemma classified_files_are_kept_witness :
  In (mkFile "b.OGG" 7 EmptyString)
     (filterMediaFiles [mkFile "a.txt" 1 EmptyString; mkFile "b.OGG" 7 EmptyString]).
Proof.
  apply classified_files_are_kept; [cbn; tauto | vm_compute; discriminate].
Defined.

(** X7. Filtering twice changes nothing, and the filter of two batches put
    together is the two filtered batches put together. *)
Theorem filterMediaFiles_idempotent_app (l1 l2 : list File) :
  filterMediaFiles (filterMediaFiles l1) = filterMediaFiles l1
  /\ filterMediaFiles (l1 ++ l2) = filterMediaFiles l1 ++ filterMediaFiles l2
  /\ length (filterMediaFiles l1) <= length l1.
Proof.
  unfold filterMediaFiles. split; [|split].
  - induction l1 as [|f l IH]; cbn [List.filter]; [reflexivity|].
    destruct (JS.includes mediaExtensions (extension (name f))) eqn:Hf; [|exact IH].
    cbn [List.filter]. rewrite Hf, IH. reflexivity.
  - apply List.filter_app.
  - apply List.filter_length_le.
Qed.

Ltac split_eqb :=
  repeat match goal with
         | |- context [String.eqb ?a ?b] => destruct (String.eqb a b)
         end.

(** X8. For a file name that is a string, [getMimeType] never throws; for
    the kinds video, audio and image it returns a type of that kind, whatever
    the extension, and for any other kind it returns
    application/octet-stream.  When the file name is not a string it
    throws. *)
Theorem getMimeType_follows_kind (mediaType : value) (filename : string) :
  (forall kind, In kind ["video"; "audio"; "image"] -> mediaType = VStr kind ->
     exists type, getMimeType mediaType (VStr filename) = Normal type
                  /\ starts_with type (kind +:+ "/"))
  /\ ((forall kind, In kind ["video"; "audio"; "image"] -> mediaType <> VStr kind) ->
      getMimeType mediaType (VStr filename) = Normal "application/octet-stream")
  /\ (forall other, (forall s, other <> VStr s) ->
        exists e, getMimeType mediaType other = Throw e).
Proof.
  split; [|split].
  - intros kind Hkind ->. unfold getMimeType.
    cbn in Hkind. destruct Hkind as [<-|[<-|[<-|[]]]]; cbn [is_string];
      eexists; (split; [reflexivity|]);
      change (String.eqb "video" "video") with true;
      change (String.eqb "audio" "video") with false;
      change (String.eqb "audio" "audio") with true;
      change (String.eqb "image" "video") with false;
      change (String.eqb "image" "audio") with false;
      change (String.eqb "image" "image") with true;
      cbv iota; split_eqb; eexists; reflexivity.
  - intros Hother. unfold getMimeType.
    assert (Hno : forall kind, In kind ["video"; "audio"; "image"] ->
                    is_string mediaType kind = false).
    { intros kind Hkind. destruct mediaType; try reflexivity. cbn [is_string].
      apply String.eqb_neq. intros ->. exact (Hother kind Hkind eq_refl). }
    rewrite !Hno by (cbn; tauto). reflexivity.
  - intros other Hother. unfold getMimeType.
    destruct other; try (eexists; reflexivity). destruct (Hother s eq_refl).
Qed.

Lemma getMimeType_follows_kind_witness :
  exists type, getMimeType (VStr "video") (VStr "clip.wmv") = Normal type
               /\ starts_with type "video/".
Proof.
  apply (proj1 (getMimeType_follows_kind (VStr "video") "clip.wmv") "video");
    [cbn; tauto | reflexivity].
Defined.

(** ** Command channel *)

(** X9. A call of the channel sends exactly one request, the command with
    its parameters, and changes nothing else of the application: the fields
    of the host, the inputs, the player, the blobs, the log and the
    notifications are as before. *)
Theorem callRustCommand_frame (fetch : Fetch) (command : string) (params : value)
    (app : App) :
  let app' := snd (callRustCommand fetch command params app) in
  requests app' = requests app ++ [(command, params)]
  /\ screen app' = screen app
  /\ statusLog app' = statusLog app
  /\ notifications app' = notifications app.
Proof.
  destruct (callRustCommand_run fetch command params app) as [errs ->].
  cbn. repeat split.
Qed.

Lemma channel_result_object fetch command params :
  exists fields, channel_result fetch command params = VObj fields
                 /\ is_Some (fields !! "success").
Proof.
  destruct (fetch command params) as [msg|status body] eqn:Hf.
  { rewrite (channel_result_network _ _ _ _ Hf). eexists. split; [reflexivity|].
    vm_compute. eauto. }
  destruct (response_ok status) eqn:Hok.
  2:{ rewrite (channel_result_http _ _ _ _ _ Hf Hok). eexists. split; [reflexivity|].
      unfold ErrResult. rewrite lookup_insert_eq. eauto. }
  destruct body as [msg|result].
  { rewrite (channel_result_invalid_json _ _ _ _ _ Hf Hok). eexists. split; [reflexivity|].
    unfold ErrResult. rewrite lookup_insert_eq. eauto. }
  destruct (get result "success") as [success|e] eqn:Hs.
  2:{ rewrite (channel_result_null _ _ _ _ _ _ Hf Hok Hs). eexists. split; [reflexivity|].
      unfold ErrResult. rewrite lookup_insert_eq. eauto. }
  rewrite (channel_result_json _ _ _ _ _ _ Hf Hok Hs).
  destruct (truthy success || negb (truthy (field result "error"))).
  - eexists. split; [reflexivity|].
    destruct (spread (field result "data") !! "success") as [v|] eqn:Hd.
    + erewrite lookup_union_Some_l by exact Hd. eauto.
    + rewrite lookup_union_r by exact Hd. rewrite lookup_singleton_eq. eauto.
  - eexists. split; [reflexivity|]. unfold ErrResult. rewrite lookup_insert_eq. eauto.
Qed.

(** X10. The channel always returns an object that has a success field, so
    reading the fields of its result never throws. *)
Theorem callRustCommand_returns_object (fetch : Fetch) (command : string)
    (params : value) (app : App) (k : string) :
  exists fields,
    fst (callRustCommand fetch command params app) = Normal (VObj fields)
    /\ is_Some (fields !! "success")
    /\ get (VObj fields) k = Normal (default VUndefined (fields !! k)).
Proof.
  destruct (callRustCommand_run fetch command params app) as [errs ->].
  destruct (channel_result_object fetch command params) as (fields & -> & Hs).
  exists fields. repeat split. exact Hs.
Qed.

(** X11. A success field inside the data of an answer replaces the answer's
    own flag: an answer that reports a failure without an error text, and
    whose data has a true success field, comes out of the channel as a
    success. *)
Theorem callRustCommand_data_overrides_success (fetch : Fetch) (command : string)
    (params : value) (status : Z) (fields data : gmap string value) (v : value) :
  fetch command params = Response status (Json (VObj fields)) ->
  response_ok status = true ->
  fields !! "data" = Some (VObj data) ->
  data !! "success" = Some v ->
  truthy (default VUndefined (fields !! "success")) = true
  \/ truthy (default VUndefined (fields !! "error")) = false ->
  field (channel_result fetch command params) "success" = v.
Proof.
  intros Hf Hok Hdata Hv Hcase.
  rewrite (channel_result_json _ _ _ _ _ (default VUndefined (fields !! "success"))
             Hf Hok eq_refl).
  change (field (VObj fields) "error") with (default VUndefined (fields !! "error")).
  change (field (VObj fields) "data") with (default VUndefined (fields !! "data")).
  assert (Hc : truthy (default VUndefined (fields !! "success"))
               || negb (truthy (default VUndefined (fields !! "error"))) = true).
  { destruct Hcase as [->| ->]; [reflexivity | apply orb_true_r]. }
  rewrite Hc, Hdata. cbn [default spread]. unfold field, get.
  erewrite lookup_union_Some_l by exact Hv. reflexivity.
Qed.

Lemma callRustCommand_data_overrides_success_witness :
  isOk (channel_result
          (fun _ _ => Response 200 (Json (VObj {["success" := VBool false;
                         "data" := VObj {["success" := VBool true]}]})))
          "start-server" VNull) = true.
Proof.
  unfold isOk.
  rewrite (callRustCommand_data_overrides_success _ "start-server" VNull 200
             {["success" := VBool false; "data" := VObj {["success" := VBool true]}]}
             {["success" := VBool true]} (VBool true));
    try reflexivity.
  right. reflexivity.
Defined.

(** ** Host controller *)

Lemma render_items_entries elems :
  Forall media_entry elems -> render_items ["name"; "size"; "name"] elems = Normal tt.
Proof.
  induction 1 as [|e elems (o & n & z & -> & Hn & Hz) _ IH]; [reflexivity|].
  cbn [render_items render_item]. unfold get. rewrite Hn, Hz. cbn. exact IH.
Qed.

Lemma render_list_entries what elems :
  Forall media_entry elems ->
  render_list what ["name"; "size"; "name"] (VArr elems)
  = Normal (match elems with [] => EmptyState | _ => Items elems end).
Proof.
  intros H. unfold render_list, get. cbn [String.eqb].
  change (String.eqb "length" "length") with true. cbv iota.
  rewrite (render_items_entries _ H).
  destruct elems; reflexivity.
Qed.

(** Running [startServer] on inputs that pass the three checks. *)
Ltac start_valid Hport Hdir Hvalid :=
  unfold startServer; unfold_ui; unfold_monad; cbn;
  rewrite (proj2 (String.eqb_neq _ _) Hport); cbn;
  rewrite (proj2 (String.eqb_neq _ _) Hdir); cbn;
  rewrite Hvalid; cbn;
  call_channel; cbn.

(** X12. When the inputs are valid and the channel answers with a success
    whose listing is made of entries with a name that is a string and a size
    that is a number, [startServer] sends one start-server command with the
    port that [parseInt] reads and the cleaned directory, turns hosting on,
    and replaces the loaded files by the listing of the answer (the empty
    list when the answer has none); the connected clients stay as they
    were. *)
Theorem startServer_ok_replaces_listing (fetch : Fetch) (app : App) (elems : list value) :
  let directory := cleanDirectory (mediaDirectoryInput app) in
  let payload := VObj {["port" := parseInt (serverPortInput app);
                        "directory" := VStr directory]} in
  let response := channel_result fetch "start-server" payload in
  serverPortInput app <> EmptyString ->
  directory <> EmptyString ->
  isValidDirectoryPath directory = true ->
  isOk response = true ->
  or_else (field response "files") (VArr []) = VArr elems ->
  Forall media_entry elems ->
  let app' := snd (startServer fetch app) in
  fst (startServer fetch app) = Normal tt
  /\ requests app' = requests app ++ [("start-server", payload)]
  /\ serverRunning app' = true
  /\ serverStatus app' = true
  /\ loadedFiles app' = VArr elems
  /\ loadedFilesContainer app' = match elems with [] => EmptyState | _ => Items elems end
  /\ connectedClients app' = connectedClients app
  /\ last (statusLog app') = Some ("Server started successfully", "success")
  /\ last (notifications app') = Some ("Server started successfully", "success").
Proof.
  intros directory payload response Hport Hdir Hvalid Hok Hfiles Hobjects.
  subst directory. start_valid Hport Hdir Hvalid. fold payload response.
  unfold isOk, field in Hok.
  destruct (get response "success") as [success|e] eqn:Hs; [|discriminate].
  cbn. rewrite Hok. cbn.
  rewrite (get_field _ "files" _ _ Hs). cbn. rewrite Hfiles.
  rewrite (render_list_entries _ _ Hobjects). cbn.
  rewrite !last_snoc. repeat split.
Qed.

Lemma startServer_ok_replaces_listing_witness :
  let listing := [VObj {["name" := VStr "a.mp4"; "size" := VNum 2048]}] in
  let fetch : Fetch := fun _ _ =>
    Response 200 (Json (VObj {["success" := VBool true;
                               "data" := VObj {["files" := VArr listing]}]})) in
  loadedFiles (snd (startServer fetch readyApp)) = VArr listing
  /\ loadedFilesContainer (snd (startServer fetch readyApp)) = Items listing.
Proof.
  intros listing fetch.
  destruct (startServer_ok_replaces_listing fetch readyApp listing)
    as (_ & _ & _ & _ & Hfiles & Hview & _); try (vm_compute; reflexivity).
  - discriminate.
  - vm_compute. discriminate.
  - constructor; [|constructor]. eexists _, "a.mp4", 2048%Z. repeat split.
  - split; [exact Hfiles | exact Hview].
Defined.

(** X13. Hosting is switched on before the listing is shown: when the answer
    is a success but its listing cannot be rendered (it is not an array, or
    it has an [undefined] or [null] entry, or an entry whose name or size
    cannot be converted), [startServer] still returns
    normally with hosting on and the listing stored, the list on the page is
    left as it was, and the failure is reported as an error. *)
Theorem startServer_ok_unrenderable_listing (fetch : Fetch) (app : App) (e : Exn) :
  let directory := cleanDirectory (mediaDirectoryInput app) in
  let payload := VObj {["port" := parseInt (serverPortInput app);
                        "directory" := VStr directory]} in
  let response := channel_result fetch "start-server" payload in
  let files := or_else (field response "files") (VArr []) in
  serverPortInput app <> EmptyString ->
  directory <> EmptyString ->
  isValidDirectoryPath directory = true ->
  isOk response = true ->
  render_list "this.loadedFiles" ["name"; "size"; "name"] files = Throw e ->
  let app' := snd (startServer fetch app) in
  fst (startServer fetch app) = Normal tt
  /\ serverRunning app' = true
  /\ serverStatus app' = true
  /\ loadedFiles app' = files
  /\ loadedFilesContainer app' = loadedFilesContainer app
  /\ last (statusLog app') = Some ("Failed to start server: " +:+ message e, "error")
  /\ last (notifications app') = Some ("Failed to start server: " +:+ message e, "error").
Proof.
  intros directory payload response files Hport Hdir Hvalid Hok Hrender.
  subst directory. start_valid Hport Hdir Hvalid. fold payload response.
  unfold isOk, field in Hok.
  destruct (get response "success") as [success|e'] eqn:Hs; [|discriminate].
  cbn. rewrite Hok. cbn.
  rewrite (get_field _ "files" _ _ Hs). cbn. fold files. rewrite Hrender. cbn.
  rewrite !last_snoc. repeat split.
Qed.

Lemma startServer_ok_unrenderable_listing_witness :
  let fetch : Fetch := fun _ _ =>
    Response 200 (Json (VObj {["success" := VBool true;
                               "data" := VObj {["files" := VArr [VNull]]}]})) in
  serverRunning (snd (startServer fetch readyApp)) = true
  /\ loadedFilesContainer (snd (startServer fetch readyApp)) = EmptyState
  /\ has_severity "error" (notifications (snd (startServer fetch readyApp))) = true.
Proof.
  intros fetch.
  destruct (startServer_ok_unrenderable_listing fetch readyApp
              (cannot_read VNull "name"))
    as (_ & Hrun & _ & _ & Hview & _ & _); try (vm_compute; reflexivity).
  - discriminate.
  - vm_compute. discriminate.
  - split; [exact Hrun|]. split; [exact Hview | vm_compute; reflexivity].
Defined.

(** The text that a handler reports for a failure of the channel: the
    error of the answer when it is a string that is not empty, the handler's
    own text when the answer has no error. *)
Lemma reported_reason err generic :
  let reason := match ToString (or_else err (VStr generic)) with
                | Normal text => text
                | Throw e => message e
                end in
  (forall s, err = VStr s -> s <> EmptyString -> reason = s)
  /\ (truthy err = false -> reason = generic).
Proof.
  split.
  - intros s -> Hs. unfold or_else, truthy.
    apply String.eqb_neq in Hs. rewrite Hs. reflexivity.
  - intros Hfalse. unfold or_else. rewrite Hfalse. reflexivity.
Qed.

(** X14. When the channel answers stop-server with a failure, [stopServer]
    returns normally, leaves the page and the hosting state as they were,
    and reports one error, in the log and as a notification: the error of the
    answer when that is a string, Failed to stop server when the answer has
    none. *)
Theorem stopServer_err_keeps_state (fetch : Fetch) (app : App) :
  let response := channel_result fetch "stop-server" (VObj ∅) in
  isErr response = true ->
  let app' := snd (stopServer fetch app) in
  fst (stopServer fetch app) = Normal tt
  /\ screen app' = screen app
  /\ exists reason,
       let text := "Failed to stop server: " +:+ reason in
       statusLog app' = statusLog app ++ [("Stopping server...", "info"); (text, "error")]
       /\ notifications app' = notifications app ++ [(text, "error")]
       /\ (forall s, field response "error" = VStr s -> s <> EmptyString -> reason = s)
       /\ (truthy (field response "error") = false -> reason = "Failed to stop server").
Proof.
  intros response Herr. unfold stopServer. unfold_ui. unfold_monad. cbn.
  call_channel. cbn. fold response.
  destruct (channel_result_object fetch "stop-server" (VObj ∅)) as (fields & Hobj & _).
  fold response in Hobj. unfold isErr, isOk in Herr. apply negb_true_iff in Herr.
  rewrite Hobj in *. unfold field in *. unfold get in *. cbn.
  rewrite Herr. cbn.
  pose proof (reported_reason (default VUndefined (fields !! "error"))
                "Failed to stop server") as Hreason. cbn zeta in Hreason.
  destruct (ToString (or_else (default VUndefined (fields !! "error"))
                              (VStr "Failed to stop server"))) as [reason|e]; cbn;
    rewrite <- !app_assoc; (split; [reflexivity|]); (split; [reflexivity|]);
    eexists; (split; [reflexivity|]); (split; [reflexivity|]); exact Hreason.
Qed.

Lemma stopServer_err_keeps_state_witness :
  hosting (snd (stopServer silentFailure hostingApp)) = hosting hostingApp
  /\ last (statusLog (snd (stopServer silentFailure hostingApp)))
     = Some ("Failed to stop server: Failed to stop server", "error").
Proof.
  destruct (stopServer_err_keeps_state silentFailure hostingApp)
    as (_ & Hscreen & reason & Hlog & _ & _ & Hgeneric); [vm_compute; reflexivity|].
  split; [vm_compute; reflexivity|]. rewrite Hlog.
  rewrite Hgeneric by (vm_compute; reflexivity). reflexivity.
Defined.

(** X15. [streamToClients] never throws and never changes the host, the
    inputs or the player: it sends one stream-media command with the file
    name, then reports a success, or one error: the error of the answer when
    that is a string, Failed to stream media when the answer has none. *)
Theorem streamToClients_only_reports (fetch : Fetch) (filename : string) (app : App) :
  let params := VObj {["filename" := VStr filename]} in
  let response := channel_result fetch "stream-media" params in
  let app' := snd (streamToClients fetch filename app) in
  let attempt := ("Streaming " +:+ filename +:+ " to all clients", "info") in
  fst (streamToClients fetch filename app) = Normal tt
  /\ requests app' = requests app ++ [("stream-media", params)]
  /\ screen app' = screen app
  /\ (isOk response = true ->
      statusLog app' = statusLog app ++ [attempt; ("Started streaming " +:+ filename, "success")]
      /\ notifications app'
         = notifications app ++ [("Streaming " +:+ filename +:+ " to clients", "success")])
  /\ (isOk response = false ->
      exists reason,
        let text := "Failed to stream media: " +:+ reason in
        statusLog app' = statusLog app ++ [attempt; (text, "error")]
        /\ notifications app' = notifications app ++ [(text, "error")]
        /\ (forall s, field response "error" = VStr s -> s <> EmptyString -> reason = s)
        /\ (truthy (field response "error") = false -> reason = "Failed to stream media")).
Proof.
  intros params response. unfold streamToClients. unfold_ui. unfold_monad. cbn.
  call_channel. cbn. fold params response.
  destruct (channel_result_object fetch "stream-media" params) as (fields & Hobj & _).
  fold response in Hobj. rewrite Hobj. unfold isOk, field, get. cbn.
  destruct (truthy (default VUndefined (fields !! "success"))); cbn.
  - rewrite <- !app_assoc. repeat split; discriminate.
  - pose proof (reported_reason (default VUndefined (fields !! "error"))
                  "Failed to stream media") as Hreason. cbn zeta in Hreason.
    destruct (ToString (or_else (default VUndefined (fields !! "error"))
                                (VStr "Failed to stream media"))) as [reason|e]; cbn;
      rewrite <- !app_assoc; (split; [reflexivity|]); (split; [reflexivity|]);
      (split; [reflexivity|]); (split; [discriminate|]); intros _;
      eexists; (split; [reflexivity|]); (split; [reflexivity|]); exact Hreason.
Qed.

Lemma streamToClients_only_reports_witness :
  let app' := snd (streamToClients unreachable "a.mp4" hostingApp) in
  screen app' = screen hostingApp
  /\ last (statusLog app') = Some ("Failed to stream media: Failed to fetch", "error").
Proof.
  intros app'.
  destruct (streamToClients_only_reports unreachable "a.mp4" hostingApp)
    as (_ & _ & Hscreen & _ & Herr).
  split; [exact Hscreen|].
  destruct (Herr ltac:(vm_compute; reflexivity)) as (reason & Hlog & _ & Hstring & _).
  unfold app'. rewrite Hlog.
  rewrite (Hstring "Failed to fetch") by (vm_compute; first [reflexivity | discriminate]).
  reflexivity.
Defined.

(** X16. The test directory always passes the checks: after [useTestMedia],
    whatever the directory field held, [startServer] with a port sends one
    start-server command for f:\software\test_media. *)
Theorem useTestMedia_then_startServer (fetch : Fetch) (app : App) :
  serverPortInput app <> EmptyString ->
  let chosen := snd (useTestMedia app) in
  requests (snd (startServer fetch chosen))
  = requests app ++ [("start-server",
                       VObj {["port" := parseInt (serverPortInput app);
                              "directory" := VStr "f:\software\test_media"]})].
Proof.
  intros Hport chosen.
  assert (Hdir : mediaDirectoryInput chosen = "f:\software\test_media") by reflexivity.
  assert (Hp : serverPortInput chosen = serverPortInput app) by reflexivity.
  assert (Hreq : requests chosen = requests app) by reflexivity.
  clearbody chosen.
  unfold startServer. unfold_ui. unfold_monad. cbn.
  rewrite Hdir, Hp.
  change (cleanDirectory "f:\software\test_media") with "f:\software\test_media".
  rewrite (proj2 (String.eqb_neq _ _) Hport). cbn.
  change (String.eqb "f:\software\test_media" EmptyString) with false.
  change (isValidDirectoryPath "f:\software\test_media") with true. cbn.
  call_channel. cbn.
  match goal with
  | |- context [channel_result fetch "start-server" ?p] =>
      destruct (channel_result_object fetch "start-server" p) as (fields & -> & _)
  end.
  unfold get. cbn.
  destruct (truthy (default VUndefined (fields !! "success"))); cbn;
    [|destruct (ToString _); cbn; rewrite Hreq; reflexivity].
  destruct (render_list _ _ _); cbn; rewrite Hreq; reflexivity.
Qed.

Lemma useTestMedia_then_startServer_witness :
  requests (snd (startServer accepting (snd (useTestMedia initialApp))))
  = [("start-server", VObj {["port" := VNum 8080;
                             "directory" := VStr "f:\software\test_media"]})].
Proof.
  exact (useTestMedia_then_startServer accepting initialApp ltac:(discriminate)).
Defined.

(** ** Media player *)

(** X17. Without a video or audio element in the container (the placeholder,
    a still image, or nothing), the three controls do nothing at all: the
    state, the log included, is as before. *)
Theorem controls_inert_without_media (app : App) :
  querySelector_media (mediaPlayerContainer app) = None ->
  playMedia app = (Normal tt, app)
  /\ pauseMedia app = (Normal tt, app)
  /\ stopMedia app = (Normal tt, app).
Proof.
  intros H. unfold playMedia, pauseMedia, stopMedia. unfold_monad. rewrite H.
  repeat split.
Qed.

Lemma controls_inert_without_media_witness :
  let shown := snd (requestMedia (delivering (payload "a.png" "iVBORw==" "image"))
                                 "a.png" initialApp) in
  stopMedia shown = (Normal tt, shown).
Proof.
  intros shown. apply (controls_inert_without_media shown). reflexivity.
Defined.

(** X18. On a video or audio element, stop pauses it and rewinds it to 0,
    pause keeps its position, play resumes it; none of them changes the
    element's source or type, and each adds one line to the log. *)
Theorem controls_on_media (app : App) (m : MediaElement) :
  mediaPlayerContainer app = Media m ->
  let stopped := snd (stopMedia app) in
  let paused_app := snd (pauseMedia app) in
  mediaPlayerContainer stopped = Media (mkMedia (tag m) (src m) (mime m) true 0)
  /\ mediaPlayerContainer paused_app
     = Media (mkMedia (tag m) (src m) (mime m) true (currentTime m))
  /\ mediaPlayerContainer (snd (playMedia paused_app))
     = Media (mkMedia (tag m) (src m) (mime m) false (currentTime m))
  /\ mediaPlayerContainer (snd (playMedia stopped))
     = Media (mkMedia (tag m) (src m) (mime m) false 0)
  /\ mediaPlayerContainer (snd (stopMedia stopped)) = mediaPlayerContainer stopped
  /\ statusLog stopped = statusLog app ++ [("Media playback stopped", "info")].
Proof.
  intros H. unfold playMedia, pauseMedia, stopMedia. unfold_ui. unfold_monad.
  rewrite H. cbn. repeat split.
Qed.

Lemma controls_on_media_witness :
  let playing := snd (requestMedia (delivering (payload "song.ogg" "T2dnUw==" "audio"))
                                   "song.ogg" initialApp) in
  isPlaying playing = true
  /\ isPlaying (snd (stopMedia playing)) = false
  /\ isPlaying (snd (playMedia (snd (stopMedia playing)))) = true.
Proof.
  intros playing.
  destruct (controls_on_media playing (autoplay_element true TagAudio 0 "audio/ogg") eq_refl)
    as (Hstop & _ & _ & Hplay & _).
  unfold isPlaying. rewrite Hstop, Hplay. repeat split.
Defined.

(** [loadMediaInPlayer] either fails and changes nothing, or creates one
    blob, shows the content and enables the controls. *)
Lemma loadMediaInPlayer_atomic mediaData app :
  (exists e, loadMediaInPlayer mediaData app = (Throw e, app))
  \/ (exists blob content,
        loadMediaInPlayer mediaData app
        = (Normal tt,
           set_playerControls true
             (set_mediaPlayerContainer content (set_blobs (blobs app ++ [blob]) app)))).
Proof.
  unfold loadMediaInPlayer, createObjectURL. unfold_ui. unfold_monad.
  destruct (destructured mediaData "filename" "mediaData"); cbn; [|left; eauto].
  destruct (get mediaData "filename") as [filename|e]; cbn; [|left; eauto].
  destruct (get mediaData "data") as [data|e]; cbn; [|left; eauto].
  destruct (get mediaData "mediaType") as [mediaType|e]; cbn; [|left; eauto].
  destruct (ToString data) as [encoded|e]; cbn; [|left; eauto].
  destruct (atob encoded) as [bytes|]; cbn; [|left; eauto].
  destruct (getMimeType mediaType filename) as [type|e] eqn:Hmime; cbn; [|left; eauto].
  destruct (is_string mediaType "video"); cbn; [right; eauto|].
  destruct (is_string mediaType "audio"); cbn; [right; eauto|].
  destruct (is_string mediaType "image"); cbn; [|right; eauto].
  destruct filename as [| | | | | |shown| |];
    try (unfold getMimeType in Hmime; discriminate).
  change (ToString (VStr shown)) with (@Normal string shown). cbn. right; eauto.
Qed.

(** X19. [requestMedia] never throws, and sends one request-media command.
    Either it reports an error and leaves the player, the blobs and the rest
    of the page as they were, or it reports a success after adding one blob
    behind the earlier ones, which all stay, and enabling the controls. *)
Theorem requestMedia_all_or_nothing (fetch : Fetch) (filename : string) (app : App) :
  let app' := snd (requestMedia fetch filename app) in
  fst (requestMedia fetch filename app) = Normal tt
  /\ requests app' = requests app ++ [("request-media", VObj {["filename" := VStr filename]})]
  /\ ((screen app' = screen app
       /\ exists text,
            statusLog app' = statusLog app
                             ++ [("Requesting media: " +:+ filename, "info"); (text, "error")]
            /\ notifications app' = notifications app ++ [(text, "error")])
      \/ (exists blob,
            blobs app' = blobs app ++ [blob]
            /\ playerControls app' = true
            /\ hosting app' = hosting app
            /\ statusLog app' = statusLog app
                 ++ [("Requesting media: " +:+ filename, "info");
                     ("Media received: " +:+ filename, "success")]
            /\ notifications app'
               = notifications app ++ [("Media loaded: " +:+ filename, "success")])).
Proof.
  unfold requestMedia. unfold_ui. unfold_monad. cbn.
  call_channel. cbn.
  destruct (channel_result_object fetch "request-media"
              (VObj {["filename" := VStr filename]})) as (fields & -> & _).
  unfold get. cbn.
  destruct (truthy (default VUndefined (fields !! "success"))); cbn.
  - match goal with
    | |- context [loadMediaInPlayer ?md ?a] =>
        destruct (loadMediaInPlayer_atomic md a) as [(e & ->)|(blob & content & ->)]
    end; cbn.
    + split; [reflexivity|]. split; [reflexivity|]. left. split; [reflexivity|].
      eexists. rewrite <- !app_assoc. split; reflexivity.
    + split; [reflexivity|]. split; [reflexivity|]. right.
      exists blob. rewrite <- !app_assoc. repeat split.
  - destruct (ToString _); cbn;
      (split; [reflexivity|]); (split; [reflexivity|]); left; (split; [reflexivity|]);
      eexists; rewrite <- !app_assoc; split; reflexivity.
Qed.

(** X20. Data that is not base64 is reported as an error: when the answer is a
    success whose payload cannot be decoded, [requestMedia] leaves the
    player and the blobs as they were, creates no element, and reports the
    failure, with the message that the browser gives the exception of atob,
    instead of a success. *)
Theorem requestMedia_undecodable_data (fetch : Fetch) (filename : string) (app : App)
    (mediaData : gmap string value) (encoded : string) :
  let response := channel_result fetch "request-media"
                    (VObj {["filename" := VStr filename]}) in
  isOk response = true ->
  field response "mediaData" = VObj mediaData ->
  ToString (default VUndefined (mediaData !! "data")) = Normal encoded ->
  atob encoded = None ->
  let app' := snd (requestMedia fetch filename app) in
  fst (requestMedia fetch filename app) = Normal tt
  /\ screen app' = screen app
  /\ has_severity "success" (notifications app') = has_severity "success" (notifications app)
  /\ last (statusLog app')
     = Some ("Failed to request media: " +:+ atobFailure (browser app) encoded, "error").
Proof.
  intros response Hok Hmedia Hencoded Hdata.
  unfold requestMedia. unfold_ui. unfold_monad. cbn.
  call_channel. cbn. fold response.
  destruct (channel_result_object fetch "request-media"
              (VObj {["filename" := VStr filename]})) as (fields & Hobj & _).
  fold response in Hobj. unfold isOk, field in Hok, Hmedia. rewrite Hobj in *.
  unfold get in Hok, Hmedia |- *. cbn. rewrite Hok. cbn. rewrite Hmedia.
  unfold loadMediaInPlayer. unfold_monad. unfold get. cbn.
  rewrite Hencoded. cbn. rewrite Hdata. cbn.
  rewrite last_snoc. repeat split.
  unfold has_severity. rewrite existsb_app. cbn.
  change (String.eqb "error" "success") with false. cbn. apply orb_false_r.
Qed.

Lemma requestMedia_undecodable_data_witness :
  let app' := snd (requestMedia (delivering (payload "a.mp4" "not base64!" "video")) "a.mp4"
                     initialApp) in
  screen app' = screen initialApp
  /\ last (statusLog app') = Some ("Failed to request media: Invalid character", "error").
Proof.
  destruct (requestMedia_undecodable_data
              (delivering (payload "a.mp4" "not base64!" "video")) "a.mp4" initialApp
              {["filename" := VStr "a.mp4"; "data" := VStr "not base64!";
                "mediaType" := VStr "video"]} "not base64!")
    as (_ & Hscreen & _ & Hlog); [vm_compute; reflexivity ..|].
  split; [exact Hscreen | exact Hlog].
Defined.

(** ** The directory field *)

Lemma quote_class_one s i :
  ends false quote_class s i
  = match s !! i with
    | Some c => if is_quote c then [S i] else []
    | None => []
    end.
Proof.
  cbn [ends quote_class]. unfold one, class_has, is_quote. cbn [existsb item_has xorb].
  destruct (s !! i) as [c|]; [|reflexivity].
  rewrite orb_false_r, (Ascii.eqb_sym _ c), (Ascii.eqb_sym "'" c). reflexivity.
Qed.

Lemma surroundingQuotes_ends s i :
  ends false (pattern surroundingQuotes) s i
  = flat_map (ends false quote_class s) (if (i =? 0)%nat then [i] else [])
    ++ flat_map (fun j => if (j =? length s)%nat then [j] else [])
                (ends false quote_class s i).
Proof. reflexivity. Qed.

(** Where the pattern of the surrounding quotes matches, after the start:
    at a quote that is the last character. *)
Lemma surroundingQuotes_later s i :
  0 < i ->
  ends false (pattern surroundingQuotes) s i
  = match s !! i with
    | Some c => if is_quote c && (S i =? length s)%nat then [S i] else []
    | None => []
    end.
Proof.
  intros Hi. rewrite surroundingQuotes_ends, quote_class_one.
  rewrite (proj2 (Nat.eqb_neq i 0)) by lia. cbn [flat_map app].
  destruct (s !! i) as [c|]; [|reflexivity].
  destruct (is_quote c); [|reflexivity]. cbn [flat_map andb].
  rewrite app_nil_r. reflexivity.
Qed.

Lemma delete_from_past_end re s : forall fuel i,
  length s <= i -> (forall j, length s <= j -> ends (ignoreCase re) (pattern re) s j = []) ->
  delete_from re s fuel i = [].
Proof.
  induction fuel as [|fuel IH]; intros i Hi Hends; [reflexivity|].
  cbn [delete_from]. rewrite (Hends i Hi).
  rewrite (proj2 (lookup_ge_None s i)) by lia. cbn.
  apply IH; [lia | exact Hends].
Qed.

Lemma strip_last_cons x rest :
  rest <> [] -> strip_last (x :: rest) = x :: strip_last rest.
Proof.
  intros Hrest. unfold strip_last. cbn [rev].
  destruct (rev rest) as [|c r] eqn:Hr.
  - apply (f_equal (@rev ascii)) in Hr. rewrite rev_involutive in Hr. contradiction.
  - cbn [app]. destruct (is_quote c); [|reflexivity]. rewrite rev_app_distr. reflexivity.
Qed.

Lemma delete_surroundingQuotes_later s : forall fuel i,
  0 < i -> length s - i < fuel ->
  delete_from surroundingQuotes s fuel i = strip_last (drop i s).
Proof.
  assert (Hpast : forall j, length s <= j ->
            ends (ignoreCase surroundingQuotes) (pattern surroundingQuotes) s j = []).
  { intros j Hj. destruct j as [|j].
    - destruct s; [reflexivity | cbn in Hj; lia].
    - rewrite surroundingQuotes_later by lia.
      rewrite (proj2 (lookup_ge_None s (S j))) by lia. reflexivity. }
  induction fuel as [|fuel IH]; intros i Hi Hfuel; [lia|].
  cbn [delete_from]. cbn [ignoreCase]. rewrite surroundingQuotes_later by exact Hi.
  destruct (s !! i) as [c|] eqn:Hc.
  - pose proof (lookup_lt_Some _ _ _ Hc) as Hlt.
    rewrite (drop_S _ _ _ Hc).
    destruct (is_quote c && (S i =? length s)%nat) eqn:Hq.
    + apply andb_true_iff in Hq as [Hq Hlast]. apply Nat.eqb_eq in Hlast.
      rewrite (proj2 (Nat.ltb_lt i (S i))) by lia.
      rewrite delete_from_past_end by (try exact Hpast; lia).
      rewrite Hlast, drop_all. unfold strip_last. cbn. rewrite Hq. reflexivity.
    + cbn [option_list app].
      destruct (Nat.eq_dec (S i) (length s)) as [Hlast|Hmore].
      * rewrite delete_from_past_end by (try exact Hpast; lia).
        rewrite Hlast, drop_all. unfold strip_last. cbn.
        rewrite Hlast, Nat.eqb_refl, andb_true_r in Hq. rewrite Hq. reflexivity.
      * rewrite IH by lia. symmetry. apply strip_last_cons.
        intros Hnil. apply (f_equal (@length ascii)) in Hnil.
        rewrite length_drop in Hnil. cbn in Hnil. lia.
  - pose proof (proj1 (lookup_ge_None s i) Hc) as Hge.
    cbn [option_list app]. rewrite delete_from_past_end by (try exact Hpast; lia).
    rewrite drop_ge by lia. reflexivity.
Qed.

Lemma delete_surroundingQuotes s :
  delete_from surroundingQuotes s (S (length s)) 0 = strip_last (strip_first s).
Proof.
  cbn [delete_from ignoreCase]. rewrite surroundingQuotes_ends, quote_class_one.
  cbn [Nat.eqb flat_map]. rewrite quote_class_one, app_nil_r.
  destruct s as [|c s]; [reflexivity|]. cbn [lookup list_lookup strip_first].
  destruct (is_quote c) eqn:Hq.
  - cbn [app flat_map]. change (0 <? 1)%nat with true. cbv iota.
    rewrite delete_surroundingQuotes_later by (cbn; lia). reflexivity.
  - cbn [flat_map app option_list].
    rewrite delete_surroundingQuotes_later by (cbn; lia). cbn [drop].
    destruct s as [|d s].
    + unfold strip_last. cbn. rewrite Hq. reflexivity.
    + symmetry. apply strip_last_cons. discriminate.
Qed.

(** X21. The directory that [startServer] uses is the directory field,
    trimmed, without its first character when that is a quote and without
    its last character when that is a quote: no other character is removed,
    and the result is not trimmed again. *)
Theorem cleanDirectory_strips_one_quote_each_end (raw : string) :
  cleanDirectory raw = strip_quotes (JS.trim raw).
Proof.
  unfold cleanDirectory, delete_all, strip_quotes.
  rewrite delete_surroundingQuotes. reflexivity.
Qed.

(** ** Decoding *)

Lemma b64_value_bound c v : b64_value c = Some v -> (v < 64)%N.
Proof.
  destruct c as [[] [] [] [] [] [] [] []]; vm_compute; intros H;
    try discriminate; injection H as <-; reflexivity.
Qed.

Lemma b64_values_bound s : forall vs,
  b64_values s = Some vs -> Forall (fun v => (v < 64)%N) vs.
Proof.
  induction s as [|c s IH]; intros vs H; cbn [b64_values] in H.
  - injection H as <-. constructor.
  - destruct (b64_value c) as [v|] eqn:Hv; [|discriminate].
    destruct (b64_values s) as [vs'|]; [|discriminate].
    injection H as <-. constructor; [exact (b64_value_bound _ _ Hv) | apply IH; reflexivity].
Qed.

Lemma b64_sextets a b c d :
  (a < 64)%N -> (b < 64)%N -> (c < 64)%N -> (d < 64)%N ->
  (a * 4 + b / 16 < 256)%N /\ ((b mod 16) * 16 + c / 4 < 256)%N
  /\ ((c mod 4) * 64 + d < 256)%N.
Proof.
  intros Ha Hb Hc Hd.
  assert (b / 16 < 4)%N by (apply N.Div0.div_lt_upper_bound; lia).
  assert (c / 4 < 16)%N by (apply N.Div0.div_lt_upper_bound; lia).
  assert (b mod 16 < 16)%N by (apply N.mod_lt; lia).
  assert (c mod 4 < 4)%N by (apply N.mod_lt; lia).
  lia.
Qed.

Lemma b64_bytes_bound : forall n vs,
  length vs <= n ->
  Forall (fun v => (v < 64)%N) vs ->
  Forall (fun b => (b < 256)%N) (b64_bytes vs) /\ length (b64_bytes vs) <= length vs.
Proof.
  induction n as [|n IH]; intros vs Hn Hvs.
  { destruct vs; [cbn; split; [constructor | lia] | cbn in Hn; lia]. }
  destruct vs as [|a [|b [|c [|d rest]]]]; cbn [b64_bytes length];
    try solve [split; [constructor | lia]].
  - inversion Hvs as [|? ? Ha H1]; subst. inversion H1 as [|? ? Hb H2]; subst.
    destruct (b64_sextets a b 0 0 Ha Hb eq_refl eq_refl) as (B1 & _ & _).
    split; [|lia]. constructor; [exact B1 | constructor].
  - inversion Hvs as [|? ? Ha H1]; subst. inversion H1 as [|? ? Hb H2]; subst.
    inversion H2 as [|? ? Hc H3]; subst.
    destruct (b64_sextets a b c 0 Ha Hb Hc eq_refl) as (B1 & B2 & _).
    split; [|lia]. constructor; [exact B1|]. constructor; [exact B2 | constructor].
  - inversion Hvs as [|? ? Ha H1]; subst. inversion H1 as [|? ? Hb H2]; subst.
    inversion H2 as [|? ? Hc H3]; subst. inversion H3 as [|? ? Hd H4]; subst.
    destruct (IH rest) as [Hrest Hlen]; [cbn in Hn; lia | exact H4 |].
    destruct (b64_sextets a b c d Ha Hb Hc Hd) as (B1 & B2 & B3).
    split; [|lia]. constructor; [exact B1|]. constructor; [exact B2|].
    constructor; [exact B3 | exact Hrest].
Qed.

Lemma filter_twice {A : Type} (p : A -> bool) (l : list A) :
  List.filter p (List.filter p l) = List.filter p l.
Proof.
  induction l as [|x l IH]; [reflexivity|]. cbn [List.filter].
  destruct (p x) eqn:Hx; [|exact IH]. cbn [List.filter]. rewrite Hx, IH. reflexivity.
Qed.

(** X22. What [atob] decodes fits: every decoded value is a byte, and there
    are no more bytes than characters in the input.  White space in the
    input is skipped: an input and the same input without its tabs, line
    feeds, form feeds, carriage returns and spaces decode alike. *)
Theorem atob_bytes (data : string) :
  (forall bytes, atob data = Some bytes ->
     Forall (fun b => (b < 256)%N) bytes /\ length bytes <= String.length data)
  /\ atob (string_of_list_ascii
             (List.filter (fun c => negb (b64_space c)) (list_ascii_of_string data)))
     = atob data.
Proof.
  split.
  - intros bytes H. unfold atob in H.
    set (s := List.filter _ (list_ascii_of_string data)) in H.
    assert (Hs : length s <= String.length data).
    { rewrite <- length_list_ascii_of_string. apply List.filter_length_le. }
    assert (Hp : length (strip_padding s) <= length s).
    { unfold strip_padding. destruct (length s mod 4 =? 0)%nat; [|lia].
      pose proof (length_rev s) as Hr. destruct (rev s) as [|c r]; [lia|].
      cbn [length] in Hr.
      repeat match goal with
             | |- context [match ?x with _ => _ end] => destruct x
             end; rewrite ?length_rev; cbn [length] in *; lia. }
    destruct (length (strip_padding s) mod 4 =? 1)%nat; [discriminate|].
    destruct (b64_values (strip_padding s)) as [vs|] eqn:Hvs; [|discriminate].
    injection H as <-.
    assert (Hlen : length vs = length (strip_padding s)).
    { clear -Hvs. revert vs Hvs. induction (strip_padding s) as [|c l IH]; intros vs H.
      - injection H as <-. reflexivity.
      - cbn [b64_values] in H. destruct (b64_value c); [|discriminate].
        destruct (b64_values l) as [vs'|]; [|discriminate].
        injection H as <-. cbn. rewrite (IH vs' eq_refl). reflexivity. }
    destruct (b64_bytes_bound (length vs) vs (le_n _) (b64_values_bound _ _ Hvs)) as [Hb Hl].
    split; [exact Hb | lia].
  - unfold atob. rewrite list_ascii_of_string_of_list_ascii, filter_twice. reflexivity.
Qed.

Lemma atob_bytes_witness :
  atob "T2 dn Uw ==" = Some [79; 103; 103; 83]%N
  /\ Forall (fun b => (b < 256)%N) [79; 103; 103; 83]%N.
Proof.
  split; [reflexivity|].
  exact (proj1 (proj1 (atob_bytes "T2 dn Uw ==") _ eq_refl)).
Defined.

(** ** Peer controller *)

Ltac unfold_page :=
  unfold new_Error_page, host, try_catch_page, throw_page, lift_page, read_page, modify_page,
    updateClientStatus, mbind, mret, MPage_bind, MPage_ret in *.

(** Showing the available files either throws and changes nothing, or
    changes the list on the page only. *)
Lemma updateAvailableFiles_cases p :
  (exists e, updateAvailableFiles p = (Throw e, p))
  \/ (exists view, updateAvailableFiles p = (Normal tt, set_availableFilesContainer view p)).
Proof.
  unfold updateAvailableFiles. unfold_page. cbn.
  destruct (get (availableFiles p) "length") as [len|e]; [|left; eauto].
  destruct len as [| | |z| | | | |];
    try (destruct (availableFiles p); cbn; try destruct (render_names _); cbn;
         solve [left; eauto | right; eauto]).
  destruct z; destruct (availableFiles p); cbn; try destruct (render_names _); cbn;
    solve [left; eauto | right; eauto].
Qed.

Lemma render_names_strings elems :
  Forall (fun e => exists s, e = VStr s) elems -> render_names elems = Normal tt.
Proof.
  induction 1 as [|e elems [s ->] _ IH]; [reflexivity|].
  cbn [render_names]. change (ToString (VStr s)) with (@Normal string s). exact IH.
Qed.

Lemma updateAvailableFiles_array p elems :
  availableFiles p = VArr elems ->
  render_names elems = Normal tt ->
  updateAvailableFiles p
  = (Normal tt,
     set_availableFilesContainer
       (match elems with [] => EmptyState | _ => Items elems end) p).
Proof.
  intros H Hnames. unfold updateAvailableFiles. unfold_page. cbn. rewrite H.
  unfold get. change (String.eqb "length" "length") with true. cbv iota.
  destruct elems; [reflexivity|]. cbv iota. rewrite Hnames. reflexivity.
Qed.

(** X23. With an empty server address or an empty client id, [connectClient]
    sends nothing and writes nothing to the log: it shows one error
    notification and leaves everything else as it was. *)
Theorem connectClient_missing_field (fetch : Fetch) (p : Page) :
  serverAddressInput p = EmptyString \/ clientIdInput p = EmptyString ->
  connectClient fetch p
  = (Normal tt,
     set_base (set_notifications
                 (notifications (base p)
                  ++ [("Please fill in server address and client ID", "error")])
                 (base p)) p).
Proof.
  intros H. unfold connectClient. unfold_page. unfold_ui. unfold_monad. cbn.
  assert (Hc : String.eqb (serverAddressInput p) EmptyString
               || String.eqb (clientIdInput p) EmptyString = true).
  { destruct H as [-> | ->]; [reflexivity | apply orb_true_r]. }
  rewrite Hc. reflexivity.
Qed.

Lemma connectClient_missing_field_witness :
  let p := set_base (set_serverRunning true initialApp)
             {| base := initialApp; clientConnected := false; availableFiles := VArr [];
                selectedFiles := None; serverAddressInput := "127.0.0.1:8080";
                clientIdInput := EmptyString; clientStatus := false;
                availableFilesContainer := EmptyState;
                mediaDirectoryPlaceholder := EmptyString;
                mediaDirectoryFocused := false |} in
  requests (base (snd (connectClient accepting p))) = []
  /\ statusLog (base (snd (connectClient accepting p))) = statusLog initialApp.
Proof.
  intros p. rewrite (connectClient_missing_field accepting p (or_intror eq_refl)).
  split; reflexivity.
Defined.

Ltac call_channel_page :=
  match goal with
  | |- context [callRustCommand ?f ?c ?p ?a] =>
      let errs := fresh "errs" in
      let Hrun := fresh "Hrun" in
      destruct (callRustCommand_run f c p a) as [errs Hrun]; rewrite Hrun; clear Hrun;
      destruct (channel_result_object f c p) as (?fields & ?Hobj & _)
  end.

(** X24. [connectClient] with both fields filled in never throws and sends
    one connect-client command.  On a failure it leaves the client state as
    it was and reports the error; on a success whose listing is an array of
    file names (or is missing) it marks the client connected and replaces
    the available files by the listing.  In both cases the hosting state and
    the player are untouched. *)
Theorem connectClient_outcomes (fetch : Fetch) (p : Page) :
  serverAddressInput p <> EmptyString ->
  clientIdInput p <> EmptyString ->
  let params := VObj {["serverAddress" := VStr (serverAddressInput p);
                       "clientId" := VStr (clientIdInput p)]} in
  let response := channel_result fetch "connect-client" params in
  let p' := snd (connectClient fetch p) in
  fst (connectClient fetch p) = Normal tt
  /\ requests (base p') = requests (base p) ++ [("connect-client", params)]
  /\ screen (base p') = screen (base p)
  /\ (isErr response = true ->
      peer p' = peer p /\ has_severity "error" (notifications (base p')) = true)
  /\ (forall elems,
        isOk response = true ->
        or_else (field response "files") (VArr []) = VArr elems ->
        Forall (fun e => exists s, e = VStr s) elems ->
        peer p' = (true, VArr elems, true,
                   match elems with [] => EmptyState | _ => Items elems end)).
Proof.
  intros Haddr Hid params response.
  unfold connectClient. unfold_page. unfold_ui. unfold_monad. cbn.
  rewrite (proj2 (String.eqb_neq _ _) Haddr), (proj2 (String.eqb_neq _ _) Hid). cbn.
  call_channel_page. cbn. fold params response in Hobj |- *.
  unfold isErr, isOk, field. rewrite Hobj. unfold get. cbn.
  destruct (truthy (default VUndefined (fields !! "success"))) eqn:Hs; cbn.
  - match goal with
    | |- context [updateAvailableFiles ?q] =>
        pose proof (updateAvailableFiles_array q) as Harray;
        destruct (updateAvailableFiles_cases q) as [(e & He)|(view & Hv)]
    end.
    + rewrite He in *. cbn.
      split; [reflexivity|]. split; [reflexivity|]. split; [reflexivity|].
      split; [discriminate|]. intros elems _ Heq Hnames.
      cbn in Harray. specialize (Harray elems Heq (render_names_strings _ Hnames)).
      discriminate.
    + rewrite Hv in *. cbn.
      split; [reflexivity|]. split; [reflexivity|]. split; [reflexivity|].
      split; [discriminate|]. intros elems _ Heq Hnames.
      cbn in Harray. specialize (Harray elems Heq (render_names_strings _ Hnames)).
      injection Harray as Hview.
      unfold peer. cbn. rewrite Heq, Hview. reflexivity.
  - destruct (ToString _); cbn;
      (split; [reflexivity|]); (split; [reflexivity|]); (split; [reflexivity|]);
      (split; [|discriminate]); intros _; (split; [reflexivity|]);
      unfold has_severity; rewrite existsb_app; cbn;
      change (String.eqb "error" "error") with true; apply orb_true_r.
Qed.

Lemma connectClient_outcomes_witness :
  let fetch : Fetch := fun _ _ =>
    Response 200 (Json (VObj {["success" := VBool true;
                               "data" := VObj {["files" := VArr [VStr "a.mp4"]]}]})) in
  peer (snd (connectClient fetch initialPage))
  = (true, VArr [VStr "a.mp4"], true, Items [VStr "a.mp4"]).
Proof.
  intros fetch.
  destruct (connectClient_outcomes fetch initialPage) as (_ & _ & _ & _ & Hok);
    [discriminate | discriminate |].
  apply (Hok [VStr "a.mp4"]); [vm_compute; reflexivity ..|].
  constructor; [eexists; reflexivity | constructor].
Defined.

(** X25. [disconnectClient] never throws, sends one disconnect-client
    command, and never touches the hosting state or the blobs.  On a success
    it marks the client disconnected, empties the available files, and puts
    the player back to its placeholder with the controls disabled; on a
    failure it leaves the client state and the player as they were and
    reports the error. *)
Theorem disconnectClient_outcomes (fetch : Fetch) (p : Page) :
  let response := channel_result fetch "disconnect-client" (VObj ∅) in
  let p' := snd (disconnectClient fetch p) in
  fst (disconnectClient fetch p) = Normal tt
  /\ requests (base p') = requests (base p) ++ [("disconnect-client", VObj ∅)]
  /\ hosting (base p') = hosting (base p)
  /\ blobs (base p') = blobs (base p)
  /\ (isOk response = true ->
      peer p' = (false, VArr [], false, EmptyState)
      /\ mediaPlayerContainer (base p') = Placeholder
      /\ playerControls (base p') = false)
  /\ (isErr response = true ->
      peer p' = peer p
      /\ screen (base p') = screen (base p)
      /\ has_severity "error" (notifications (base p')) = true).
Proof.
  intros response.
  unfold disconnectClient, clearMediaPlayer. unfold_page. unfold_ui. unfold_monad. cbn.
  call_channel_page. cbn. fold response in Hobj |- *.
  unfold isErr, isOk, field. rewrite Hobj. unfold get. cbn.
  destruct (truthy (default VUndefined (fields !! "success"))) eqn:Hs; cbn.
  - match goal with
    | |- context [updateAvailableFiles ?q] =>
        rewrite (updateAvailableFiles_array q [] eq_refl eq_refl)
    end. cbn.
    repeat split; discriminate.
  - destruct (ToString _); cbn; repeat split; try discriminate;
      unfold has_severity; rewrite existsb_app; cbn;
      change (String.eqb "error" "error") with true; apply orb_true_r.
Qed.

Lemma disconnectClient_outcomes_witness :
  let watching :=
    set_base (snd (requestMedia (delivering (payload "song.ogg" "T2dnUw==" "audio"))
                                "song.ogg" initialApp)) initialPage in
  isPlaying (base watching) = true
  /\ mediaPlayerContainer (base (snd (disconnectClient accepting watching))) = Placeholder
  /\ length (blobs (base (snd (disconnectClient accepting watching)))) = 1.
Proof.
  intros watching. split; [reflexivity|].
  destruct (disconnectClient_outcomes accepting watching) as (_ & _ & _ & Hblobs & Hok & _).
  destruct Hok as (_ & Hplayer & _); [vm_compute; reflexivity|].
  split; [exact Hplayer|]. rewrite Hblobs. reflexivity.
Defined.

(** ** File pickers *)

#[local] Arguments filterPicked : simpl never.
#[local] Arguments filterMediaFiles : simpl never.
#[local] Arguments join : simpl never.

Lemma includes_char_elem c s :
  JS.includes_char c s = true <-> c ∈ list_ascii_of_string s.
Proof.
  induction s as [|d s IH]; cbn [JS.includes_char list_ascii_of_string].
  - split; [discriminate | intros H; inversion H].
  - rewrite orb_true_iff, IH, elem_of_cons. split.
    + intros [H|H]; [left; symmetry; apply Ascii.eqb_eq, H | right; exact H].
    + intros [->|H]; [left; apply Ascii.eqb_refl | right; exact H].
Qed.

Lemma includes_char_sublist c s1 s2 :
  list_ascii_of_string s1 `sublist_of` list_ascii_of_string s2 ->
  JS.includes_char c s2 = false -> JS.includes_char c s1 = false.
Proof.
  intros Hsub H2. destruct (JS.includes_char c s1) eqn:H1; [|reflexivity].
  apply includes_char_elem in H1. apply (elem_of_sublist _ _ _ H1) in Hsub.
  apply includes_char_elem in Hsub. congruence.
Qed.

Lemma has_separator_sublist s1 s2 :
  list_ascii_of_string s1 `sublist_of` list_ascii_of_string s2 ->
  has_separator s2 = false -> has_separator s1 = false.
Proof.
  unfold has_separator. intros Hsub H. apply orb_false_iff in H as [H1 H2].
  rewrite (includes_char_sublist _ _ _ Hsub H1), (includes_char_sublist _ _ _ Hsub H2).
  reflexivity.
Qed.

Lemma trimStart_sublist s :
  list_ascii_of_string (JS.trimStart s) `sublist_of` list_ascii_of_string s.
Proof.
  induction s as [|c s IH]; cbn [JS.trimStart]; [reflexivity|].
  destruct (JS.is_space c); [|reflexivity].
  cbn [list_ascii_of_string]. apply sublist_cons. exact IH.
Qed.

Lemma trimEnd_sublist s :
  list_ascii_of_string (JS.trimEnd s) `sublist_of` list_ascii_of_string s.
Proof.
  induction s as [|c s IH]; cbn [JS.trimEnd]; [reflexivity|].
  destruct (JS.trimEnd s) as [|d t].
  - destruct (JS.is_space c); cbn [list_ascii_of_string].
    + apply sublist_nil_l.
    + apply sublist_skip, sublist_nil_l.
  - cbn [list_ascii_of_string] in *. apply sublist_skip. exact IH.
Qed.

Lemma trim_sublist s :
  list_ascii_of_string (JS.trim s) `sublist_of` list_ascii_of_string s.
Proof.
  unfold JS.trim. etransitivity; [apply trimEnd_sublist | apply trimStart_sublist].
Qed.

Lemma strip_quotes_sublist s :
  list_ascii_of_string (strip_quotes s) `sublist_of` list_ascii_of_string s.
Proof.
  unfold strip_quotes. rewrite list_ascii_of_string_of_list_ascii.
  set (l := list_ascii_of_string s).
  assert (H1 : strip_first l `sublist_of` l).
  { destruct l as [|c l]; cbn; [reflexivity|].
    destruct (is_quote c); [apply sublist_cons|]; reflexivity. }
  assert (H2 : forall k, strip_last k `sublist_of` k).
  { intros k. unfold strip_last. destruct (rev k) as [|c r] eqn:Hr; [apply sublist_nil_l|].
    destruct (is_quote c); [|reflexivity].
    apply (f_equal (@rev ascii)) in Hr. rewrite rev_involutive in Hr. subst k.
    cbn [rev]. apply sublist_inserts_r. reflexivity. }
  etransitivity; [apply H2 | exact H1].
Qed.

Lemma cleanDirectory_sublist raw :
  list_ascii_of_string (JS.trim (cleanDirectory raw)) `sublist_of` list_ascii_of_string raw.
Proof.
  etransitivity; [apply trim_sublist|].
  unfold cleanDirectory, delete_all. rewrite delete_surroundingQuotes.
  etransitivity; [apply (strip_quotes_sublist (JS.trim raw)) | apply trim_sublist].
Qed.

(** A short name without separators does not pass the checks of
    [startServer], quoted and padded or not. *)
Lemma short_name_rejected raw :
  has_separator raw = false -> String.length raw < 10 ->
  isValidDirectoryPath (cleanDirectory raw) = false.
Proof.
  intros Hsep Hlen. pose proof (cleanDirectory_sublist raw) as Hsub.
  pose proof (has_separator_sublist _ _ Hsub Hsep) as Hsep'.
  apply sublist_length in Hsub. rewrite !length_list_ascii_of_string in Hsub.
  unfold isValidDirectoryPath.
  destruct (String.eqb (cleanDirectory raw) EmptyString); [reflexivity|].
  assert (Hrej : existsb (fun pattern =>
                            test pattern (JS.trim (cleanDirectory raw))
                            && (String.length (JS.trim (cleanDirectory raw)) <? 10)%nat)
                         invalidPatterns = true).
  { apply existsb_exists.
    exists (mkRegExp (cat [Bol; Star (Class true separators); Eol]) false). split.
    - unfold invalidPatterns. simpl. tauto.
    - rewrite (test_no_separator _ Hsep').
      rewrite (proj2 (Nat.ltb_lt _ _)) by lia. reflexivity. }
  rewrite Hrej. reflexivity.
Qed.

(** What [startServer] leaves when an input fails a check. *)
Lemma startServer_refused fetch app :
  serverPortInput app = EmptyString
  \/ cleanDirectory (mediaDirectoryInput app) = EmptyString
  \/ isValidDirectoryPath (cleanDirectory (mediaDirectoryInput app)) = false ->
  requests (snd (startServer fetch app)) = requests app
  /\ has_severity "error" (notifications (snd (startServer fetch app))) = true.
Proof.
  intros Hbad. unfold startServer. unfold_ui. unfold_monad. cbn.
  assert (Hsev : forall l text, has_severity "error" (l ++ [(text, "error")]) = true).
  { intros l text. unfold has_severity. rewrite existsb_app. cbn.
    change (String.eqb "error" "error") with true. apply orb_true_r. }
  destruct (String.eqb (serverPortInput app) EmptyString) eqn:Hport; cbn.
  { split; [reflexivity | apply Hsev]. }
  destruct (String.eqb (cleanDirectory (mediaDirectoryInput app)) EmptyString) eqn:Hdir; cbn.
  { split; [reflexivity | apply Hsev]. }
  destruct (isValidDirectoryPath (cleanDirectory (mediaDirectoryInput app))) eqn:Hvalid; cbn.
  2:{ split; [reflexivity | apply Hsev]. }
  apply String.eqb_neq in Hport, Hdir.
  destruct Hbad as [H|[H|H]]; congruence.
Qed.

Lemma split_first sep root tail :
  JS.includes_char sep root = false ->
  JS.split sep (root +:+ String sep tail) = root :: JS.split sep tail.
Proof.
  induction root as [|c root IH]; cbn [JS.includes_char]; intros H.
  - change (EmptyString +:+ String sep tail) with (String sep tail).
    cbn [JS.split]. rewrite Ascii.eqb_refl. reflexivity.
  - apply orb_false_iff in H as [Hc Hroot].
    change (String c root +:+ String sep tail) with (String c (root +:+ String sep tail)).
    cbn [JS.split]. rewrite Hc, (IH Hroot). reflexivity.
Qed.

Lemma filterPicked_files files :
  map file (filterPicked files) = filterMediaFiles (map file files).
Proof.
  unfold filterPicked, filterMediaFiles.
  induction files as [|f files IH]; cbn [List.filter map]; [reflexivity|].
  destruct (JS.includes mediaExtensions (extension (name (file f))));
    cbn [map]; rewrite IH; reflexivity.
Qed.

(** The directory field and the requests after a folder is picked. *)
Lemma folder_selection_root_state f others root tail p :
  webkitRelativePath (file f) = root +:+ "/" +:+ tail ->
  JS.includes_char "/" root = false ->
  mediaDirectoryInput (base (snd (handleFileSelection (f :: others) "directory" p))) = root
  /\ requests (base (snd (handleFileSelection (f :: others) "directory" p)))
     = requests (base p).
Proof.
  intros Hrel Hroot.
  unfold handleFileSelection, handleDirectorySelection. unfold_page. unfold_ui. unfold_monad.
  cbn. change (String.eqb "directory" "directory") with true. cbn.
  rewrite Hrel.
  replace (String.eqb (root +:+ "/" +:+ tail) EmptyString) with false
    by (symmetry; apply String.eqb_neq; destruct root; discriminate).
  change ("/" +:+ tail) with (String "/" tail). rewrite (split_first _ _ _ Hroot).
  cbn [length hd]. destruct (JS.split "/" tail) eqn:Hsplit.
  { destruct (split_nonempty _ _ Hsplit). }
  cbn. split; reflexivity.
Qed.

(** X26. Picking a folder writes the name of the folder, the part of the
    first file's relative path before its first slash, into the directory
    field; it remembers the selection, sends nothing, and reports how many
    of the picked files the filter keeps. *)
Theorem folder_selection_writes_root (f : PickedFile) (others : list PickedFile)
    (root tail : string) (p : Page) :
  webkitRelativePath (file f) = root +:+ "/" +:+ tail ->
  JS.includes_char "/" root = false ->
  let files := f :: others in
  let p' := snd (handleFileSelection files "directory" p) in
  fst (handleFileSelection files "directory" p) = Normal tt
  /\ mediaDirectoryInput (base p') = root
  /\ selectedFiles p' = Some files
  /\ requests (base p') = requests (base p)
  /\ In ("Found "
         +:+ JS.string_of_nat (length (filterMediaFiles (map file files)))
         +:+ " media files out of " +:+ JS.string_of_nat (length files) +:+ " total files",
         "info")
        (statusLog (base p')).
Proof.
  intros Hrel Hroot files.
  assert (Hcount : length (filterMediaFiles (map file files)) = length (filterPicked files))
    by (rewrite <- filterPicked_files; apply length_map).
  remember (length (filterMediaFiles (map file files))) as kept eqn:Hkept. clear Hkept.
  subst files.
  unfold handleFileSelection, handleDirectorySelection. unfold_page. unfold_ui. unfold_monad.
  cbn. change (String.eqb "directory" "directory") with true. cbn.
  rewrite Hrel.
  replace (String.eqb (root +:+ "/" +:+ tail) EmptyString) with false
    by (symmetry; apply String.eqb_neq; destruct root; discriminate).
  change ("/" +:+ tail) with (String "/" tail). rewrite (split_first _ _ _ Hroot).
  cbn [length hd]. destruct (JS.split "/" tail) eqn:Hsplit.
  { destruct (split_nonempty _ _ Hsplit). }
  cbn. repeat split.
  rewrite Hcount.
  apply in_or_app. left. apply in_or_app. right. left. reflexivity.
Qed.

Lemma folder_selection_writes_root_witness :
  mediaDirectoryInput
    (base (snd (handleFileSelection
                  [mkPicked (mkFile "a.mp4" 1 "media/sub/a.mp4") None;
                   mkPicked (mkFile "b.txt" 2 "media/b.txt") None]
                  "directory" initialPage)))
  = "media".
Proof.
  exact (proj1 (proj2 (folder_selection_writes_root
           (mkPicked (mkFile "a.mp4" 1 "media/sub/a.mp4") None)
           [mkPicked (mkFile "b.txt" 2 "media/b.txt") None]
           "media" "sub/a.mp4" initialPage eq_refl eq_refl))).
Defined.

(** X27. A picked folder whose name is shorter than 10 characters (and has
    no backslash) cannot be served: after the selection, [startServer] sends
    no command, whatever the port, and shows an error instead. *)
Theorem short_folder_name_is_refused (fetch : Fetch) (f : PickedFile)
    (others : list PickedFile) (root tail : string) (p : Page) :
  webkitRelativePath (file f) = root +:+ "/" +:+ tail ->
  has_separator root = false ->
  String.length root < 10 ->
  let picked := base (snd (handleFileSelection (f :: others) "directory" p)) in
  requests (snd (startServer fetch picked)) = requests (base p)
  /\ has_severity "error" (notifications (snd (startServer fetch picked))) = true.
Proof.
  intros Hrel Hsep Hlen picked.
  assert (Hroot : JS.includes_char "/" root = false).
  { unfold has_separator in Hsep. apply orb_false_iff in Hsep. tauto. }
  destruct (folder_selection_root_state f others root tail p Hrel Hroot) as [Hdir Hreq].
  fold picked in Hdir, Hreq.
  destruct (startServer_refused fetch picked) as [Hsent Herr].
  { right. right. rewrite Hdir. apply short_name_rejected; assumption. }
  rewrite Hsent, Hreq. split; [reflexivity | exact Herr].
Qed.

Lemma short_folder_name_is_refused_witness :
  requests (snd (startServer accepting
             (base (snd (handleFileSelection
                           [mkPicked (mkFile "a.mp4" 1 "Pictures/a.mp4") None]
                           "directory" initialPage)))))
  = [].
Proof.
  exact (proj1 (short_folder_name_is_refused accepting
           (mkPicked (mkFile "a.mp4" 1 "Pictures/a.mp4") None) []
           "Pictures" "a.mp4" initialPage eq_refl eq_refl ltac:(vm_compute; lia))).
Defined.

Lemma append_nil_l s : EmptyString +:+ s = s.
Proof. reflexivity. Qed.

Lemma append_cons c a b : String c a +:+ b = String c (a +:+ b).
Proof. reflexivity. Qed.

Lemma append_assoc a b c : (a +:+ b) +:+ c = a +:+ (b +:+ c).
Proof. induction a as [|x a IH]; [reflexivity|]. rewrite !append_cons, IH. reflexivity. Qed.

Lemma split_on_nonempty sep s : split_on sep s <> [].
Proof.
  destruct s as [|c s]; cbn [split_on]; [discriminate|].
  destruct (sep c); [discriminate|]. destruct (split_on sep s); discriminate.
Qed.

Lemma split_on_no_sep s :
  has_separator s = false -> split_on is_separator s = [s].
Proof.
  unfold has_separator. induction s as [|c s IH]; cbn [JS.includes_char split_on];
    [reflexivity|].
  intros H. apply orb_false_iff in H as [H1 H2].
  apply orb_false_iff in H1 as [Hc1 Hs1]. apply orb_false_iff in H2 as [Hc2 Hs2].
  unfold is_separator at 1. rewrite Hc1, Hc2. cbn [orb].
  rewrite IH by (rewrite Hs1, Hs2; reflexivity). reflexivity.
Qed.

Lemma split_on_append sep a c b :
  sep c = true ->
  split_on sep (a +:+ String c b) = split_on sep a ++ split_on sep b.
Proof.
  intros Hc. induction a as [|d a IH].
  - rewrite append_nil_l. cbn [split_on]. rewrite Hc. reflexivity.
  - rewrite append_cons. cbn [split_on]. rewrite IH.
    destruct (sep d); [reflexivity|].
    destruct (split_on sep a) as [|h t] eqn:Ha; [destruct (split_on_nonempty _ _ Ha)|].
    reflexivity.
Qed.

Lemma join_fold sep l : forall a b,
  fold_left (fun acc y => acc +:+ sep +:+ y) l (a +:+ b)
  = a +:+ fold_left (fun acc y => acc +:+ sep +:+ y) l b.
Proof.
  induction l as [|x l IH]; intros a b; cbn [fold_left]; [reflexivity|].
  rewrite append_assoc. apply IH.
Qed.

Lemma join_cons sep x y l :
  join sep (x :: y :: l) = x +:+ sep +:+ join sep (y :: l).
Proof.
  unfold join. cbn [fold_left]. rewrite join_fold, join_fold. reflexivity.
Qed.

Lemma join_head_char sep c h t :
  join sep (String c h :: t) = String c (join sep (h :: t)).
Proof.
  unfold join. change (String c h) with (String c EmptyString +:+ h).
  rewrite join_fold. reflexivity.
Qed.

Lemma join_split_backslashed s :
  join "\" (split_on is_separator s) = backslashed s.
Proof.
  induction s as [|c s IH]; [reflexivity|]. cbn [split_on backslashed].
  destruct (split_on is_separator s) as [|h t] eqn:Hs; [destruct (split_on_nonempty _ _ Hs)|].
  destruct (is_separator c).
  - rewrite join_cons, IH. reflexivity.
  - rewrite join_head_char, IH. reflexivity.
Qed.

#[local] Arguments Nat.ltb : simpl never.

(** Running [handleFileSelection] on files that are not a folder's, when
    the filter keeps some of them. *)
Ltac individual_files Hkept Htype :=
  unfold handleFileSelection, handleIndividualFiles; unfold_page; unfold_ui; unfold_monad;
  cbn;
  match goal with
  | |- context [match ?l with [] => _ | _ :: _ => _ end] =>
      destruct l; [discriminate Hkept|]
  end;
  cbn; rewrite (proj2 (String.eqb_neq _ _) Htype); cbn; rewrite Hkept; cbn.

(** X28. When the first kept file of a selection gives no directory (its
    relative path has no slash and it has no full path, or a full path
    without separator), the directory field is emptied and focused and a
    warning is shown; a [startServer] that follows sends nothing. *)
Theorem files_without_directory_empty_the_field (files : list PickedFile)
    (selectionType : string) (first : PickedFile) (others : list PickedFile) (p : Page) :
  selectionType <> "directory" ->
  filterPicked files = first :: others ->
  JS.includes_char "/" (webkitRelativePath (file first)) = false ->
  match path first with Some full => has_separator full = false | None => True end ->
  let p' := snd (handleFileSelection files selectionType p) in
  fst (handleFileSelection files selectionType p) = Normal tt
  /\ mediaDirectoryInput (base p') = EmptyString
  /\ mediaDirectoryFocused p' = true
  /\ has_severity "warning" (notifications (base p')) = true
  /\ forall fetch, requests (snd (startServer fetch (base p'))) = requests (base p).
Proof.
  intros Htype Hkept Hrel Hpath.
  assert (Hparts : (1 <? length (match path first with
                                 | Some full => if String.eqb full EmptyString then []
                                                else split_on is_separator full
                                 | None => []
                                 end))%nat = false).
  { destruct (path first) as [full|]; [|reflexivity].
    destruct (String.eqb full EmptyString); [reflexivity|].
    rewrite (split_on_no_sep _ Hpath). reflexivity. }
  individual_files Hkept Htype.
  rewrite (split_no_sep _ _ Hrel), andb_false_r. cbn. rewrite Hparts.
  unfold showFileSelectionWarning. unfold_page. unfold_ui. unfold_monad. cbn.
  split; [reflexivity|]. split; [reflexivity|]. split; [reflexivity|]. split.
  - unfold has_severity. rewrite existsb_app. cbn.
    change (String.eqb "warning" "warning") with true. apply orb_true_r.
  - intros fetch.
    match goal with
    | |- context [startServer fetch ?a] =>
        destruct (startServer_refused fetch a) as [Hsent _]; [right; left; reflexivity|];
        rewrite Hsent
    end.
    reflexivity.
Qed.

Lemma files_without_directory_empty_the_field_witness :
  let shot := mkPicked (mkFile "shot.png" 9 EmptyString) None in
  mediaDirectoryInput (base (snd (handleFileSelection [shot] "files"
                                    (set_base readyApp initialPage))))
  = EmptyString.
Proof.
  intros shot.
  refine (proj1 (proj2 (files_without_directory_empty_the_field [shot] "files" shot []
                          (set_base readyApp initialPage) _ eq_refl eq_refl I))).
  discriminate.
Defined.

(** X29. When the first kept file has a full path, the directory field gets
    what precedes the last separator of that path, with every forward slash
    written as a backslash. *)
Theorem files_with_path_write_directory (files : list PickedFile) (selectionType : string)
    (first : PickedFile) (others : list PickedFile) (directory filename : string)
    (c : ascii) (p : Page) :
  selectionType <> "directory" ->
  filterPicked files = first :: others ->
  JS.includes_char "/" (webkitRelativePath (file first)) = false ->
  path first = Some (directory +:+ String c filename) ->
  is_separator c = true ->
  has_separator filename = false ->
  let p' := snd (handleFileSelection files selectionType p) in
  fst (handleFileSelection files selectionType p) = Normal tt
  /\ mediaDirectoryInput (base p') = backslashed directory
  /\ JS.includes_char "/" (mediaDirectoryInput (base p')) = false
  /\ has_severity "success" (notifications (base p')) = true.
Proof.
  intros Htype Hkept Hrel Hpath Hc Hname.
  individual_files Hkept Htype.
  rewrite (split_no_sep _ _ Hrel), andb_false_r. cbn. rewrite Hpath.
  replace (String.eqb (directory +:+ String c filename) EmptyString) with false
    by (symmetry; apply String.eqb_neq; destruct directory; discriminate).
  rewrite (split_on_append _ _ _ _ Hc), (split_on_no_sep _ Hname).
  rewrite removelast_last, join_split_backslashed.
  assert (Hlen : (1 <? length (split_on is_separator directory ++ [filename]))%nat = true).
  { apply Nat.ltb_lt. rewrite length_app. cbn [length].
    destruct (split_on is_separator directory) eqn:Hd;
      [destruct (split_on_nonempty _ _ Hd) | cbn [length]; lia]. }
  rewrite Hlen. cbn.
  split; [reflexivity|]. split; [reflexivity|]. split.
  - clear. induction directory as [|d s IH]; [reflexivity|].
    cbn [backslashed JS.includes_char]. rewrite IH.
    unfold is_separator. destruct (Ascii.eqb d "\") eqn:H1; [reflexivity|].
    destruct (Ascii.eqb d "/") eqn:H2; [reflexivity|]. cbn. rewrite H2. reflexivity.
  - unfold has_severity. rewrite existsb_app. cbn.
    change (String.eqb "success" "success") with true. apply orb_true_r.
Qed.

Lemma files_with_path_write_directory_witness :
  let clip := mkPicked (mkFile "clip.mp4" 9 EmptyString) (Some "C:/Users/me\clips/clip.mp4") in
  mediaDirectoryInput (base (snd (handleFileSelection [clip] "files" initialPage)))
  = "C:\Users\me\clips".
Proof.
  intros clip.
  refine (proj1 (proj2 (files_with_path_write_directory [clip] "files" clip []
                          "C:/Users/me\clips" "clip.mp4" "/" initialPage
                          _ eq_refl eq_refl eq_refl eq_refl eq_refl))).
  discriminate.
Defined.

(** ** The port *)

Lemma digits_step c k acc s :
  digit_value 10 c = Some k ->
  digits 10 (Some acc) (String c s) = digits 10 (Some (10 * acc + k)%Z) s.
Proof. intros H. cbn [digits]. rewrite H. reflexivity. Qed.

Ltac digit_step :=
  match goal with
  | |- context [digits 10 _ (String ?c _)] =>
      let k := eval vm_compute in (digit_value 10 c) in
      match k with
      | Some ?n => rewrite (digits_step c n _ _ eq_refl)
      end
  end.

Lemma digits_acc d : forall acc : positive,
  digits 10 (Some (Z.pos acc)) (NilEmpty.string_of_uint d)
  = Some (Z.pos (Pos.of_uint_acc d acc)).
Proof.
  induction d as [|d IH|d IH|d IH|d IH|d IH|d IH|d IH|d IH|d IH|d IH]; intros acc;
    cbn [NilEmpty.string_of_uint Pos.of_uint_acc]; [reflexivity|..];
    digit_step; rewrite <- IH; f_equal; f_equal; lia.
Qed.

Lemma digits_zero d :
  digits 10 (Some 0%Z) (NilEmpty.string_of_uint d) = Some (Z.of_N (Pos.of_uint d)).
Proof.
  induction d as [|d IH|d IH|d IH|d IH|d IH|d IH|d IH|d IH|d IH|d IH];
    cbn [NilEmpty.string_of_uint Pos.of_uint]; [reflexivity|..];
    digit_step; [exact IH|..];
    cbn [Z.of_N]; rewrite <- digits_acc; reflexivity.
Qed.

Lemma digits_none d :
  d <> Decimal.Nil ->
  digits 10 None (NilEmpty.string_of_uint d)
  = digits 10 (Some 0%Z) (NilEmpty.string_of_uint d).
Proof. destruct d; [contradiction | reflexivity ..]. Qed.

Lemma parseInt_digits d :
  d <> Decimal.Nil ->
  parseInt (NilEmpty.string_of_uint d)
  = match digits 10 None (NilEmpty.string_of_uint d) with
    | Some n => number n
    | None => VNaN
    end
  /\ parseInt (String "-" (NilEmpty.string_of_uint d))
     = match digits 10 None (NilEmpty.string_of_uint d) with
       | Some n => number (- n)
       | None => VNaN
       end.
Proof.
  intros Hd. destruct d as [|d|d|d|d|d|d|d|d|d|d]; try contradiction;
    try (split; reflexivity).
  destruct d; split; reflexivity.
Qed.

Lemma parseInt_unsigned d :
  d <> Decimal.Nil ->
  parseInt (NilEmpty.string_of_uint d) = number (Z.of_N (Pos.of_uint d))
  /\ parseInt (String "-" (NilEmpty.string_of_uint d)) = number (- Z.of_N (Pos.of_uint d)).
Proof.
  intros Hd. destruct (parseInt_digits d Hd) as [-> ->].
  rewrite (digits_none d Hd), digits_zero. split; reflexivity.
Qed.

Lemma number_exact z : (Z.abs z < 2 ^ 53)%Z -> number z = VNum z.
Proof.
  intros Hz. unfold number, to_double.
  rewrite (proj2 (Z.ltb_lt _ _) Hz). reflexivity.
Qed.

(** X30. [parseInt] reads back the decimal notation of every integer below
    2^53 in magnitude, which a double holds exactly: for such a port, what
    [startServer] sends is the number typed. *)
Theorem parseInt_string_of_Z (z : Z) :
  (Z.abs z < 2 ^ 53)%Z -> parseInt (JS.string_of_Z z) = VNum z.
Proof.
  intros Hz. rewrite <- (number_exact z Hz). clear Hz.
  unfold JS.string_of_Z. destruct z as [|p|p]; [reflexivity|..];
    cbn [Z.to_int NilEmpty.string_of_int];
    destruct (parseInt_unsigned (Pos.to_uint p) (DecimalPos.Unsigned.to_uint_nonnil p))
      as [Hpos Hneg];
    rewrite ?Hpos, ?Hneg, DecimalPos.Unsigned.of_to; reflexivity.
Qed.

Lemma parseInt_string_of_Z_witness :
  parseInt "8080" = VNum 8080
  /\ parseInt "9007199254740993" = VNum 9007199254740992.
Proof.
  split; [|vm_compute; reflexivity].
  apply (parseInt_string_of_Z 8080). reflexivity.
Defined.
